(** * DND_solo web engine: response normalizer, rules engine and session
      state machine, embedded from [utils.ts], [gameRules.ts] and
      [hooks/useGameEngine.ts].

    Conventions of the embedding.
    - A JavaScript number is an integer or NaN ([jsnum]); arithmetic is
      exact, which agrees with IEEE doubles on the safe integers.  Numbers
      with a fractional part and the infinities are not represented.
    - A JavaScript string is a [string] holding its UTF-8 bytes; substring
      search and equality on well-formed text agree with the UTF-16 view.
    - Untyped data (a parsed payload, a [mechanics] annotation) is a
      [value]; reading a property of [null] or [undefined] throws.
    - Code that can throw returns a [result]; [Math.random] is an explicit
      stream of draws from the unit interval that is threaded through.
    - Builtins whose full behaviour is a table of the engine (case
      mapping beyond ASCII, [parseFloat], [Number] beyond runs of decimal
      digits, [JSON.parse], [JSON.stringify]) are the fields of the class
      [Runtime]: every property below holds for any such engine.
      [std_runtime] is an instance for ASCII and Cyrillic text and
      integer numerals, on which the examples are evaluated. *)

From Stdlib Require Import ZArith QArith Qround Lia Bool Ascii String.
From stdpp Require Import base list strings.

Open Scope Z_scope.

#[local] Set Warnings "-register-all".

(** ** Numbers *)

Inductive jsnum : Type :=
| NInt (z : Z)
| NaN.

Definition nadd (a b : jsnum) : jsnum :=
  match a, b with
  | NInt x, NInt y => NInt (x + y)
  | _, _ => NaN
  end.

Definition nsub (a b : jsnum) : jsnum :=
  match a, b with
  | NInt x, NInt y => NInt (x - y)
  | _, _ => NaN
  end.

(** [Math.min] and [Math.max]: NaN as soon as one argument is NaN. *)
Definition nmin (a b : jsnum) : jsnum :=
  match a, b with
  | NInt x, NInt y => NInt (Z.min x y)
  | _, _ => NaN
  end.

Definition nmax (a b : jsnum) : jsnum :=
  match a, b with
  | NInt x, NInt y => NInt (Z.max x y)
  | _, _ => NaN
  end.

(** Comparisons are false as soon as one side is NaN. *)
Definition nlt (a b : jsnum) : bool :=
  match a, b with
  | NInt x, NInt y => x <? y
  | _, _ => false
  end.

Definition nge (a b : jsnum) : bool :=
  match a, b with
  | NInt x, NInt y => y <=? x
  | _, _ => false
  end.

Definition ngt (a b : jsnum) : bool := nlt b a.

(** Strict equality [===] on numbers: NaN differs from itself. *)
Definition numEq (a b : jsnum) : bool :=
  match a, b with
  | NInt x, NInt y => x =? y
  | _, _ => false
  end.

(** [Math.floor(a / d)] for a positive integer constant [d]. *)
Definition floorDiv (a : jsnum) (d : Z) : jsnum :=
  match a with
  | NInt x => NInt (x / d)
  | NaN => NaN
  end.

(** [n || fallback] on numbers: 0 and NaN are falsy. *)
Definition nor (a b : jsnum) : jsnum :=
  match a with
  | NInt 0 => b
  | NInt _ => a
  | NaN => b
  end.

Definition isNaN (a : jsnum) : bool :=
  match a with NaN => true | NInt _ => false end.

(** ** Untyped values *)

Inductive value : Type :=
| VUndef
| VNull
| VBool (b : bool)
| VNum (n : jsnum)
| VStr (s : string)
| VArr (l : list value)
| VObj (fs : list (string * value)).

Inductive exn : Type :=
| TypeError
| SyntaxError
| Error (message : string).

Inductive result (A : Type) : Type :=
| Ok (a : A)
| Throw (e : exn).

Arguments Ok {A} a.
Arguments Throw {A} e.

Definition bind {A B : Type} (r : result A) (k : A -> result B) : result B :=
  match r with
  | Ok a => k a
  | Throw e => Throw e
  end.

Notation "'let!' x ':=' r 'in' k" := (bind r (fun x => k))
  (at level 10, x name, r at level 100, k at level 200).

Fixpoint mapM {A B : Type} (f : A -> result B) (l : list A) : result (list B) :=
  match l with
  | [] => Ok []
  | a :: r => let! b := f a in let! bs := mapM f r in Ok (b :: bs)
  end.

Definition truthy (v : value) : bool :=
  match v with
  | VUndef | VNull => false
  | VBool b => b
  | VNum (NInt z) => negb (z =? 0)
  | VNum NaN => false
  | VStr s => negb (String.eqb s "")
  | VArr _ | VObj _ => true
  end.

(** [a || b] on values. *)
Definition vor (a b : value) : value := if truthy a then a else b.

Definition isObject (v : value) : bool :=
  match v with VArr _ | VObj _ => true | _ => false end.

Definition isUndefined (v : value) : bool :=
  match v with VUndef => true | _ => false end.

Fixpoint assoc (k : string) (fs : list (string * value)) : value :=
  match fs with
  | [] => VUndef
  | (k', v) :: r => if String.eqb k k' then v else assoc k r
  end.

(** [v.k] for the property names this program reads (none of them is
    [length], an index or a prototype method): an own property of an
    object, [undefined] on an array or a primitive, a TypeError on [null]
    and [undefined]. *)
Definition get (v : value) (k : string) : result value :=
  match v with
  | VUndef | VNull => Throw TypeError
  | VObj fs => Ok (assoc k fs)
  | _ => Ok VUndef
  end.

(** ** Strings *)

Definition isDigit (c : ascii) : bool :=
  let n := Z.of_nat (nat_of_ascii c) in (48 <=? n) && (n <=? 57).

Definition digitVal (c : ascii) : Z := Z.of_nat (nat_of_ascii c) - 48.

Definition digitChar (d : Z) : ascii := ascii_of_nat (Z.to_nat (48 + d)).

(** Value of a hexadecimal digit, if [c] is one. *)
Definition hexVal (c : ascii) : option Z :=
  let n := Z.of_nat (nat_of_ascii c) in
  if (48 <=? n) && (n <=? 57) then Some (n - 48)
  else if (97 <=? n) && (n <=? 102) then Some (n - 87)
  else if (65 <=? n) && (n <=? 70) then Some (n - 55)
  else None.

Definition isAsciiChar (c : ascii) : bool := Z.of_nat (nat_of_ascii c) <? 128.

Definition lowerAscii (c : ascii) : ascii :=
  let n := Z.of_nat (nat_of_ascii c) in
  if (65 <=? n) && (n <=? 90) then ascii_of_nat (Z.to_nat (n + 32)) else c.

Fixpoint allChars (p : ascii -> bool) (s : string) : bool :=
  match s with
  | EmptyString => true
  | String c r => p c && allChars p r
  end.

Fixpoint mapChars (f : ascii -> ascii) (s : string) : string :=
  match s with
  | EmptyString => EmptyString
  | String c r => String (f c) (mapChars f r)
  end.

Fixpoint isPrefix (p s : string) : bool :=
  match p, s with
  | EmptyString, _ => true
  | String a p', String b s' => Ascii.eqb a b && isPrefix p' s'
  | String _ _, EmptyString => false
  end.

(** [hay.includes(needle)] *)
Fixpoint includes (hay needle : string) : bool :=
  isPrefix needle hay ||
  match hay with
  | EmptyString => false
  | String _ r => includes r needle
  end.

Fixpoint dropChars (n : nat) (s : string) : string :=
  match n, s with
  | O, _ => s
  | S n', String _ r => dropChars n' r
  | S _, EmptyString => EmptyString
  end.

(** The white space of [\s], [trim], [parseInt] and [Number], in UTF-8:
    TAB LF VT FF CR SP, U+00A0, U+1680, U+2000..U+200A, U+2028, U+2029,
    U+202F, U+205F, U+3000, U+FEFF.  [wsLen s] is the byte length of the
    white-space character [s] starts with, 0 if it starts with none. *)
Definition wsLen (s : string) : nat :=
  match s with
  | String c r =>
      let n := Z.of_nat (nat_of_ascii c) in
      if ((9 <=? n) && (n <=? 13)) || (n =? 32) then 1%nat
      else match r with
      | String c2 r2 =>
          let n2 := Z.of_nat (nat_of_ascii c2) in
          if (n =? 194) && (n2 =? 160) then 2%nat
          else match r2 with
          | String c3 _ =>
              let n3 := Z.of_nat (nat_of_ascii c3) in
              if (n =? 225) && (n2 =? 154) && (n3 =? 128) then 3%nat
              else if (n =? 226) && (n2 =? 128)
                      && (((128 <=? n3) && (n3 <=? 138)) || (n3 =? 168)
                          || (n3 =? 169) || (n3 =? 175)) then 3%nat
              else if (n =? 226) && (n2 =? 129) && (n3 =? 159) then 3%nat
              else if (n =? 227) && (n2 =? 128) && (n3 =? 128) then 3%nat
              else if (n =? 239) && (n2 =? 187) && (n3 =? 191) then 3%nat
              else 0%nat
          | EmptyString => 0%nat
          end
      | EmptyString => 0%nat
      end
  | EmptyString => 0%nat
  end.

(** [s.replace(/\s/g, '')] *)
Fixpoint stripWsFuel (fuel : nat) (s : string) : string :=
  match fuel with
  | O => s
  | S f =>
      match wsLen s with
      | O => match s with
             | EmptyString => EmptyString
             | String c r => String c (stripWsFuel f r)
             end
      | S k => stripWsFuel f (dropChars (S k) s)
      end
  end.

Definition stripWs (s : string) : string := stripWsFuel (String.length s) s.

Fixpoint trimStartFuel (fuel : nat) (s : string) : string :=
  match fuel with
  | O => s
  | S f =>
      match wsLen s with
      | O => s
      | S k => trimStartFuel f (dropChars (S k) s)
      end
  end.

Definition trimStart (s : string) : string := trimStartFuel (String.length s) s.

(** Drops the white space at the end: [keep] is what follows the last
    character that is not white space. *)
Fixpoint trimEndFuel (fuel : nat) (s : string) : string :=
  match fuel with
  | O => EmptyString
  | S f =>
      match wsLen s with
      | O => match s with
             | EmptyString => EmptyString
             | String c r => String c (trimEndFuel f r)
             end
      | S k =>
          let r := trimEndFuel f (dropChars (S k) s) in
          match r with
          | EmptyString => EmptyString
          | _ => String.append (substring 0 (S k) s) r
          end
      end
  end.

(** [s.trim()] *)
Definition trim (s : string) : string :=
  let t := trimStart s in trimEndFuel (String.length t) t.

(** [s.split(sep)] for a one-character separator: never empty. *)
Fixpoint split (sep : ascii) (s : string) : list string :=
  match s with
  | EmptyString => [EmptyString]
  | String c r =>
      if Ascii.eqb c sep then EmptyString :: split sep r
      else match split sep r with
           | [] => [String c EmptyString]
           | h :: t => String c h :: t
           end
  end.

(** [l.join(sep)] *)
Fixpoint join (sep : string) (l : list string) : string :=
  match l with
  | [] => EmptyString
  | [a] => a
  | a :: r => String.append a (String.append sep (join sep r))
  end.

(** Decimal digits of a non-negative integer, most significant first. *)
Fixpoint digitsFuel (fuel : nat) (n : Z) (acc : string) : string :=
  match fuel with
  | O => acc
  | S f =>
      let acc' := String (digitChar (n mod 10)) acc in
      if n <? 10 then acc' else digitsFuel f (n / 10) acc'
  end.

Definition digitsOf (n : Z) : string :=
  digitsFuel (S (Z.to_nat (Z.log2 n))) n EmptyString.

(** [String(n)] for a number (below 1e21, where the engine switches to
    exponent notation). *)
Definition numToString (n : jsnum) : string :=
  match n with
  | NaN => "NaN"
  | NInt z => if z <? 0 then String "-" (digitsOf (- z)) else digitsOf z
  end.

Definition hasKey (k : string) (fs : list (string * value)) : bool :=
  existsb (fun kv => String.eqb k (fst kv)) fs.

(** [String(v)].  An object is converted through its [toString]: the
    inherited one gives [[object Object]], but an own property of that
    name, which in parsed data is never a function, hides it, and neither
    it nor [valueOf] then yields a primitive: a TypeError.  An array is the
    join of its elements, [null] and [undefined] giving the empty text. *)
Fixpoint toStr (v : value) : result string :=
  match v with
  | VUndef => Ok "undefined"
  | VNull => Ok "null"
  | VBool true => Ok "true"
  | VBool false => Ok "false"
  | VNum n => Ok (numToString n)
  | VStr s => Ok s
  | VArr l =>
      let fix elems (l : list value) : result (list string) :=
        match l with
        | [] => Ok []
        | e :: r =>
            let! s := match e with
                      | VUndef | VNull => Ok EmptyString
                      | _ => toStr e
                      end in
            let! ss := elems r in
            Ok (s :: ss)
        end in
      let! parts := elems l in
      Ok (join "," parts)
  | VObj fs => if hasKey "toString" fs then Throw TypeError
               else Ok "[object Object]"
  end.

(** Reads decimal digits from the left; stops at the first other
    character. *)
Fixpoint readDec (acc : Z) (s : string) : Z :=
  match s with
  | String c r => if isDigit c then readDec (10 * acc + digitVal c) r else acc
  | EmptyString => acc
  end.

Fixpoint readHex (acc : Z) (s : string) : Z :=
  match s with
  | String c r =>
      match hexVal c with
      | Some d => readHex (16 * acc + d) r
      | None => acc
      end
  | EmptyString => acc
  end.

(** The digits of [parseInt] once white space and sign are gone: a [0x]
    or [0X] prefix selects radix 16; no digit at all gives NaN. *)
Definition parseIntDigits (s : string) : jsnum :=
  match s with
  | String "0" (String x r) =>
      if Ascii.eqb x "x" || Ascii.eqb x "X" then
        match r with
        | String h _ =>
            match hexVal h with
            | Some _ => NInt (readHex 0 r)
            | None => NaN
            end
        | EmptyString => NaN
        end
      else NInt (readDec 0 s)
  | String c _ => if isDigit c then NInt (readDec 0 s) else NaN
  | EmptyString => NaN
  end.

Definition nneg (a : jsnum) : jsnum :=
  match a with NInt z => NInt (- z) | NaN => NaN end.

(** [parseInt(s)] with no radix argument. *)
Definition parseInt (s : string) : jsnum :=
  match trimStart s with
  | String "-" r => nneg (parseIntDigits r)
  | String "+" r => parseIntDigits r
  | t => parseIntDigits t
  end.


(** ** The engine's builtins *)

Class Runtime : Type := {
  (** [s.toLowerCase()] for a string that is not plain ASCII. *)
  lowerNonAscii : string -> string;
  (** [parseFloat(s)] *)
  parseFloat : string -> jsnum;
  (** [Number(s)] for a string that is neither empty nor a run of decimal
      digits. *)
  numberOther : string -> jsnum;
  (** [JSON.parse(s)]; [None] is its SyntaxError. *)
  JSON_parse : string -> option value;
  (** [JSON.stringify(v)] *)
  JSON_stringify : value -> string;
  (** The [message] of the errors the engine itself raises. *)
  typeErrorMessage : string;
  syntaxErrorMessage : string
}.

(** [s.toLowerCase()]: bytewise on ASCII text. *)
Definition toLowerCase {R : Runtime} (s : string) : string :=
  if allChars isAsciiChar s then mapChars lowerAscii s else lowerNonAscii s.

(** [Number(s)]: the empty string is 0, a run of decimal digits is its
    value. *)
Definition toNumber {R : Runtime} (s : string) : jsnum :=
  match s with
  | EmptyString => NInt 0
  | _ => if allChars isDigit s then NInt (readDec 0 s) else numberOther s
  end.

(** ** Data model ([types.ts]) *)

Inductive GamePhase : Type :=
| world_creation | character_creation | intro | gameplay | levelup | gameover.

Inductive AttrKey : Type := Str | Dex | Con | Int | Wis | Cha.

Record Attributes : Type := mkAttributes {
  a_str : jsnum; a_dex : jsnum; a_con : jsnum;
  a_int : jsnum; a_wis : jsnum; a_cha : jsnum
}.

(** [Partial<Attributes>]: [None] is an absent key. *)
Record PartialAttributes : Type := mkPartialAttributes {
  pa_str : option jsnum; pa_dex : option jsnum; pa_con : option jsnum;
  pa_int : option jsnum; pa_wis : option jsnum; pa_cha : option jsnum
}.

Inductive ItemType : Type := weapon | armor | consumable | misc | ammo.

(** An inventory entry.  [i_mechanics = None] is an absent [mechanics] key
    (the spread of a merge then keeps the old one), [Some VUndef] a key
    that is present and undefined.  [i_equipped = None] is an [equipped]
    that reads as [undefined]. *)
Record InventoryItem : Type := mkItem {
  i_name : string;
  i_type : ItemType;
  i_description : option string;
  i_mechanics : option value;
  i_quantity : jsnum;
  i_equipped : option bool
}.

Record Feature : Type := mkFeature { f_name : string; f_description : string }.

Record HitDice : Type := mkHitDice {
  hd_current : jsnum; hd_max : jsnum; hd_face : string
}.

Record SpellSlot : Type := mkSpellSlot {
  ss_current : option jsnum; ss_max : option jsnum
}.

Record DeathSaves : Type := mkDeathSaves {
  successes : jsnum; failures : jsnum
}.

(** [level], [xp] and [ac] can be written as [undefined] by a merge
    ([None]); [deathSaves] is guarded against absence where it is read. *)
Record Character : Type := mkCharacter {
  c_name : string; c_race : string; c_class : string;
  c_level : option jsnum; c_xp : option jsnum;
  c_hp : jsnum; c_maxHp : jsnum; c_ac : option jsnum;
  c_attributes : Attributes;
  c_inventory : list InventoryItem;
  c_skills : list string; c_savingThrows : list string;
  c_features : list Feature; c_conditions : list string;
  c_gold : jsnum;
  c_hitDice : HitDice;
  c_spellSlots : list (string * SpellSlot);
  c_deathSaves : option DeathSaves
}.

(** [Partial<Character>] as the normalizer builds it: [None] is an absent
    key; for [ac], [level] and [xp] the key can be present and undefined
    ([Some None]). *)
Record CharacterUpdate : Type := mkCharacterUpdate {
  u_name : option string; u_race : option string; u_class : option string;
  u_hp : option jsnum; u_maxHp : option jsnum;
  u_ac : option (option jsnum);
  u_gold : option jsnum;
  u_level : option (option jsnum); u_xp : option (option jsnum);
  u_attributes : option PartialAttributes;
  u_inventory : option (list InventoryItem);
  u_conditions : option (list string);
  u_skills : option (list string);
  u_savingThrows : option (list string);
  u_features : option (list Feature);
  u_hitDice : option HitDice;
  u_deathSaves : option DeathSaves;
  u_spellSlots : option (list (string * SpellSlot))
}.

Record WorldData : Type := mkWorldData {
  w_name : option string; w_genre : option string;
  w_description : option string;
  w_currencyLabel : option string; w_combatState : option string
}.

Record CheckRequest : Type := mkCheckRequest {
  k_attribute : string;
  k_difficulty : jsnum;
  k_dice : string;
  k_reason : option string;
  k_successRisk : option string;
  k_failRisk : string;
  k_isAttack : bool;
  k_isSave : bool;
  k_damageDice : option string
}.

Record AIResponse : Type := mkAIResponse {
  r_narrative : string;
  r_options : list string;
  r_characterUpdate : option CharacterUpdate;
  r_worldUpdate : option WorldData;
  r_isGameOver : bool;
  r_isLevelUp : bool;
  r_levelUpOptions : option (list Feature);
  r_validationError : option string;
  r_check : option CheckRequest
}.

(** ** [utils.ts] *)

Section Utils.
Context {R : Runtime}.

Definition coerceNumber (val : value) (fallback : option jsnum) : option jsnum :=
  match val with
  | VUndef | VNull => fallback
  | VNum n => if isNaN n then fallback else Some n
  | VStr s => let parsed := parseFloat s in
              if isNaN parsed then fallback else Some parsed
  | _ => fallback
  end.

Definition coerceString (val : value) (fallback : string) : result string :=
  match val with
  | VUndef | VNull => Ok fallback
  | VStr s => Ok s
  | _ => toStr val
  end.

(** [o || b] for a number that may be undefined. *)
Definition onor (o : option jsnum) (b : jsnum) : jsnum :=
  match o with
  | Some n => nor n b
  | None => b
  end.

Definition itemTypeOf (t : value) : ItemType :=
  match t with
  | VStr s =>
      if String.eqb s "weapon" then weapon
      else if String.eqb s "armor" then armor
      else if String.eqb s "consumable" then consumable
      else if String.eqb s "misc" then misc
      else if String.eqb s "ammo" then ammo
      else misc
  | _ => misc
  end.

(** [v ? coerceString(v) : undefined] *)
Definition truthyText (v : value) : result (option string) :=
  if truthy v then let! s := coerceString v "" in Ok (Some s) else Ok None.

Definition normalizeItem (item : value) : result InventoryItem :=
  let! n := get item "name" in
  let! name := coerceString n "Unknown Item" in
  let! t := get item "type" in
  let! d := get item "description" in
  let! description := truthyText d in
  let! m := get item "mechanics" in
  let! q := get item "quantity" in
  let! e := get item "equipped" in
  Ok {| i_name := name;
        i_type := itemTypeOf t;
        i_description := description;
        i_mechanics := Some m;
        i_quantity := onor (coerceNumber q (Some (NInt 1))) (NInt 1);
        i_equipped := Some (truthy e) |}.

Definition normalizeInventory (rawItems : value) : result (list InventoryItem) :=
  match rawItems with
  | VArr l => mapM normalizeItem l
  | _ => Ok []
  end.

(** A property of a value that a guard has shown to be neither [null] nor
    [undefined]: the read cannot throw. *)
Definition prop (v : value) (k : string) : value :=
  match get v k with
  | Ok x => x
  | Throw _ => VUndef
  end.

Definition normalizeAttributes (rawAttrs : value) : option PartialAttributes :=
  if negb (truthy rawAttrs) || negb (isObject rawAttrs) then None
  else
    let key k := if isUndefined (prop rawAttrs k) then None
                 else coerceNumber (prop rawAttrs k) (Some (NInt 10)) in
    Some {| pa_str := key "str"; pa_dex := key "dex"; pa_con := key "con";
            pa_int := key "int"; pa_wis := key "wis"; pa_cha := key "cha" |}.

Definition normalizeCheck (rawCheck : value) : result (option CheckRequest) :=
  if negb (truthy rawCheck) || negb (isObject rawCheck) then Ok None
  else
    let! attribute := coerceString (prop rawCheck "attribute") "dex" in
    let! dice := coerceString (prop rawCheck "dice") "1d20" in
    let! reason := coerceString (prop rawCheck "reason") "Check" in
    let! successRisk := coerceString (prop rawCheck "successRisk") "Success" in
    let! failRisk := coerceString (prop rawCheck "failRisk") "Failure" in
    let! damageDice := truthyText (prop rawCheck "damageDice") in
    Ok (Some {| k_attribute := attribute;
                k_difficulty :=
                  onor (coerceNumber (prop rawCheck "difficulty")
                                     (Some (NInt 10)))
                       (NInt 10);
                k_dice := dice;
                k_reason := Some reason;
                k_successRisk := Some successRisk;
                k_failRisk := failRisk;
                k_isAttack := truthy (prop rawCheck "isAttack");
                k_isSave := truthy (prop rawCheck "isSave");
                k_damageDice := damageDice |}).

Definition isArray (v : value) : bool :=
  match v with VArr _ => true | _ => false end.

Definition elements (v : value) : list value :=
  match v with VArr l => l | _ => [] end.

Fixpoint indexed (i : Z) (l : list value) : list (string * value) :=
  match l with
  | [] => []
  | v :: r => (numToString (NInt i), v) :: indexed (i + 1) r
  end.

(** [Object.entries(v)] of an object or an array. *)
Definition entries (v : value) : list (string * value) :=
  match v with
  | VObj fs => fs
  | VArr l => indexed 0 l
  | _ => []
  end.

(** The string read at key [k] when it is not [undefined]. *)
Definition optString (c : value) (k : string) : result (option string) :=
  if isUndefined (prop c k) then Ok None
  else let! s := coerceString (prop c k) "" in Ok (Some s).

(** [w.k ? coerceString(w.k) : undefined] *)
Definition truthyString (w : value) (k : string) : result (option string) :=
  truthyText (prop w k).

(** [v.map(s => coerceString(s))] *)
Definition coerceStrings (l : list value) : result (list string) :=
  mapM (fun s => coerceString s "") l.

(** [v && Array.isArray(v)] then [v.map(s => coerceString(s))] *)
Definition stringArray (v : value) : result (option (list string)) :=
  if truthy v && isArray v
  then let! l := coerceStrings (elements v) in Ok (Some l)
  else Ok None.

Definition isRangedName (n : string) : bool :=
  includes n "bow" || includes n "лук" || includes n "gun"
  || includes n "rifle" || includes n "pistol" || includes n "пистолет"
  || includes n "винтовка" || includes n "crossbow" || includes n "арбалет".

Definition hasRanged (inv : list InventoryItem) : bool :=
  existsb (fun i => isRangedName (toLowerCase (i_name i))) inv.

Definition isAmmoItem (i : InventoryItem) : bool :=
  match i_type i with ammo => true | _ => false end
  || includes (toLowerCase (i_name i)) "ammo"
  || includes (toLowerCase (i_name i)) "патрон"
  || includes (toLowerCase (i_name i)) "стрел".

Definition hasAmmo (inv : list InventoryItem) : bool := existsb isAmmoItem inv.

(** The stack pushed by the hard-logic ammunition check: it has neither a
    [mechanics] nor an [equipped] key. *)
Definition ammoStack : InventoryItem :=
  {| i_name := "Комплект боеприпасов";
     i_type := ammo;
     i_description := Some "Базовый боезапас, добавленный системой.";
     i_mechanics := None;
     i_quantity := NInt 20;
     i_equipped := None |}.

Definition ensureAmmo (inv : list InventoryItem) : list InventoryItem :=
  if hasRanged inv && negb (hasAmmo inv) then inv ++ [ammoStack] else inv.

(** The inventory block of section 2: normalization, then the ammunition
    check. *)
Definition normalizeUpdateInventory (c : value)
  : result (option (list InventoryItem)) :=
  if truthy (prop c "inventory")
  then let! items := normalizeInventory (prop c "inventory") in
       Ok (Some (ensureAmmo items))
  else Ok None.

Definition normalizeFeature (f : value) : result Feature :=
  match f with
  | VStr s => Ok {| f_name := s; f_description := "" |}
  | _ =>
      let! n := get f "name" in
      let! name := coerceString n "Unknown" in
      let! d := get f "description" in
      let! description := coerceString d "" in
      Ok {| f_name := name; f_description := description |}
  end.

Definition normalizeLevelUpOption (opt : value) : result Feature :=
  let! n := get opt "name" in
  let! name := coerceString n "" in
  let! d := get opt "description" in
  let! description := coerceString d "" in
  Ok {| f_name := name; f_description := description |}.

Definition normalizeSpellSlots (v : value) : list (string * SpellSlot) :=
  omap (fun '(lvl, val) =>
          if truthy val && isObject val
          then Some (lvl, {| ss_current := coerceNumber (prop val "current") (Some (NInt 0));
                             ss_max := coerceNumber (prop val "max") (Some (NInt 0)) |})
          else None)
       (entries v).

Definition orDefault (o : option jsnum) (d : jsnum) : jsnum :=
  match o with Some n => n | None => d end.

(** Section 2 of [normalizeAIResponse]: the sanitized character update of
    a [characterUpdate] that is a truthy object. *)
Definition normalizeCharacterUpdate (c : value) : result CharacterUpdate :=
  let hpLike k :=
    if isUndefined (prop c k) then None
    else Some (match coerceNumber (prop c k) (Some (NInt 1)) with
               | Some val => nmax (NInt 1) val
               | None => NInt 1
               end) in
  let numLike k :=
    if isUndefined (prop c k) then None
    else Some (coerceNumber (prop c k) None) in
  let! name := optString c "name" in
  let! race := optString c "race" in
  let! class := optString c "class" in
  let! inv := normalizeUpdateInventory c in
  let! conditions := stringArray (prop c "conditions") in
  let! skills := stringArray (prop c "skills") in
  let! savingThrows := stringArray (prop c "savingThrows") in
  let! feats :=
    (if truthy (prop c "features") && isArray (prop c "features")
     then let! fs := mapM normalizeFeature (elements (prop c "features")) in
          Ok (Some fs)
     else Ok None) in
  let! hitDice :=
    (let h := prop c "hitDice" in
     if truthy h
     then let! face := coerceString (prop h "face") "1d8" in
          Ok (Some {| hd_current := orDefault (coerceNumber (prop h "current") (Some (NInt 1))) (NInt 1);
                      hd_max := orDefault (coerceNumber (prop h "max") (Some (NInt 1))) (NInt 1);
                      hd_face := face |})
     else Ok None) in
  Ok {| u_name := name;
        u_race := race;
        u_class := class;
        u_hp := hpLike "hp";
        u_maxHp := hpLike "maxHp";
        u_ac := numLike "ac";
        u_gold := if isUndefined (prop c "gold") then None
                  else coerceNumber (prop c "gold") (Some (NInt 0));
        u_level := numLike "level";
        u_xp := numLike "xp";
        u_attributes := if truthy (prop c "attributes")
                        then normalizeAttributes (prop c "attributes")
                        else None;
        u_inventory := inv;
        u_conditions := conditions;
        u_skills := skills;
        u_savingThrows := savingThrows;
        u_features := feats;
        u_hitDice := hitDice;
        u_deathSaves :=
          (let d := prop c "deathSaves" in
           if truthy d
           then Some {| successes := orDefault (coerceNumber (prop d "successes") (Some (NInt 0))) (NInt 0);
                        failures := orDefault (coerceNumber (prop d "failures") (Some (NInt 0))) (NInt 0) |}
           else None);
        u_spellSlots :=
          (let sl := prop c "spellSlots" in
           if truthy sl && isObject sl then Some (normalizeSpellSlots sl)
           else None) |}.

(** The response for a payload that is falsy or not an object. *)
Definition invalidStructure : AIResponse :=
  {| r_narrative := "Error: AI returned invalid data structure.";
     r_options := ["Retry"];
     r_characterUpdate := None;
     r_worldUpdate := None;
     r_isGameOver := false;
     r_isLevelUp := false;
     r_levelUpOptions := None;
     r_validationError := None;
     r_check := None |}.

Definition normalizeAIResponse (raw : value) : result AIResponse :=
  if negb (truthy raw) || negb (isObject raw) then Ok invalidStructure
  else
    let! narrative := coerceString (prop raw "narrative") "..." in
    let! options :=
      (if isArray (prop raw "options")
       then coerceStrings (elements (prop raw "options"))
       else Ok []) in
    let! validationError := truthyString raw "validationError" in
    let! cu :=
      (let c := prop raw "characterUpdate" in
       if truthy c && isObject c
       then let! clean := normalizeCharacterUpdate c in Ok (Some clean)
       else Ok None) in
    let! wu :=
      (let w := prop raw "worldUpdate" in
       if truthy w && isObject w
       then let! name := truthyString w "name" in
            let! genre := truthyString w "genre" in
            let! description := truthyString w "description" in
            let! currencyLabel := truthyString w "currencyLabel" in
            let! combatState := truthyString w "combatState" in
            Ok (Some {| w_name := name;
                        w_genre := genre;
                        w_description := description;
                        w_currencyLabel := currencyLabel;
                        w_combatState := combatState |})
       else Ok None) in
    let! ck :=
      (if truthy (prop raw "check") then normalizeCheck (prop raw "check")
       else Ok None) in
    let! lu :=
      (let o := prop raw "levelUpOptions" in
       if truthy o && isArray o
       then let! os := mapM normalizeLevelUpOption (elements o) in Ok (Some os)
       else Ok None) in
    Ok {| r_narrative := narrative;
          r_options := options;
          r_characterUpdate := cu;
          r_worldUpdate := wu;
          r_isGameOver := truthy (prop raw "isGameOver");
          r_isLevelUp := truthy (prop raw "isLevelUp");
          r_levelUpOptions := lu;
          r_validationError := validationError;
          r_check := ck |}.

(** *** Dice *)

(** The stream of values [Math.random()] returns, each in [0, 1). *)
Definition rng : Type := nat -> Q.

Definition advance (rnd : rng) : rng := fun i => rnd (S i).

(** [Math.floor(Math.random() * faces) + 1] *)
Definition rollDie (faces : Z) (u : Q) : Z := Qfloor (u * inject_Z faces) + 1.

Definition d20 (rnd : rng) : jsnum * rng :=
  (NInt (rollDie 20 (rnd 0%nat)), advance rnd).

(** The [for] loop of [parseAndRoll]: [n] further iterations. *)
Fixpoint rollLoop (n : nat) (faces : Z) (total : Z) (rnd : rng) : Z * rng :=
  match n with
  | O => (total, rnd)
  | S k => rollLoop k faces (total + rollDie faces (rnd 0%nat)) (advance rnd)
  end.

(** [parseAndRoll(diceString)] for a string argument (the [catch] is never
    reached then). *)
Definition parseAndRoll (diceString : string) (rnd : rng) : jsnum * rng :=
  if String.eqb diceString "" then d20 rnd
  else
    let clean := stripWs (toLowerCase diceString) in
    let parts := split "+" clean in
    let dicePart := List.hd EmptyString parts in
    let flatBonus := match parts with
                     | _ :: p1 :: _ => parseInt p1
                     | _ => NInt 0
                     end in
    match List.map toNumber (split "d" dicePart) with
    | NInt count :: NInt faces :: _ =>
        if (count =? 0) || (faces =? 0) then d20 rnd
        else
          let '(total, rnd') := rollLoop (Z.to_nat count) faces 0 rnd in
          (nadd (NInt total) flatBonus, rnd')
    | _ => d20 rnd
    end.

Definition getModifier (score : jsnum) : jsnum :=
  floorDiv (nsub score (NInt 10)) 2.

Definition getProficiencyBonus (level : jsnum) : jsnum :=
  nadd (floorDiv (nsub level (NInt 1)) 4) (NInt 2).

Definition attrName (k : AttrKey) : string :=
  match k with
  | Str => "str" | Dex => "dex" | Con => "con"
  | Int => "int" | Wis => "wis" | Cha => "cha"
  end.

(** [SKILL_MAP] of [constants.ts], in the order of its entries. *)
Definition SKILL_MAP : list (string * AttrKey) :=
  [ ("athletics", Str); ("атлетика", Str);
    ("acrobatics", Dex); ("акробатика", Dex); ("stealth", Dex);
    ("скрытность", Dex); ("sleight of hand", Dex); ("ловкость рук", Dex);
    ("investigation", Int); ("анализ", Int); ("расследование", Int);
    ("arcana", Int); ("магия", Int); ("history", Int); ("история", Int);
    ("nature", Int); ("природа", Int); ("religion", Int); ("религия", Int);
    ("insight", Wis); ("проницательность", Wis); ("perception", Wis);
    ("внимательность", Wis); ("medicine", Wis); ("медицина", Wis);
    ("survival", Wis); ("выживание", Wis); ("animal handling", Wis);
    ("уход за животными", Wis);
    ("deception", Cha); ("обман", Cha); ("intimidation", Cha);
    ("запугивание", Cha); ("performance", Cha); ("выступление", Cha);
    ("persuasion", Cha); ("убеждение", Cha) ].

Fixpoint firstSkill (lower : string) (m : list (string * AttrKey)) : option AttrKey :=
  match m with
  | [] => None
  | (skill, attr) :: r => if includes lower skill then Some attr
                          else firstSkill lower r
  end.

Definition resolveAttributeFromCheck (checkName : string) : AttrKey :=
  if String.eqb checkName "" then Dex
  else
    let l := trim (toLowerCase checkName) in
    if String.eqb l "str" then Str
    else if String.eqb l "dex" then Dex
    else if String.eqb l "con" then Con
    else if String.eqb l "int" then Int
    else if String.eqb l "wis" then Wis
    else if String.eqb l "cha" then Cha
    else if includes l "сила" then Str
    else if includes l "ловкость" then Dex
    else if includes l "тело" || includes l "вынос" then Con
    else if includes l "интеллект" then Int
    else if includes l "мудрость" then Wis
    else if includes l "харизма" then Cha
    else match firstSkill l SKILL_MAP with
         | Some attr => attr
         | None => Dex
         end.

Definition isSavingThrow (checkName : string) : bool :=
  if String.eqb checkName "" then false
  else
    let lower := toLowerCase checkName in
    includes lower "save" || includes lower "спас" || includes lower "saving".

Definition dquote : ascii := ascii_of_nat 34.

(** The repair attempt of [lenientParse]: every single quote becomes a
    double quote. *)
Definition doubleQuotes (s : string) : string :=
  mapChars (fun c => if Ascii.eqb c "'" then dquote else c) s.

Definition lenientParse (s : string) : value :=
  match JSON_parse s with
  | Some v => v
  | None =>
      match JSON_parse (doubleQuotes s) with
      | Some v => v
      | None => VNull
      end
  end.

End Utils.

(** ** [gameRules.ts] *)

Section GameRules.
Context {R : Runtime}.

Record AcState : Type := mkAcState {
  baseAc : jsnum;
  shieldBonus : jsnum;
  hasArmor : bool
}.

Definition isEquipped (item : InventoryItem) : bool :=
  match i_equipped item with Some true => true | _ => false end.

Definition mechanicsOf (item : InventoryItem) : value :=
  match i_mechanics item with Some v => v | None => VUndef end.

(** [mechStr] of the loop body. *)
Definition mechStr (item : InventoryItem) : string :=
  match mechanicsOf item with
  | VStr s => s
  | m => JSON_stringify (vor m (VObj []))
  end.

(** [stats] of the loop body: [lenientParse(mechStr) || {}]. *)
Definition itemStats (item : InventoryItem) : value :=
  vor (lenientParse (mechStr item)) (VObj []).

Definition isShieldName (n : string) : bool :=
  includes (toLowerCase n) "shield" || includes (toLowerCase n) "щит".

Definition isShield (item : InventoryItem) : bool :=
  isShieldName (i_name item)
  || match prop (itemStats item) "type" with
     | VStr t => String.eqb t "shield"
     | _ => false
     end.

(** [parseInt(String(stats.ac || stats.bonus || 2)) || 2] *)
Definition shieldBonusOf (stats : value) : result jsnum :=
  let! text := toStr (vor (vor (prop stats "ac") (prop stats "bonus"))
                          (VNum (NInt 2))) in
  Ok (nor (parseInt text) (NInt 2)).

(** [(stats.type || "").toLowerCase()]: a truthy [type] that is not a
    string has no [toLowerCase]. *)
Definition armorType (stats : value) : result string :=
  match vor (prop stats "type") (VStr "") with
  | VStr t => Ok (toLowerCase t)
  | _ => Throw TypeError
  end.

(** One iteration of the [forEach] of [calculateArmorClass]. *)
Definition acStep (dexMod : jsnum) (st : AcState) (item : InventoryItem)
  : result AcState :=
  if negb (isEquipped item) then Ok st
  else
    let stats := itemStats item in
    match i_type item with
    | armor =>
        if isShield item then
          let! bonus := shieldBonusOf stats in
          Ok {| baseAc := baseAc st;
                shieldBonus := nadd (shieldBonus st) bonus;
                hasArmor := hasArmor st |}
        else if truthy (prop stats "ac") then
          let! text := toStr (prop stats "ac") in
          let armorVal := parseInt text in
          let! type := armorType stats in
          if includes type "heavy" || includes type "тяжел" then
            Ok {| baseAc := armorVal;
                  shieldBonus := shieldBonus st; hasArmor := true |}
          else if includes type "medium" || includes type "средн" then
            Ok {| baseAc := nadd armorVal (nmin (NInt 2) dexMod);
                  shieldBonus := shieldBonus st; hasArmor := true |}
          else
            Ok {| baseAc := nadd armorVal dexMod;
                  shieldBonus := shieldBonus st; hasArmor := true |}
        else Ok st
    | _ => Ok st
    end.

Fixpoint foldM {A B : Type} (f : A -> B -> result A) (a : A) (l : list B)
  : result A :=
  match l with
  | [] => Ok a
  | b :: r => let! a' := f a b in foldM f a' r
  end.

Definition calculateArmorClass (char : Character) : result jsnum :=
  let dexMod := getModifier (a_dex (c_attributes char)) in
  let! st := foldM (acStep dexMod)
                   {| baseAc := nadd (NInt 10) dexMod;
                      shieldBonus := NInt 0;
                      hasArmor := false |}
                   (c_inventory char) in
  Ok (nadd (baseAc st) (shieldBonus st)).

End GameRules.

(** ** Session state ([types.ts], [constants.ts]) *)

Inductive Role : Type := user | model | system | roll_result.

Inductive RollType : Type := normal | adv | dis.

(** The [meta] of a [roll_result] entry. *)
Record RollMeta : Type := mkRollMeta {
  m_roll : jsnum; m_rolls : list jsnum; m_mod : jsnum; m_total : jsnum;
  m_dc : jsnum; m_attr : string; m_success : bool;
  m_reason : option string; m_dice : string; m_isAttack : bool;
  m_damageDice : option string;
  m_successLabel : string; m_failLabel : string; m_rollType : RollType
}.

Record LogEntry : Type := mkLogEntry {
  e_id : string; e_role : Role; e_text : string; e_timestamp : Z;
  e_meta : option RollMeta
}.

Record GameState : Type := mkGameState {
  phase : GamePhase;
  world : option WorldData;
  character : option Character;
  history : list LogEntry;
  currentOptions : list string;
  pendingCheck : option CheckRequest;
  levelUpChoices : option (list Feature)
}.

Definition INITIAL_GAME_STATE : GameState :=
  {| phase := world_creation; world := None; character := None;
     history := []; currentOptions := []; pendingCheck := None;
     levelUpChoices := None |}.

Definition DUMMY_CHAR : Character :=
  {| c_name := "Создание..."; c_race := "-"; c_class := "-";
     c_level := Some (NInt 1); c_xp := Some (NInt 0);
     c_hp := NInt 10; c_maxHp := NInt 10; c_ac := Some (NInt 10);
     c_attributes := mkAttributes (NInt 10) (NInt 10) (NInt 10)
                                  (NInt 10) (NInt 10) (NInt 10);
     c_inventory := []; c_skills := []; c_savingThrows := [];
     c_features := []; c_conditions := [];
     c_gold := NInt 0;
     c_hitDice := mkHitDice (NInt 1) (NInt 1) "1d8";
     c_spellSlots := [];
     c_deathSaves := Some (mkDeathSaves (NInt 0) (NInt 0)) |}.

Definition setPhase (s : GameState) (p : GamePhase) : GameState :=
  {| phase := p; world := world s; character := character s;
     history := history s; currentOptions := currentOptions s;
     pendingCheck := pendingCheck s; levelUpChoices := levelUpChoices s |}.

Definition setCharacter (s : GameState) (c : option Character) : GameState :=
  {| phase := phase s; world := world s; character := c;
     history := history s; currentOptions := currentOptions s;
     pendingCheck := pendingCheck s; levelUpChoices := levelUpChoices s |}.

Definition setInventoryAc (c : Character) (inv : list InventoryItem)
  (ac : option jsnum) : Character :=
  {| c_name := c_name c; c_race := c_race c; c_class := c_class c;
     c_level := c_level c; c_xp := c_xp c;
     c_hp := c_hp c; c_maxHp := c_maxHp c; c_ac := ac;
     c_attributes := c_attributes c;
     c_inventory := inv;
     c_skills := c_skills c; c_savingThrows := c_savingThrows c;
     c_features := c_features c; c_conditions := c_conditions c;
     c_gold := c_gold c; c_hitDice := c_hitDice c;
     c_spellSlots := c_spellSlots c; c_deathSaves := c_deathSaves c |}.

Definition setVitals (c : Character) (hp : jsnum) (ds : option DeathSaves)
  : Character :=
  {| c_name := c_name c; c_race := c_race c; c_class := c_class c;
     c_level := c_level c; c_xp := c_xp c;
     c_hp := hp; c_maxHp := c_maxHp c; c_ac := c_ac c;
     c_attributes := c_attributes c;
     c_inventory := c_inventory c;
     c_skills := c_skills c; c_savingThrows := c_savingThrows c;
     c_features := c_features c; c_conditions := c_conditions c;
     c_gold := c_gold c; c_hitDice := c_hitDice c;
     c_spellSlots := c_spellSlots c; c_deathSaves := ds |}.

Definition setEquipped (i : InventoryItem) (e : option bool) : InventoryItem :=
  {| i_name := i_name i; i_type := i_type i;
     i_description := i_description i; i_mechanics := i_mechanics i;
     i_quantity := i_quantity i; i_equipped := e |}.

Definition attrOf (a : Attributes) (k : AttrKey) : jsnum :=
  match k with
  | Str => a_str a | Dex => a_dex a | Con => a_con a
  | Int => a_int a | Wis => a_wis a | Cha => a_cha a
  end.

(** ** [hooks/useGameEngine.ts] *)

Section Engine.
Context {R : Runtime}.

(** *** [handleToggleEquip] *)

Definition isArmor (i : InventoryItem) : bool :=
  match i_type i with armor => true | _ => false end.

(** The body of the [forEach]: every armor that is not a shield by name
    is unequipped. *)
Definition unequipArmor (i : InventoryItem) : InventoryItem :=
  if isArmor i && negb (isShieldName (i_name i))
  then setEquipped i (Some false) else i.

(** What a toggle leaves behind: the state it saved, or the error it
    threw together with the session as it then is. *)
Inductive ToggleOutcome : Type :=
| Toggled (newState : GameState)
| ToggleThrew (e : exn) (session : GameState).

(** The copied array holds the very entries of the session, so the flags
    are written into the session's own entries before the armor class is
    computed: when that computation throws, nothing is saved, and the
    session is left with the new flags and the armor class it had.  A
    missing entry at [itemIndex] makes [targetItem.type] throw before
    anything is written.  Without a character nothing happens. *)
Definition handleToggleEquip (state : GameState) (itemIndex : nat)
  : ToggleOutcome :=
  match character state with
  | None => Toggled state
  | Some char =>
      match c_inventory char !! itemIndex with
      | None => ToggleThrew TypeError state
      | Some targetItem =>
          let swap := isArmor targetItem && negb (isEquipped targetItem)
                      && negb (isShieldName (i_name targetItem)) in
          let swept := if swap then List.map unequipArmor (c_inventory char)
                       else c_inventory char in
          let target1 := if swap then unequipArmor targetItem else targetItem in
          let target2 := setEquipped target1 (Some (negb (isEquipped target1))) in
          let newInventory := <[itemIndex := target2]> swept in
          let tempChar := setInventoryAc char newInventory (c_ac char) in
          match calculateArmorClass tempChar with
          | Ok newAc =>
              Toggled (setCharacter state
                         (Some (setInventoryAc tempChar newInventory
                                               (Some newAc))))
          | Throw e => ToggleThrew e (setCharacter state (Some tempChar))
          end
      end
  end.

(** *** [handleRoll] *)

(** What a roll leaves behind.  [Rolled] is the state it stored.  When
    the session had no character, the source spreads [null] into a fresh
    empty object and stores that object as the character: it is truthy
    and has none of the fields of a [Character], so it is no value of
    [GameState]; [RolledEmpty] is that case, [stateAfterRoll] giving the
    rest of the state and [None] standing where the empty object is. *)
Inductive RollOutcome : Type :=
| NoPendingCheck
| CheckLost
| Rolled (stateAfterRoll : GameState) (followUp : option string)
| RolledEmpty (stateAfterRoll : GameState) (followUp : option string).

Definition someOr (o : option string) (d : string) : string :=
  match o with
  | Some s => if String.eqb s "" then d else s
  | None => d
  end.

Definition isDeathSaveCheck (check : CheckRequest) : bool :=
  match k_reason check with
  | Some r => includes (toLowerCase r) "death" || includes (toLowerCase r) "смерть"
  | None => false
  end.

Definition isProficientFor (check : CheckRequest) (attrKey : AttrKey)
  (char : option Character) : bool :=
  let isSave := k_isSave check
                || isSavingThrow (someOr (k_reason check) "")
                || isSavingThrow (k_attribute check) in
  if isSave then
    match char with
    | Some c => existsb (fun s => includes (toLowerCase s) (attrName attrKey))
                        (c_savingThrows c)
    | None => false
    end
  else
    let checkReasonLower := toLowerCase (someOr (k_reason check) "") in
    let checkAttrLower := toLowerCase (k_attribute check) in
    match char with
    | Some c => existsb (fun skillName =>
                           includes checkReasonLower (toLowerCase skillName)
                           || includes checkAttrLower (toLowerCase skillName))
                        (c_skills c)
    | None => false
    end.

(** [mod] as [handleRoll] computes it before the roll. *)
Definition rollModifier (check : CheckRequest) (char : option Character) : jsnum :=
  let attrKey := resolveAttributeFromCheck (k_attribute check) in
  let attrValue := match char with
                   | Some c => nor (attrOf (c_attributes c) attrKey) (NInt 10)
                   | None => NInt 10
                   end in
  if isDeathSaveCheck check then NInt 0
  else
    let m := getModifier attrValue in
    if isProficientFor check attrKey char then
      let level := match char with
                   | Some c => onor (c_level c) (NInt 1)
                   | None => NInt 1
                   end in
      nadd m (getProficiencyBonus level)
    else m.

(** The death-save block: the character after it, [isDead], and whether
    the critical-success text was set. *)
Definition applyDeathSave (char : Character) (ds : DeathSaves)
  (success : bool) (finalRoll : jsnum) : Character * bool * bool :=
  let '(char1, ds1, crit) :=
    if success then
      if numEq finalRoll (NInt 20) then
        (setVitals char (NInt 1) (Some (mkDeathSaves (NInt 0) (NInt 0))),
         mkDeathSaves (NInt 0) (NInt 0), true)
      else
        let ds' := mkDeathSaves (nmin (NInt 3) (nadd (successes ds) (NInt 1)))
                                (failures ds) in
        (setVitals char (c_hp char) (Some ds'), ds', false)
    else
      let failCount := if numEq finalRoll (NInt 1) then NInt 2 else NInt 1 in
      let ds' := mkDeathSaves (successes ds)
                              (nmin (NInt 3) (nadd (failures ds) failCount)) in
      (setVitals char (c_hp char) (Some ds'), ds', false) in
  (char1, nge (failures ds1) (NInt 3), crit).

Definition rollTypeLabel (t : RollType) : string :=
  match t with
  | adv => "with ADVANTAGE"
  | dis => "with DISADVANTAGE"
  | normal => "NORMAL"
  end.

Definition attrUpper (k : AttrKey) : string :=
  match k with
  | Str => "STR" | Dex => "DEX" | Con => "CON"
  | Int => "INT" | Wis => "WIS" | Cha => "CHA"
  end.

Definition successWord (b : bool) : string := if b then "SUCCESS" else "FAILURE".

Definition cat (l : list string) : string := join EmptyString l.

Definition diceOf (check : CheckRequest) : string :=
  if String.eqb (k_dice check) "" then "1d20" else k_dice check.

(** The two draws of a roll: [finalRoll] and [recordedRolls]. *)
Definition rollBoth (rollType : RollType) (diceConfig : string) (rnd : rng)
  : jsnum * list jsnum :=
  let '(r1, rnd1) := parseAndRoll diceConfig rnd in
  let '(r2, _) := parseAndRoll diceConfig rnd1 in
  match rollType with
  | adv => (nmax r1 r2, [r1; r2])
  | dis => (nmin r1 r2, [r1; r2])
  | normal => (r1, [r1])
  end.

(** [captured] is the state read when the roll was requested,
    [current] the state when the dice land; [now] is the clock and [rnd]
    the draws of [Math.random] from that moment on.  Without a
    character every read of it gives [undefined], and what is stored is
    an empty object: the outcome is [RolledEmpty]. *)
Definition handleRoll (rollType : RollType) (captured current : GameState)
  (now : Z) (rnd : rng) : RollOutcome :=
  match pendingCheck captured with
  | None => NoPendingCheck
  | Some check =>
      let diceConfig := diceOf check in
      let dc := nor (k_difficulty check) (NInt 10) in
      let isDeathSave := isDeathSaveCheck check in
      let attrKey := resolveAttributeFromCheck (k_attribute check) in
      let mod_ := rollModifier check (character captured) in
      let '(finalRoll, recordedRolls) := rollBoth rollType diceConfig rnd in
      let totalRoll := nadd finalRoll mod_ in
      match pendingCheck current with
      | None => CheckLost
      | Some _ =>
          let success := nge totalRoll dc in
          let '(updatedChar, isDead, crit) :=
            match character captured with
            | Some char =>
                match c_deathSaves char with
                | Some ds =>
                    if isDeathSave
                    then let '(c', d, k) := applyDeathSave char ds success finalRoll in
                         (Some c', d, k)
                    else (Some char, false, false)
                | None => (Some char, false, false)
                end
            | None => (None, false, false)
            end in
          let dsText (f : DeathSaves -> jsnum) :=
            match updatedChar with
            | Some c => match c_deathSaves c with
                        | Some ds => numToString (f ds)
                        | None => "undefined"
                        end
            | None => "undefined"
            end in
          let resultText :=
            if isDead then
              "[SYSTEM]: DEATH SAVE FAILURE. You have succumbed to your wounds. GAME OVER."
            else if crit then
              "[SYSTEM]: CRITICAL SUCCESS! You regain consciousness with 1 HP."
            else if k_isAttack check && success then
              cat ["[SYSTEM]: ATTACK ROLL ("; rollTypeLabel rollType;
                   "). Roll "; numToString finalRoll; " + Mod ";
                   numToString mod_; " = "; numToString totalRoll;
                   " vs AC "; numToString dc;
                   ". HIT! Waiting for damage roll..."]
            else if isDeathSave then
              cat ["[SYSTEM]: DEATH SAVE. Result: "; successWord success;
                   ". Current Status: "; dsText successes; " Successes, ";
                   dsText failures; " Failures."]
            else
              cat ["[SYSTEM]: CHECK/SAVE. Roll "; numToString finalRoll;
                   " + Mod "; numToString mod_; " = "; numToString totalRoll;
                   " vs DC "; numToString dc; ". Result: ";
                   successWord success; "."] in
          let visualEntry :=
            {| e_id := numToString (NInt now);
               e_role := roll_result;
               e_text := if success then "УСПЕХ" else "ПРОВАЛ";
               e_timestamp := now;
               e_meta := Some
                 {| m_roll := finalRoll; m_rolls := recordedRolls;
                    m_mod := mod_; m_total := totalRoll; m_dc := dc;
                    m_attr := if isDeathSave then "DEATH" else attrUpper attrKey;
                    m_success := success; m_reason := k_reason check;
                    m_dice := diceConfig; m_isAttack := k_isAttack check;
                    m_damageDice :=
                      if k_isAttack check && success
                      then Some (someOr (k_damageDice check) "1d4")
                      else None;
                    m_successLabel := someOr (k_successRisk check) "Успех";
                    m_failLabel := someOr (Some (k_failRisk check)) "Провал";
                    m_rollType := rollType |} |} in
          let deathEntry :=
            {| e_id := String.append (numToString (NInt now)) "_death";
               e_role := system;
               e_text := "💀 ПЕРСОНАЖ ПОГИБ. ИСТОРИЯ ЗАВЕРШЕНА.";
               e_timestamp := now; e_meta := None |} in
          let newHistory := history current ++ [visualEntry]
                            ++ (if isDead then [deathEntry] else []) in
          let stateAfterRoll :=
            {| phase := if isDead then gameover else phase current;
               world := world current;
               character := updatedChar;
               history := newHistory;
               currentOptions := currentOptions current;
               pendingCheck := None;
               levelUpChoices := levelUpChoices current |} in
          let followUp :=
            if negb isDead && (negb (k_isAttack check) || negb success)
            then Some resultText else None in
          match character captured with
          | Some _ => Rolled stateAfterRoll followUp
          | None => RolledEmpty stateAfterRoll followUp
          end
      end
  end.

(** *** [callAI] *)

Inductive ServiceReply : Type :=
| Reply (text : option string)
| Failure (e : exn).

(** What the narrative service answers to the successive requests. *)
Definition service : Type := nat -> ServiceReply.

Inductive Event : Type :=
| Request
| Sleep (ms : Z).

Definition maxRetries : Z := 3.

(** [e.message || JSON.stringify(e)]; for a thrown service error the
    [message] of [Error] is that text. *)
Definition exnText (e : exn) : string :=
  match e with
  | Error m => m
  | TypeError => typeErrorMessage
  | SyntaxError => syntaxErrorMessage
  end.

Definition isQuotaText (msg : string) : bool :=
  includes msg "429" || includes msg "resource_exhausted" || includes msg "quota".

Definition isQuotaError (e : exn) : bool :=
  isQuotaText (toLowerCase (exnText e)).

(** The [while (attempt < maxRetries)] loop; [fuel] bounds its iterations.
    The result is [response] ([None] while it is still [null]) or the
    error thrown out of the loop, with the requests and waits made. *)
Fixpoint retryLoop (fuel : nat) (attempt : Z) (svc : service)
  : result (option (option string)) * list Event :=
  match fuel with
  | O => (Ok None, [])
  | S f =>
      if attempt <? maxRetries then
        match svc 0%nat with
        | Reply text => (Ok (Some text), [Request])
        | Failure e =>
            let isQuota := isQuotaError e in
            if isQuota && (attempt <? maxRetries - 1) then
              let attempt' := attempt + 1 in
              let delay := 2000 * 2 ^ attempt' in
              let '(r, tr) := retryLoop f attempt' (fun i => svc (S i)) in
              (r, Request :: Sleep delay :: tr)
            else (Throw e, [Request])
        end
      else (Ok None, [])
  end.

Definition callService (svc : service)
  : result (option (option string)) * list Event :=
  retryLoop (Z.to_nat maxRetries) 0 svc.

Fixpoint removeAllFuel (fuel : nat) (pat s : string) : string :=
  match fuel with
  | O => s
  | S f =>
      match s with
      | EmptyString => EmptyString
      | String c r =>
          if isPrefix pat s
          then removeAllFuel f pat (dropChars (String.length pat) s)
          else String c (removeAllFuel f pat r)
      end
  end.

(** [s.replace(/pat/g, '')] for a literal, non-empty [pat]. *)
Definition removeAll (pat s : string) : string :=
  removeAllFuel (String.length s) pat s.

Fixpoint indexOf (c : ascii) (s : string) : option nat :=
  match s with
  | EmptyString => None
  | String a r => if Ascii.eqb a c then Some 0%nat
                  else option_map S (indexOf c r)
  end.

Fixpoint lastIndexOf (c : ascii) (s : string) : option nat :=
  match s with
  | EmptyString => None
  | String a r =>
      match lastIndexOf c r with
      | Some i => Some (S i)
      | None => if Ascii.eqb a c then Some 0%nat else None
      end
  end.

(** [s.substring(a, b)]: the arguments are swapped when [a > b]. *)
Definition jsSubstring (a b : nat) (s : string) : string :=
  if (b <? a)%nat then substring b (a - b) s else substring a (b - a) s.

(** The "robust JSON extraction" of the response text. *)
Definition extractJson (text : option string) : string :=
  let t0 := someOr text "{}" in
  let t1 := removeAll "```" (removeAll "```json" t0) in
  match indexOf "{" t1, lastIndexOf "}" t1 with
  | Some firstBrace, Some lastBrace => jsSubstring firstBrace (S lastBrace) t1
  | _, _ => t1
  end.

Definition sameName (a b : string) : bool :=
  String.eqb (toLowerCase (trim a)) (toLowerCase (trim b)).

Fixpoint findIndex {A : Type} (p : A -> bool) (l : list A) : option nat :=
  match l with
  | [] => None
  | a :: r => if p a then Some 0%nat else option_map S (findIndex p r)
  end.

(** [{...old, ...newItem, equipped: ...}]: an entry of a normalized update
    carries every key but possibly [mechanics] and [equipped]. *)
Definition overlay (old newItem : InventoryItem) : InventoryItem :=
  {| i_name := i_name newItem;
     i_type := i_type newItem;
     i_description := i_description newItem;
     i_mechanics := match i_mechanics newItem with
                    | Some m => Some m
                    | None => i_mechanics old
                    end;
     i_quantity := i_quantity newItem;
     i_equipped := match i_equipped newItem with
                   | Some e => Some e
                   | None => i_equipped old
                   end |}.

(** The body of [update.inventory.forEach]. *)
Definition mergeItem (mergedInventory : list InventoryItem)
  (newItem : InventoryItem) : list InventoryItem :=
  if String.eqb (i_name newItem) "" then mergedInventory
  else
    match findIndex (fun old => sameName (i_name old) (i_name newItem))
                    mergedInventory with
    | Some existingIndex =>
        match mergedInventory !! existingIndex with
        | Some old => <[existingIndex := overlay old newItem]> mergedInventory
        | None => mergedInventory
        end
    | None => mergedInventory ++ [newItem]
    end.

Definition mergeInventory (old : list InventoryItem)
  (upd : option (list InventoryItem)) : list InventoryItem :=
  match upd with
  | Some items =>
      List.filter (fun item => ngt (i_quantity item) (NInt 0))
                  (fold_left mergeItem items old)
  | None => old
  end.

Definition pick {A : Type} (o : option A) (d : A) : A :=
  match o with Some a => a | None => d end.

Definition mergeAttributes (old : Attributes) (upd : option PartialAttributes)
  : Attributes :=
  match upd with
  | Some u =>
      {| a_str := pick (pa_str u) (a_str old);
         a_dex := pick (pa_dex u) (a_dex old);
         a_con := pick (pa_con u) (a_con old);
         a_int := pick (pa_int u) (a_int old);
         a_wis := pick (pa_wis u) (a_wis old);
         a_cha := pick (pa_cha u) (a_cha old) |}
  | None => old
  end.

(** [{...(oldChar.deathSaves || {successes: 0, failures: 0}),
      ...(update.deathSaves || {})}] *)
Definition mergeDeathSaves (old : option DeathSaves) (upd : option DeathSaves)
  : DeathSaves :=
  match upd with
  | Some u => u
  | None => pick old (mkDeathSaves (NInt 0) (NInt 0))
  end.

(** [newState.character] before its armor class is recomputed. *)
Definition mergeCharacter (oldChar : Character) (update : CharacterUpdate)
  : Character :=
  {| c_name := pick (u_name update) (c_name oldChar);
     c_race := pick (u_race update) (c_race oldChar);
     c_class := pick (u_class update) (c_class oldChar);
     c_level := pick (u_level update) (c_level oldChar);
     c_xp := pick (u_xp update) (c_xp oldChar);
     c_hp := pick (u_hp update) (c_hp oldChar);
     c_maxHp := pick (u_maxHp update) (c_maxHp oldChar);
     c_ac := pick (u_ac update) (c_ac oldChar);
     c_attributes := mergeAttributes (c_attributes oldChar) (u_attributes update);
     c_inventory := mergeInventory (c_inventory oldChar) (u_inventory update);
     c_skills := pick (u_skills update) (c_skills oldChar);
     c_savingThrows := pick (u_savingThrows update) (c_savingThrows oldChar);
     c_features := pick (u_features update) (c_features oldChar);
     c_conditions := pick (u_conditions update) (c_conditions oldChar);
     c_gold := pick (u_gold update) (c_gold oldChar);
     c_hitDice := pick (u_hitDice update) (c_hitDice oldChar);
     c_spellSlots := pick (u_spellSlots update) (c_spellSlots oldChar);
     c_deathSaves := Some (mergeDeathSaves (c_deathSaves oldChar)
                                           (u_deathSaves update)) |}.

Inductive Outcome : Type :=
| Committed (newState : GameState) (autoIntro : bool)
| ValidationAbort (error : string)
| HelpShown (helpText : string)
| Failed (error : string).

(** The entry pushed when the update lowers the hit points. *)
Definition damageEntry (now : Z) (oldChar : Character) (update : CharacterUpdate)
  : list LogEntry :=
  match u_hp update with
  | Some hp =>
      if nlt hp (c_hp oldChar)
      then [ {| e_id := String.append (numToString (NInt now)) "_dmg";
                e_role := system;
                e_text := cat ["💔 ПОЛУЧЕН УРОН: -";
                               numToString (nsub (c_hp oldChar) hp); " HP"];
                e_timestamp := now; e_meta := None |} ]
      else []
  | None => []
  end.

Definition nextPhase (captured : GamePhase) (latest : GamePhase)
  (resp : AIResponse) (char : option Character) : GamePhase :=
  let p1 := match captured with
            | world_creation => character_creation
            | character_creation => intro
            | intro => gameplay
            | _ => latest
            end in
  let p2 := if r_isLevelUp resp then levelup else p1 in
  let p3 := if r_isGameOver resp then gameover else p2 in
  let p4 := match captured with
            | levelup => if r_isLevelUp resp then p3 else gameplay
            | _ => p3
            end in
  match char with
  | Some c =>
      if match c_level c with Some l => numEq l (NInt 1) | None => false end
         && nge (onor (c_xp c) (NInt 0)) (NInt 300)
      then levelup else p4
  | None => p4
  end.

(** [callAI] from the validated response on: [currentState] is the state
    captured when the call started, [latest] is [stateRef.current] once
    the service has answered. *)
Definition applyResponse (currentState latest : GameState) (now : Z)
  (isHelpRequest : bool) (injectedHistory : option (list LogEntry))
  (jsonResponse : AIResponse) : result Outcome :=
  if negb (String.eqb (someOr (r_validationError jsonResponse) "") "")
  then Ok (ValidationAbort (someOr (r_validationError jsonResponse) ""))
  else if isHelpRequest then Ok (HelpShown (r_narrative jsonResponse))
  else
    let history0 := pick injectedHistory (history latest) in
    let world1 := match r_worldUpdate jsonResponse with
                  | Some wu => Some wu
                  | None => world latest
                  end in
    let! merged :=
      (match r_characterUpdate jsonResponse with
       | Some update =>
           let oldChar := pick (character latest) DUMMY_CHAR in
           let newChar := mergeCharacter oldChar update in
           let! ac := calculateArmorClass newChar in
           Ok (Some (setInventoryAc newChar (c_inventory newChar) (Some ac)),
               history0 ++ damageEntry now oldChar update)
       | None => Ok (character latest, history0)
       end) in
    let '(char1, history1) := merged in
    let phase1 := nextPhase (phase currentState) (phase latest)
                            jsonResponse char1 in
    let justFinishedCharCreation :=
      match phase currentState with character_creation => true | _ => false end in
    let narrativeText :=
      someOr (Some (r_narrative jsonResponse))
             (match phase currentState with
              | intro => "Мир обретает форму..."
              | _ => "..."
              end) in
    let modelEntry :=
      {| e_id := numToString (NInt now); e_role := model;
         e_text := narrativeText; e_timestamp := now; e_meta := None |} in
    let options1 :=
      match r_check jsonResponse with
      | Some _ => []
      | None =>
          match r_options jsonResponse, phase1 with
          | [], gameplay => ["Продолжить..."; "Осмотреться"; "Задать вопрос"]
          | os, _ => os
          end
      end in
    Ok (Committed
          {| phase := phase1;
             world := world1;
             character := char1;
             history := history1 ++ [modelEntry];
             currentOptions := options1;
             pendingCheck := r_check jsonResponse;
             levelUpChoices := match r_levelUpOptions jsonResponse with
                               | Some o => Some o
                               | None => levelUpChoices latest
                               end |}
          justFinishedCharCreation).

(** The notice of the [catch] block. *)
Definition uiError (e : exn) : string :=
  let msg := toLowerCase (exnText e) in
  if isQuotaText msg
  then "⏳ Лимит запросов исчерпан (429). Подождите 60 секунд и повторите."
  else if includes msg "400" then "Ошибка данных запроса (400)."
  else if includes msg "json" then "Ошибка обработки ответа нейросети (JSON)."
  else "Ошибка связи с нейросетью. Попробуйте еще раз.".

(** [callAI]: the outcome for the session and the requests and waits it
    made.  The prompt only shapes the request, which the service, an
    oracle here, does not depend on. *)
Definition callAI (hasApiKey : bool) (currentState latest : GameState)
  (now : Z) (isHelpRequest : bool) (injectedHistory : option (list LogEntry))
  (svc : service) : Outcome * list Event :=
  if negb hasApiKey then (Failed (uiError (Error "API Key missing")), [])
  else
    let '(r, trace) := callService svc in
    match r with
    | Throw e => (Failed (uiError e), trace)
    | Ok None => (Failed (uiError (Error "No response from AI")), trace)
    | Ok (Some text) =>
        match JSON_parse (extractJson text) with
        | None => (Failed (uiError SyntaxError), trace)
        | Some rawJson =>
            match (let! jsonResponse := normalizeAIResponse rawJson in
                   applyResponse currentState latest now isHelpRequest
                                 injectedHistory jsonResponse) with
            | Ok o => (o, trace)
            | Throw e => (Failed (uiError e), trace)
            end
        end
    end.

End Engine.

(** ** A runtime for ASCII and Cyrillic text and integer numerals *)

Definition byte (c : ascii) : Z := Z.of_nat (nat_of_ascii c).

Definition ofByte (n : Z) : ascii := ascii_of_nat (Z.to_nat n).

(** Lower case of UTF-8 text: ASCII letters, and the Cyrillic capitals
    U+0400..U+042F; every other character is kept. *)
Fixpoint lowerStd (s : string) : string :=
  match s with
  | EmptyString => EmptyString
  | String c1 t =>
      match t with
      | String c2 r =>
          if byte c1 =? 208 then
            if (144 <=? byte c2) && (byte c2 <=? 159)
            then String c1 (String (ofByte (byte c2 + 32)) (lowerStd r))
            else if (160 <=? byte c2) && (byte c2 <=? 175)
            then String (ofByte 209) (String (ofByte (byte c2 - 32)) (lowerStd r))
            else if (128 <=? byte c2) && (byte c2 <=? 143)
            then String (ofByte 209) (String (ofByte (byte c2 + 16)) (lowerStd r))
            else String c1 (String c2 (lowerStd r))
          else String (lowerAscii c1) (lowerStd t)
      | EmptyString => String (lowerAscii c1) EmptyString
      end
  end.

(** An optional sign and the decimal digits a string starts with. *)
Definition signedPrefix (s : string) : jsnum :=
  let digits t := match t with
                  | String c _ => if isDigit c then NInt (readDec 0 t) else NaN
                  | EmptyString => NaN
                  end in
  match s with
  | String "-" r => nneg (digits r)
  | String "+" r => digits r
  | _ => digits s
  end.

(** [parseFloat] on numerals without fraction or exponent. *)
Definition parseFloatStd (s : string) : jsnum := signedPrefix (trimStart s).

(** [Number] on signed decimal numerals; any other text is NaN. *)
Definition numberStd (s : string) : jsnum :=
  let t := trim s in
  match t with
  | EmptyString => NInt 0
  | String c r =>
      let body := if Ascii.eqb c "-" || Ascii.eqb c "+" then r else t in
      match body with
      | EmptyString => NaN
      | _ => if allChars isDigit body then signedPrefix t else NaN
      end
  end.

Definition hexDigit (n : Z) : ascii :=
  if n <? 10 then ofByte (48 + n) else ofByte (87 + n).

(** A string literal of JSON text. *)
Fixpoint quoteBody (s : string) : string :=
  match s with
  | EmptyString => String dquote EmptyString
  | String c r =>
      let n := byte c in
      let esc x := String "\" (String x (quoteBody r)) in
      if n =? 34 then esc dquote
      else if n =? 92 then esc "\"%char
      else if n =? 8 then esc "b"%char
      else if n =? 12 then esc "f"%char
      else if n =? 10 then esc "n"%char
      else if n =? 13 then esc "r"%char
      else if n =? 9 then esc "t"%char
      else if n <? 32
      then String "\" (String "u" (String "0" (String "0"
             (String (hexDigit (n / 16)) (String (hexDigit (n mod 16))
                (quoteBody r))))))
      else String c (quoteBody r)
  end.

Definition quote (s : string) : string := String dquote (quoteBody s).

Fixpoint stringifyStd (v : value) : string :=
  match v with
  | VUndef | VNull | VNum NaN => "null"
  | VBool true => "true"
  | VBool false => "false"
  | VNum n => numToString n
  | VStr s => quote s
  | VArr l => cat ["["; join "," (List.map stringifyStd l); "]"]
  | VObj fs =>
      let fix members (l : list (string * value)) : list string :=
        match l with
        | [] => []
        | (k, x) :: r =>
            if isUndefined x then members r
            else cat [quote k; ":"; stringifyStd x] :: members r
        end in
      cat ["{"; join "," (members fs); "}"]
  end.

(** White space of JSON text: space, tab, line feed, carriage return. *)
Fixpoint skipWs (s : string) : string :=
  match s with
  | String c r =>
      if (byte c =? 32) || (byte c =? 9) || (byte c =? 10) || (byte c =? 13)
      then skipWs r else s
  | EmptyString => EmptyString
  end.

(** UTF-8 bytes of a code point below U+10000 that is not a surrogate. *)
Definition utf8 (cp : Z) : option string :=
  if cp <? 128 then Some (String (ofByte cp) EmptyString)
  else if cp <? 2048
  then Some (String (ofByte (192 + cp / 64))
               (String (ofByte (128 + cp mod 64)) EmptyString))
  else if (55296 <=? cp) && (cp <=? 57343) then None
  else Some (String (ofByte (224 + cp / 4096))
               (String (ofByte (128 + (cp / 64) mod 64))
                  (String (ofByte (128 + cp mod 64)) EmptyString))).

(** The rest of a string literal after its opening quote: the text and
    what follows the closing quote. *)
Fixpoint readString (s : string) : option (string * string) :=
  match s with
  | EmptyString => None
  | String c r =>
      if byte c =? 34 then Some (EmptyString, r)
      else if byte c <? 32 then None
      else if byte c =? 92 then
        match r with
        | String e r' =>
            let plain x := match readString r' with
                           | Some (t, rest) => Some (String x t, rest)
                           | None => None
                           end in
            if byte e =? 34 then plain dquote
            else if byte e =? 92 then plain "\"%char
            else if byte e =? 47 then plain "/"%char
            else if byte e =? 98 then plain (ofByte 8)
            else if byte e =? 102 then plain (ofByte 12)
            else if byte e =? 110 then plain (ofByte 10)
            else if byte e =? 114 then plain (ofByte 13)
            else if byte e =? 116 then plain (ofByte 9)
            else if byte e =? 117 then
              match r' with
              | String h1 (String h2 (String h3 (String h4 r4))) =>
                  match hexVal h1, hexVal h2, hexVal h3, hexVal h4 with
                  | Some a, Some b, Some c', Some d =>
                      match utf8 (((a * 16 + b) * 16 + c') * 16 + d),
                            readString r4 with
                      | Some u, Some (t, rest) => Some (String.append u t, rest)
                      | _, _ => None
                      end
                  | _, _, _, _ => None
                  end
              | _ => None
              end
            else None
        | EmptyString => None
        end
      else match readString r with
           | Some (t, rest) => Some (String c t, rest)
           | None => None
           end
  end.

(** An integer numeral of JSON text; a fraction or an exponent is outside
    the numbers represented here and is refused. *)
Definition readNumber (s : string) : option (value * string) :=
  let '(neg, body) := match s with
                      | String "-" r => (true, r)
                      | _ => (false, s)
                      end in
  let fix rest (t : string) : string :=
    match t with
    | String c r => if isDigit c then rest r else t
    | EmptyString => EmptyString
    end in
  match body with
  | String c r =>
      if isDigit c then
        let after := if Ascii.eqb c "0" then r else rest body in
        let z := if Ascii.eqb c "0" then 0 else readDec 0 body in
        match after with
        | String x _ =>
            if Ascii.eqb x "." || Ascii.eqb x "e" || Ascii.eqb x "E"
            then None
            else Some (VNum (NInt (if neg then - z else z)), after)
        | EmptyString => Some (VNum (NInt (if neg then - z else z)), after)
        end
      else None
  | EmptyString => None
  end.

(** The last value written for a key wins; the key keeps its place. *)
Fixpoint setField (fs : list (string * value)) (k : string) (v : value)
  : list (string * value) :=
  match fs with
  | [] => [(k, v)]
  | (k', v') :: r => if String.eqb k k' then (k, v) :: r
                     else (k', v') :: setField r k v
  end.

Inductive ParseMode : Type :=
| PValue
| PElements (acc : list value)
| PMembers (acc : list (string * value)).

(** [key : value] of an object: the key and what follows the colon. *)
Definition readKey (s : string) : option (string * string) :=
  match skipWs s with
  | String q r =>
      if byte q =? 34 then
        match readString r with
        | Some (k, rest) =>
            match skipWs rest with
            | String colon rest' =>
                if byte colon =? 58 then Some (k, rest') else None
            | EmptyString => None
            end
        | None => None
        end
      else None
  | EmptyString => None
  end.

Fixpoint parseJson (fuel : nat) (mode : ParseMode) (s : string)
  : option (value * string) :=
  match fuel with
  | O => None
  | S f =>
      match mode, skipWs s with
      | PValue, String c r =>
          if byte c =? 123 then
            match skipWs r with
            | String c2 r2 =>
                if byte c2 =? 125 then Some (VObj [], r2)
                else match readKey r with
                     | Some (k, rest) =>
                         match parseJson f PValue rest with
                         | Some (v, rest') => parseJson f (PMembers [(k, v)]) rest'
                         | None => None
                         end
                     | None => None
                     end
            | EmptyString => None
            end
          else if byte c =? 91 then
            match skipWs r with
            | String c2 r2 =>
                if byte c2 =? 93 then Some (VArr [], r2)
                else match parseJson f PValue r with
                     | Some (v, rest') => parseJson f (PElements [v]) rest'
                     | None => None
                     end
            | EmptyString => None
            end
          else if byte c =? 34 then
            match readString r with
            | Some (t, rest) => Some (VStr t, rest)
            | None => None
            end
          else if isPrefix "null" (String c r) then Some (VNull, dropChars 4 (String c r))
          else if isPrefix "true" (String c r) then Some (VBool true, dropChars 4 (String c r))
          else if isPrefix "false" (String c r) then Some (VBool false, dropChars 5 (String c r))
          else readNumber (String c r)
      | PElements acc, String c r =>
          if byte c =? 93 then Some (VArr acc, r)
          else if byte c =? 44 then
            match parseJson f PValue r with
            | Some (v, rest') => parseJson f (PElements (acc ++ [v])) rest'
            | None => None
            end
          else None
      | PMembers acc, String c r =>
          if byte c =? 125 then Some (VObj acc, r)
          else if byte c =? 44 then
            match readKey r with
            | Some (k, rest) =>
                match parseJson f PValue rest with
                | Some (v, rest') => parseJson f (PMembers (setField acc k v)) rest'
                | None => None
                end
            | None => None
            end
          else None
      | _, EmptyString => None
      end
  end.

Definition parseStd (s : string) : option value :=
  match parseJson (4 * String.length s + 4) PValue s with
  | Some (v, rest) =>
      match skipWs rest with
      | EmptyString => Some v
      | _ => None
      end
  | None => None
  end.

Definition std_runtime : Runtime :=
  {| lowerNonAscii := lowerStd;
     parseFloat := parseFloatStd;
     numberOther := numberStd;
     JSON_parse := parseStd;
     JSON_stringify := stringifyStd;
     typeErrorMessage := "Cannot read properties of null";
     syntaxErrorMessage := "Unexpected token in JSON" |}.


(** ** The armor class in the words of the specification *)

Section ArmorSpec.
Context {R : Runtime}.

Inductive ArmorKind : Type := Heavy | Medium | Light.

(** What an inventory entry is to the armor-class rule. *)
Inductive Gear : Type :=
| NoGear
| ShieldGear (bonus : jsnum)
| ArmorGear (declaredAc : jsnum) (kind : ArmorKind).

(** The declared type: heavy, medium, or anything else (light or
    unspecified). *)
Definition armorKindOf (type : string) : ArmorKind :=
  if includes type "heavy" || includes type "тяжел" then Heavy
  else if includes type "medium" || includes type "средн" then Medium
  else Light.

(** The kind an annotation declares: the one its [type] names, light
    when it names none; [None] when the [type] is something else than
    text. *)
Definition declaredKind (stats : value) : option ArmorKind :=
  match prop stats "type" with
  | VStr t => Some (armorKindOf (toLowerCase t))
  | t => if truthy t then None else Some Light
  end.

(** The number a declared value stands for: a number stands for itself,
    text for the integer it starts with, a truth value and an object for
    none; a list is read through its text form.  [None] is a value that
    cannot be read at all: an object with an own [toString] key, or a
    list without a text form. *)
Definition declaredNumber (v : value) : option jsnum :=
  match v with
  | VNum n => Some n
  | VStr s => Some (parseInt s)
  | VBool _ | VUndef | VNull => Some NaN
  | VObj fs => if hasKey "toString" fs then None else Some NaN
  | VArr _ =>
      match toStr v with
      | Ok text => Some (parseInt text)
      | Throw _ => None
      end
  end.

(** The bonus of a shield: the AC value its annotation declares, else
    the bonus it declares, else 2; a declaration that stands for no
    number, or for 0, counts as 2 as well. *)
Definition declaredBonus (stats : value) : option jsnum :=
  let declared :=
    if truthy (prop stats "ac") then Some (prop stats "ac")
    else if truthy (prop stats "bonus") then Some (prop stats "bonus")
    else None in
  match declared with
  | None => Some (NInt 2)
  | Some v =>
      match declaredNumber v with
      | Some (NInt z) => Some (NInt (if z =? 0 then 2 else z))
      | Some NaN => Some (NInt 2)
      | None => None
      end
  end.

(** An equipped shield with its bonus, an equipped armor with its declared
    AC value and type, or nothing; [None] when a declaration cannot be
    read. *)
Definition gearOf (item : InventoryItem) : option Gear :=
  if isEquipped item && isArmor item then
    if isShield item then option_map ShieldGear (declaredBonus (itemStats item))
    else if truthy (prop (itemStats item) "ac") then
      match declaredNumber (prop (itemStats item) "ac"),
            declaredKind (itemStats item) with
      | Some ac, Some kind => Some (ArmorGear ac kind)
      | _, _ => None
      end
    else Some NoGear
  else Some NoGear.

(** The gear of a whole inventory, when every declaration can be read. *)
Fixpoint allGear (inv : list InventoryItem) : option (list Gear) :=
  match inv with
  | [] => Some []
  | item :: r =>
      match gearOf item, allGear r with
      | Some g, Some gs => Some (g :: gs)
      | _, _ => None
      end
  end.

(** Base from the armor: none, heavy, medium, light or unspecified. *)
Definition specBase (dexMod : jsnum) (a : option (jsnum * ArmorKind)) : jsnum :=
  match a with
  | None => nadd (NInt 10) dexMod
  | Some (ac, Heavy) => ac
  | Some (ac, Medium) => nadd ac (nmin (NInt 2) dexMod)
  | Some (ac, Light) => nadd ac dexMod
  end.

(** Each equipped armor overrides the base: the last one stands. *)
Fixpoint lastArmor (seen : option (jsnum * ArmorKind)) (gear : list Gear)
  : option (jsnum * ArmorKind) :=
  match gear with
  | [] => seen
  | ArmorGear ac k :: r => lastArmor (Some (ac, k)) r
  | _ :: r => lastArmor seen r
  end.

(** Every equipped shield adds its bonus. *)
Fixpoint shieldSum (acc : jsnum) (gear : list Gear) : jsnum :=
  match gear with
  | [] => acc
  | ShieldGear b :: r => shieldSum (nadd acc b) r
  | _ :: r => shieldSum acc r
  end.

Definition specArmorClass (dex : jsnum) (gear : list Gear) : jsnum :=
  nadd (specBase (getModifier dex) (lastArmor None gear))
       (shieldSum (NInt 0) gear).

(** Neither [JSON.parse] nor the quote repair reads the annotation. *)
Definition unparseable (item : InventoryItem) : bool :=
  match JSON_parse (mechStr item), JSON_parse (doubleQuotes (mechStr item)) with
  | None, None => true
  | _, _ => false
  end.

End ArmorSpec.

Definition rmap {A B : Type} (f : A -> B) (r : result A) : result B :=
  match r with
  | Ok a => Ok (f a)
  | Throw e => Throw e
  end.

(** Both death-save counters lie in [0, 3]. *)
Definition inRange (n : jsnum) : bool :=
  match n with
  | NInt z => (0 <=? z) && (z <=? 3)
  | NaN => false
  end.

Definition deathSavesInRange (c : Character) : bool :=
  match c_deathSaves c with
  | Some ds => inRange (successes ds) && inRange (failures ds)
  | None => true
  end.

(** The effect of one loop iteration, read off the entry's gear. *)
Definition stepGear (dexMod : jsnum) (st : AcState) (g : Gear) : AcState :=
  match g with
  | NoGear => st
  | ShieldGear b =>
      {| baseAc := baseAc st; shieldBonus := nadd (shieldBonus st) b;
         hasArmor := hasArmor st |}
  | ArmorGear ac k =>
      {| baseAc := specBase dexMod (Some (ac, k));
         shieldBonus := shieldBonus st; hasArmor := true |}
  end.

(** The state with [b] more shield bonus. *)
Definition bump (st : AcState) (b : jsnum) : AcState :=
  {| baseAc := baseAc st; shieldBonus := nadd (shieldBonus st) b;
     hasArmor := hasArmor st |}.

(** ** Sample data *)

(** The placeholder character with a DEX score and an inventory. *)
Definition sampleChar (dex : jsnum) (inv : list InventoryItem) : Character :=
  {| c_name := "Aria"; c_race := "Elf"; c_class := "Ranger";
     c_level := Some (NInt 1); c_xp := Some (NInt 0);
     c_hp := NInt 10; c_maxHp := NInt 10; c_ac := Some (NInt 10);
     c_attributes := mkAttributes (NInt 10) dex (NInt 10)
                                  (NInt 10) (NInt 10) (NInt 10);
     c_inventory := inv; c_skills := []; c_savingThrows := [];
     c_features := []; c_conditions := [];
     c_gold := NInt 0;
     c_hitDice := mkHitDice (NInt 1) (NInt 1) "1d8";
     c_spellSlots := [];
     c_deathSaves := Some (mkDeathSaves (NInt 0) (NInt 0)) |}.

Definition equippedArmor (name : string) (mechanics : value) : InventoryItem :=
  {| i_name := name; i_type := armor; i_description := None;
     i_mechanics := Some mechanics; i_quantity := NInt 1;
     i_equipped := Some true |}.

Definition plate : InventoryItem :=
  equippedArmor "Plate Armor"
    (VObj [("ac", VNum (NInt 16)); ("type", VStr "heavy")]).

Definition breastplate : InventoryItem :=
  equippedArmor "Breastplate"
    (VObj [("ac", VNum (NInt 14)); ("type", VStr "medium")]).

Definition leather : InventoryItem :=
  equippedArmor "Leather Armor" (VObj [("ac", VNum (NInt 11))]).

Definition roundShield : InventoryItem :=
  equippedArmor "Round Shield" (VObj [("bonus", VNum (NInt 2))]).

(** A shield whose annotation is free text. *)
Definition woodenShield : InventoryItem :=
  equippedArmor "Wooden Shield" (VStr "+2 AC while held").

Definition sampleState (p : GamePhase) (c : option Character) : GameState :=
  {| phase := p; world := None; character := c; history := [];
     currentOptions := []; pendingCheck := None; levelUpChoices := None |}.

(** The leather armor lying in the pack. *)
Definition leatherInPack : InventoryItem := setEquipped leather (Some false).


(** The number of requests in a trace, and its waits in order. *)
Definition requests (trace : list Event) : nat :=
  length (List.filter (fun ev => match ev with Request => true | _ => false end)
                      trace).

Definition sleeps (trace : list Event) : list Z :=
  omap (fun ev => match ev with Sleep ms => Some ms | _ => None end) trace.

(** A service that is rate limited once and then answers. *)
Definition limitedOnce : service :=
  fun i => match i with
           | O => Failure (Error "429 Too Many Requests")
           | _ => Reply (Some "{}")
           end.

(** A service that always answers with the given text. *)
Definition answering (text : string) : service := fun _ => Reply (Some text).

(** A payload whose inventory holds a [null]. *)
Definition nullItemPayload : value :=
  VObj [("characterUpdate", VObj [("inventory", VArr [VNull])])].

(** [{characterUpdate: {inventory: [{name: "Longbow"}]}}] *)
Definition longbowPayload : value :=
  VObj [("characterUpdate",
         VObj [("inventory", VArr [VObj [("name", VStr "Longbow")]])])].

Definition longbow : InventoryItem :=
  {| i_name := "Longbow"; i_type := misc; i_description := None;
     i_mechanics := Some VUndef; i_quantity := NInt 1;
     i_equipped := Some false |}.

(** A death saving throw against difficulty [dc]. *)
Definition deathCheck (dc : jsnum) : CheckRequest :=
  {| k_attribute := "con"; k_difficulty := dc; k_dice := "1d20";
     k_reason := Some "Death Save";
     k_successRisk := Some "Success"; k_failRisk := "Failure";
     k_isAttack := false; k_isSave := true; k_damageDice := None |}.

(** A character at 0 hit points with the given death-save counters. *)
Definition dyingChar (s f : jsnum) : Character :=
  setVitals (sampleChar (NInt 14) []) (NInt 0) (Some (mkDeathSaves s f)).

Definition dyingState (dc s f : jsnum) : GameState :=
  {| phase := gameplay; world := None;
     character := Some (dyingChar s f); history := [];
     currentOptions := []; pendingCheck := Some (deathCheck dc);
     levelUpChoices := None |}.

(** Every draw of [Math.random] is [q]. *)
Definition always (q : Q) : rng := fun _ => q.

(** The response text
    [{'characterUpdate': {'deathSaves': {'successes': 0, 'failures': 7}}}]
    with double quotes. *)
Definition sevenFailures : string :=
  doubleQuotes
    "{'characterUpdate': {'deathSaves': {'successes': 0, 'failures': 7}}}".

(** The text [NdF+K] and the text [NdF] of a dice expression. *)
Definition diceText (n f k : Z) : string :=
  String.append (digitsOf n)
    (String "d" (String.append (digitsOf f) (String "+" (digitsOf k)))).

Definition diceTextPlain (n f : Z) : string :=
  String.append (digitsOf n) (String "d" (digitsOf f)).

(** The characters of such a text. *)
Definition diceChar (c : ascii) : bool :=
  isDigit c || Ascii.eqb c "d" || Ascii.eqb c "+".

(** A payload that restates the plate armor without an [equipped] key. *)
Definition plateRestated : value :=
  VObj [("characterUpdate",
         VObj [("inventory",
                VArr [VObj [("name", VStr "plate armor");
                            ("type", VStr "armor");
                            ("mechanics",
                             VObj [("ac", VNum (NInt 16));
                                   ("type", VStr "heavy")])]])])].

(** An armor whose declared type is a number. *)
Definition oddArmor : InventoryItem :=
  equippedArmor "Scale Mail"
    (VObj [("ac", VNum (NInt 14)); ("type", VNum (NInt 5))]).

(** The same armor lying in the pack, as the normalizer stores the entry
    [{name: 'Scale Mail', type: 'armor', mechanics: {ac: 14, type: 5},
      equipped: false}] of an update. *)
Definition oddArmorInPack : InventoryItem := setEquipped oddArmor (Some false).

Definition oddArmorEntry (equipped : bool) : value :=
  VObj [("name", VStr "Scale Mail"); ("type", VStr "armor");
        ("mechanics", VObj [("ac", VNum (NInt 14)); ("type", VNum (NInt 5))]);
        ("equipped", VBool equipped)].

(** A session in plate armor and shield, armor class 18, with that armor
    in the pack. *)
Definition packedChar : Character :=
  setInventoryAc (sampleChar (NInt 14) []) [plate; oddArmorInPack; roundShield]
                 (Some (NInt 18)).

Definition packedSession : GameState := sampleState gameplay (Some packedChar).

(** ** Rests ([gameRules.ts]) *)

Record RestResult : Type := mkRestResult {
  rest_character : Character;
  healedAmount : jsnum;
  hitDiceSpent : jsnum;
  summary : string;
  success : bool
}.

Definition restoreSlot (s : SpellSlot) : SpellSlot :=
  {| ss_current := ss_max s; ss_max := ss_max s |}.

(** [{...char, hp, hitDice: {...char.hitDice, current}, spellSlots,
      deathSaves, conditions}] *)
Definition setRested (c : Character) (hp current : jsnum)
  (slots : list (string * SpellSlot)) (ds : option DeathSaves)
  (conditions : list string) : Character :=
  {| c_name := c_name c; c_race := c_race c; c_class := c_class c;
     c_level := c_level c; c_xp := c_xp c;
     c_hp := hp; c_maxHp := c_maxHp c; c_ac := c_ac c;
     c_attributes := c_attributes c;
     c_inventory := c_inventory c;
     c_skills := c_skills c; c_savingThrows := c_savingThrows c;
     c_features := c_features c; c_conditions := conditions;
     c_gold := c_gold c;
     c_hitDice := {| hd_current := current;
                     hd_max := hd_max (c_hitDice c);
                     hd_face := hd_face (c_hitDice c) |};
     c_spellSlots := slots; c_deathSaves := ds |}.

Definition performLongRest (char : Character) : RestResult :=
  let newHp := c_maxHp char in
  let recoveredDice := nmax (NInt 1) (floorDiv (hd_max (c_hitDice char)) 2) in
  let newHitDiceCurrent :=
    nmin (hd_max (c_hitDice char))
         (nadd (hd_current (c_hitDice char)) recoveredDice) in
  let newSpellSlots :=
    List.map (fun '(lvl, slot) => (lvl, restoreSlot slot)) (c_spellSlots char) in
  let newDeathSaves := mkDeathSaves (NInt 0) (NInt 0) in
  {| rest_character := setRested char newHp newHitDiceCurrent newSpellSlots
                                 (Some newDeathSaves) [];
     healedAmount := nsub (c_maxHp char) (c_hp char);
     hitDiceSpent := NInt 0;
     summary := cat ["HP восстановлены ("; numToString newHp; "/";
                     numToString newHp; "). Hit Dice: ";
                     numToString newHitDiceCurrent; "/";
                     numToString (hd_max (c_hitDice char));
                     ". Ячейки магии обновлены."];
     success := true |}.

(** [s.replace(pat, '')] for a literal, non-empty [pat]: the first
    occurrence goes. *)
Fixpoint removeFirst (pat s : string) : string :=
  if isPrefix pat s then dropChars (String.length pat) s
  else match s with
       | EmptyString => EmptyString
       | String c r => String c (removeFirst pat r)
       end.

(** [Math.floor(Math.random() * dieFace) + 1] *)
Definition rollFace (dieFace : jsnum) (u : Q) : jsnum :=
  match dieFace with
  | NInt f => NInt (rollDie f u)
  | NaN => NaN
  end.

Section Rests.
Context {R : Runtime}.

(** A rest that is refused: nothing is rolled. *)
Definition refusedRest (char : Character) (why : string) : RestResult :=
  {| rest_character := char; healedAmount := NInt 0; hitDiceSpent := NInt 0;
     summary := why; success := false |}.

Definition performShortRest (char : Character) (rnd : rng) : RestResult * rng :=
  if nge (c_hp char) (c_maxHp char)
  then (refusedRest char "Здоровье уже полное.", rnd)
  else if nge (NInt 0) (hd_current (c_hitDice char))
  then (refusedRest char "Нет костей хитов (Hit Dice) для отдыха.", rnd)
  else
    let dieFace :=
      nor (parseInt (removeFirst "1d" (hd_face (c_hitDice char)))) (NInt 8) in
    let roll := rollFace dieFace (rnd 0%nat) in
    let conMod := getModifier (a_con (c_attributes char)) in
    let heal := nmax (NInt 0) (nadd roll conMod) in
    let newHp := nmin (c_maxHp char) (nadd (c_hp char) heal) in
    let newHitDiceCurrent := nsub (hd_current (c_hitDice char)) (NInt 1) in
    ({| rest_character :=
          setRested char newHp newHitDiceCurrent (c_spellSlots char)
                    (c_deathSaves char) (c_conditions char);
        healedAmount := heal;
        hitDiceSpent := NInt 1;
        summary := cat ["Потрачен 1 Hit Die. Восстановлено ";
                        numToString heal; " HP ("; numToString roll; " + ";
                        numToString conMod; " CON). Осталось Hit Dice: ";
                        numToString newHitDiceCurrent; "."];
        success := true |},
     advance rnd).

(** *** [handleRest], [handleAction] and the request context of [callAI] *)

Inductive RestType : Type := short | long.

Inductive RestOutcome : Type :=
| NoCharacter
| Rested (newState : GameState) (followUp : option string).

Definition systemEntry (now : Z) (text : string) : LogEntry :=
  {| e_id := numToString (NInt now); e_role := system; e_text := text;
     e_timestamp := now; e_meta := None |}.

(** [{...state, history: newHistory, character}] *)
Definition setHistoryCharacter (s : GameState) (h : list LogEntry)
  (c : option Character) : GameState :=
  {| phase := phase s; world := world s; character := c;
     history := h; currentOptions := currentOptions s;
     pendingCheck := pendingCheck s; levelUpChoices := levelUpChoices s |}.

(** [followUp] is the prompt [callAI] is started with; the history it is
    given is the one of [newState]. *)
Definition handleRest (type : RestType) (state : GameState) (now : Z)
  (rnd : rng) : RestOutcome * rng :=
  match character state with
  | None => (NoCharacter, rnd)
  | Some char =>
      let '(result, rnd') :=
        match type with
        | long => (performLongRest char, rnd)
        | short => performShortRest char rnd
        end in
      let logText := String.append "[SYSTEM]: " (summary result) in
      let newHistory := history state ++ [systemEntry now logText] in
      let newState :=
        setHistoryCharacter state newHistory (Some (rest_character result)) in
      (Rested newState
         (if success result then
            Some match type with
                 | long => "Прошел Длинный Отдых. Опиши спокойное утро, смену погоды и готовность героя к пути. Не меняй статы, они уже обновлены."
                 | short => cat ["Герой сделал передышку. Восстановил ";
                                 numToString (healedAmount result);
                                 " HP. Опиши краткий привал."]
                 end
          else None),
       rnd')
  end.

Definition userEntry (now : Z) (text : string) : LogEntry :=
  {| e_id := numToString (NInt now); e_role := user; e_text := text;
     e_timestamp := now; e_meta := None |}.

(** [handleAction]: [None] when the text is blank; otherwise the state
    that is saved at once, whose history is the one given to [callAI],
    and what that call makes of it.  [state] is the state of the render,
    [current] and [latest] are [stateRef.current] when the call starts and
    when the service has answered, [now] and [later] the clock at the
    two moments. *)
Definition handleAction (hasApiKey : bool) (text : string)
  (state current latest : GameState) (now later : Z) (svc : service)
  : option (GameState * (Outcome * list Event)) :=
  if String.eqb (trim text) "" then None
  else
    let newHistory := history state ++ [userEntry now text] in
    let tempState := setHistoryCharacter state newHistory (character state) in
    Some (tempState,
          callAI hasApiKey current latest later false (Some newHistory) svc).

(** One turn of the request's [contents]. *)
Record ContextTurn : Type := mkContextTurn {
  t_role : Role;
  t_text : string
}.

(** [l.slice(-n)] *)
Definition sliceLast {A : Type} (n : nat) (l : list A) : list A :=
  List.skipn (length l - n) l.

Definition isChatEntry (h : LogEntry) : bool :=
  match e_role h with
  | roll_result | system => false
  | _ => true
  end.

(** [historyContext] of [callAI]. *)
Definition historyContext (currentState : GameState)
  (injectedHistory : option (list LogEntry)) : list ContextTurn :=
  let historySource := pick injectedHistory (history currentState) in
  List.map (fun h => {| t_role := match e_role h with
                                  | model => model
                                  | _ => user
                                  end;
                        t_text := someOr (Some (e_text h)) " " |})
           (sliceLast 15 (List.filter isChatEntry historySource)).

End Rests.

(** ** Predicates of the properties below *)

(** [null] and [undefined]: the values a property read throws on. *)
Definition isNullish (v : value) : bool :=
  match v with VUndef | VNull => true | _ => false end.

(** The values [String] throws on: an object with an own [toString]
    key, which is no function in the data of a response, and an array
    that holds such a value at some depth. *)
Fixpoint hidesToString (v : value) : bool :=
  match v with
  | VObj fs => hasKey "toString" fs
  | VArr l =>
      (fix any (l : list value) : bool :=
         match l with
         | [] => false
         | e :: r => hidesToString e || any r
         end) l
  | _ => false
  end.

(** The elements [normalizeInventory] throws on: [null], [undefined],
    and an element whose name or description has no text form. *)
Definition badItem (v : value) : bool :=
  isNullish v || hidesToString (prop v "name")
  || hidesToString (prop v "description").

Definition numeric (n : jsnum) : bool := negb (isNaN n).

(** An entry as [normalizeInventory] leaves it: a quantity that is a
    number other than 0, and the [mechanics] and [equipped] keys present. *)
Definition normalItem (i : InventoryItem) : bool :=
  numeric (i_quantity i) && negb (numEq (i_quantity i) (NInt 0))
  && match i_mechanics i, i_equipped i with
     | Some _, Some _ => true
     | _, _ => false
     end.

Definition numericAttributes (a : Attributes) : bool :=
  numeric (a_str a) && numeric (a_dex a) && numeric (a_con a)
  && numeric (a_int a) && numeric (a_wis a) && numeric (a_cha a).

(** At least [k], as a number. *)
Definition atLeast (k : Z) (n : jsnum) : bool := nge n (NInt k).

(** The entries the armor class reads: equipped and of type armor. *)
Definition wornArmor (i : InventoryItem) : bool := isEquipped i && isArmor i.

(** A wounded character: [hp] of 10 hit points, [dice] hit dice left of 3,
    hit die [face], and a constitution score. *)
Definition woundedChar (hp dice con : Z) (face : string) : Character :=
  {| c_name := "Aria"; c_race := "Elf"; c_class := "Ranger";
     c_level := Some (NInt 3); c_xp := Some (NInt 900);
     c_hp := NInt hp; c_maxHp := NInt 10; c_ac := Some (NInt 10);
     c_attributes := mkAttributes (NInt 10) (NInt 10) (NInt con)
                                  (NInt 10) (NInt 10) (NInt 10);
     c_inventory := []; c_skills := []; c_savingThrows := [];
     c_features := []; c_conditions := ["poisoned"];
     c_gold := NInt 0;
     c_hitDice := mkHitDice (NInt dice) (NInt 3) face;
     c_spellSlots := [("1", mkSpellSlot (Some (NInt 0)) (Some (NInt 2)))];
     c_deathSaves := Some (mkDeathSaves (NInt 1) (NInt 2)) |}.

(** A character update that carries nothing. *)
Definition emptyUpdate : CharacterUpdate :=
  {| u_name := None; u_race := None; u_class := None;
     u_hp := None; u_maxHp := None; u_ac := None; u_gold := None;
     u_level := None; u_xp := None; u_attributes := None;
     u_inventory := None; u_conditions := None; u_skills := None;
     u_savingThrows := None; u_features := None; u_hitDice := None;
     u_deathSaves := None; u_spellSlots := None |}.

(** A response whose update lowers the hit points to 6, raises the
    experience to 320 and proposes an armor class of 30. *)
Definition woundResponse : AIResponse :=
  {| r_narrative := "The goblin strikes.";
     r_options := [];
     r_characterUpdate :=
       Some {| u_name := None; u_race := None; u_class := None;
               u_hp := Some (NInt 6); u_maxHp := None;
               u_ac := Some (Some (NInt 30)); u_gold := None;
               u_level := None; u_xp := Some (Some (NInt 320));
               u_attributes := None;
               u_inventory := None; u_conditions := None; u_skills := None;
               u_savingThrows := None; u_features := None; u_hitDice := None;
               u_deathSaves := None; u_spellSlots := None |};
     r_worldUpdate := None;
     r_isGameOver := true;
     r_isLevelUp := false;
     r_levelUpOptions := None;
     r_validationError := None;
     r_check := None |}.

(** The session of a first-level character in plate armor. *)
Definition plateSession : GameState :=
  sampleState gameplay (Some (sampleChar (NInt 14) [plate])).

(** A quiver that is not named by the updates below. *)
Definition quiver : InventoryItem :=
  {| i_name := "Quiver"; i_type := misc; i_description := None;
     i_mechanics := Some VUndef; i_quantity := NInt 1;
     i_equipped := Some false |}.

(** An inventory entry without its [equipped] flag. *)
Definition unflagged (i : InventoryItem) : InventoryItem := setEquipped i None.

(** The character without inventory and armor class. *)
Definition bare (c : Character) : Character := setInventoryAc c [] None.

(** An attack against armor class [dc], pending in a gameplay session. *)
Definition attackCheck (dc : jsnum) : CheckRequest :=
  {| k_attribute := "str"; k_difficulty := dc; k_dice := "1d20";
     k_reason := Some "Sword attack";
     k_successRisk := Some "Hit"; k_failRisk := "Miss";
     k_isAttack := true; k_isSave := false; k_damageDice := Some "1d8" |}.

Definition attackState (dc : jsnum) : GameState :=
  {| phase := gameplay; world := None;
     character := Some (sampleChar (NInt 14) [plate]); history := [];
     currentOptions := []; pendingCheck := Some (attackCheck dc);
     levelUpChoices := None |}.

(** A payload that reports a validation error next to an update. *)
Definition rejectedPayload : value :=
  VObj [("narrative", VStr "You cannot do that.");
        ("validationError", VStr "No such item in the inventory.");
        ("characterUpdate", VObj [("hp", VNum (NInt 1))])].

(** A log of [n] exchanges: the player's text, a roll, the narrator. *)
Fixpoint chatter (n : nat) : list LogEntry :=
  match n with
  | O => []
  | S k => {| e_id := "u"; e_role := user; e_text := "Attack";
              e_timestamp := 0; e_meta := None |}
           :: {| e_id := "r"; e_role := roll_result; e_text := "УСПЕХ";
                 e_timestamp := 0; e_meta := None |}
           :: {| e_id := "m"; e_role := model; e_text := "";
                 e_timestamp := 0; e_meta := None |}
           :: chatter k
  end.

(** The draws 1/2, 1/3, 1/4, ... *)
Definition waning : rng := fun i => 1 # Pos.of_succ_nat (S i).

(** The character [c] does not occur. *)
Definition without (c : ascii) (s : string) : bool :=
  allChars (fun x => negb (Ascii.eqb x c)) s.

(** The two passes that strip the code fences. *)
Definition stripFences (s : string) : string :=
  removeAll "```" (removeAll "```json" s).

(** * Properties *)

(** Inversion of a chain of binds that returns: every bound computation
    returned. *)
Ltac bind_inv H :=
  repeat match type of H with
         | bind ?r _ = Ok _ =>
             let E := fresh "E" in
             destruct r eqn:E; cbn [bind] in H; [| discriminate H]
         end.

(** ** Decimal numerals *)

Lemma digit_cases (d : Z) :
  0 <= d < 10 ->
  d = 0 \/ d = 1 \/ d = 2 \/ d = 3 \/ d = 4 \/ d = 5 \/ d = 6 \/ d = 7
  \/ d = 8 \/ d = 9.
Proof. lia. Qed.

Lemma digitChar_isDigit (d : Z) :
  0 <= d < 10 -> isDigit (digitChar d) = true /\ digitVal (digitChar d) = d.
Proof.
  intros H.
  destruct (digit_cases d H) as [-> | [-> | [-> | [-> | [-> | [-> | [-> | [-> | [-> | ->]]]]]]]]];
    split; reflexivity.
Qed.

Lemma readDec_digitsFuel (fuel : nat) :
  forall n acc, 0 <= n < 2 ^ Z.of_nat fuel ->
  readDec 0 (digitsFuel fuel n acc) = readDec n acc.
Proof.
  induction fuel as [| f IH]; intros n acc Hn.
  - simpl in *. assert (n = 0) by lia. subst. reflexivity.
  - cbn [digitsFuel].
    assert (Hd : 0 <= n mod 10 < 10) by (apply Z.mod_pos_bound; lia).
    destruct (digitChar_isDigit _ Hd) as [Hdig Hval].
    assert (Hstep : forall a, readDec a (String (digitChar (n mod 10)) acc)
                              = readDec (10 * a + n mod 10) acc).
    { intros a. cbn [readDec]. rewrite Hdig, Hval. reflexivity. }
    destruct (n <? 10) eqn:Hlt.
    + apply Z.ltb_lt in Hlt. rewrite Hstep.
      rewrite Z.mod_small by lia. f_equal; lia.
    + apply Z.ltb_ge in Hlt. rewrite IH.
      * rewrite Hstep. f_equal.
        pose proof (Z.div_mod n 10 ltac:(lia)). lia.
      * rewrite Nat2Z.inj_succ, Z.pow_succ_r in Hn by lia.
        split; [apply Z.div_pos; lia |].
        apply Z.div_lt_upper_bound; lia.
Qed.

Lemma readDec_digitsOf (n : Z) : 0 <= n -> readDec 0 (digitsOf n) = n.
Proof.
  intros Hn. unfold digitsOf. rewrite readDec_digitsFuel; [reflexivity |].
  split; [assumption |].
  rewrite Nat2Z.inj_succ, Z2Nat.id by apply Z.log2_nonneg.
  destruct (Z.eq_dec n 0) as [-> | Hz]; [reflexivity |].
  apply Z.log2_spec. lia.
Qed.

Lemma allDigits_digitsFuel (fuel : nat) :
  forall n acc, 0 <= n -> allChars isDigit acc = true ->
  allChars isDigit (digitsFuel fuel n acc) = true.
Proof.
  induction fuel as [| f IH]; intros n acc Hn Hacc; cbn [digitsFuel].
  - assumption.
  - assert (Hd : 0 <= n mod 10 < 10) by (apply Z.mod_pos_bound; lia).
    destruct (digitChar_isDigit _ Hd) as [Hdig _].
    assert (Hacc' : allChars isDigit (String (digitChar (n mod 10)) acc) = true).
    { cbn [allChars]. rewrite Hdig, Hacc. reflexivity. }
    destruct (n <? 10); [assumption |].
    apply IH; [apply Z.div_pos; lia | assumption].
Qed.

Lemma digitsFuel_cons (fuel : nat) :
  forall n acc c r, acc = String c r ->
  exists c' r', digitsFuel fuel n acc = String c' r'.
Proof.
  induction fuel as [| f IH]; intros n acc c r Hacc; cbn [digitsFuel].
  - eauto.
  - destruct (n <? 10); [eauto |]. eapply IH. reflexivity.
Qed.

Lemma digitsOf_cons (n : Z) :
  0 <= n ->
  exists c r, digitsOf n = String c r /\ allChars isDigit (String c r) = true.
Proof.
  intros Hn. unfold digitsOf.
  assert (Hall : allChars isDigit
                   (digitsFuel (S (Z.to_nat (Z.log2 n))) n EmptyString) = true)
    by (apply allDigits_digitsFuel; [assumption | reflexivity]).
  revert Hall. cbn [digitsFuel].
  destruct (n <? 10).
  - intros Hall. eauto.
  - destruct (digitsFuel_cons (Z.to_nat (Z.log2 n)) (n / 10)
                (String (digitChar (n mod 10)) EmptyString) _ _ eq_refl)
      as (c & r & ->).
    intros Hall. eauto.
Qed.

Lemma digit_not_ws (c : ascii) (r : string) :
  isDigit c = true -> wsLen (String c r) = 0%nat.
Proof.
  destruct c as [[] [] [] [] [] [] [] []]; try discriminate; intros _;
    destruct r as [| c2 [| c3 r3]]; reflexivity.
Qed.

Lemma trimStart_digit (c : ascii) (r : string) :
  isDigit c = true -> trimStart (String c r) = String c r.
Proof.
  intros H. unfold trimStart. cbn [String.length trimStartFuel].
  rewrite (digit_not_ws _ _ H). reflexivity.
Qed.

Lemma parseIntDigits_digits (c : ascii) (r : string) :
  allChars isDigit (String c r) = true ->
  parseIntDigits (String c r) = NInt (readDec 0 (String c r)).
Proof.
  cbn [allChars]. intros H. apply andb_true_iff in H as [Hc Hr].
  destruct c as [[] [] [] [] [] [] [] []]; try discriminate;
    try (unfold parseIntDigits; rewrite Hc; reflexivity).
  destruct r as [| x r']; [reflexivity |].
  cbn [allChars] in Hr. apply andb_true_iff in Hr as [Hx _].
  destruct x as [[] [] [] [] [] [] [] []]; try discriminate; reflexivity.
Qed.

Lemma parseInt_digits (c : ascii) (r : string) :
  allChars isDigit (String c r) = true ->
  parseInt (String c r) = NInt (readDec 0 (String c r)).
Proof.
  intros H. unfold parseInt.
  assert (Hc : isDigit c = true)
    by (cbn [allChars] in H; apply andb_true_iff in H; tauto).
  rewrite (trimStart_digit _ _ Hc).
  rewrite <- (parseIntDigits_digits _ _ H).
  destruct c as [[] [] [] [] [] [] [] []]; try discriminate; reflexivity.
Qed.

(** [parseInt(String(z))] is [z]. *)
Lemma parseInt_numToString (z : Z) : parseInt (numToString (NInt z)) = NInt z.
Proof.
  unfold numToString. destruct (z <? 0) eqn:Hz.
  - apply Z.ltb_lt in Hz.
    destruct (digitsOf_cons (- z) ltac:(lia)) as (c & r & Heq & Hall).
    pose proof (readDec_digitsOf (- z) ltac:(lia)) as Hread.
    rewrite Heq in *.
    assert (Hc : isDigit c = true)
      by (cbn [allChars] in Hall; apply andb_true_iff in Hall; tauto).
    unfold parseInt.
    assert (Ht : trimStart (String "-" (String c r)) = String "-" (String c r)).
    { unfold trimStart. cbn [String.length trimStartFuel].
      destruct c as [[] [] [] [] [] [] [] []]; try discriminate;
        destruct r as [| c3 r3]; reflexivity. }
    rewrite Ht. rewrite (parseIntDigits_digits _ _ Hall), Hread.
    simpl. f_equal. lia.
  - apply Z.ltb_ge in Hz.
    destruct (digitsOf_cons z Hz) as (c & r & Heq & Hall).
    pose proof (readDec_digitsOf z Hz) as Hread.
    rewrite Heq in *. rewrite (parseInt_digits _ _ Hall), Hread. reflexivity.
Qed.

(** ** Text forms *)

(** Induction on values, through the lists they nest. *)
Lemma value_nested_ind (P : value -> Prop) :
  P VUndef -> P VNull -> (forall b, P (VBool b)) -> (forall n, P (VNum n)) ->
  (forall s, P (VStr s)) ->
  (forall l, Forall P l -> P (VArr l)) ->
  (forall fs, Forall (fun kv => P (snd kv)) fs -> P (VObj fs)) ->
  forall v, P v.
Proof.
  intros Hu Hn Hb Hnum Hs Harr Hobj.
  fix IH 1.
  intros [| | b | n | s | l | fs];
    [exact Hu | exact Hn | apply Hb | apply Hnum | apply Hs | |].
  - apply Harr. induction l as [| e l IHl]; constructor; [apply IH | exact IHl].
  - apply Hobj. induction fs as [| kv fs IHfs]; constructor;
      [apply IH | exact IHfs].
Qed.

(** The text of an array is the join of the texts of its elements. *)
Lemma toStr_array (l : list value) :
  toStr (VArr l)
  = (let! parts := mapM (fun e => match e with
                                  | VUndef | VNull => Ok EmptyString
                                  | _ => toStr e
                                  end) l in
     Ok (join "," parts)).
Proof.
  cbn [toStr]. f_equal.
  induction l as [| e l IH]; [reflexivity |].
  cbn [mapM]. rewrite <- IH. reflexivity.
Qed.

(** [String] throws nothing but a TypeError. *)
Lemma toStr_TypeError (v : value) (e : exn) : toStr v = Throw e -> e = TypeError.
Proof.
  revert e. induction v as [| | b | n | s | l IH | fs _] using value_nested_ind;
    intros e; try discriminate.
  - destruct b; discriminate.
  - rewrite toStr_array.
    assert (Hl : forall e', mapM (fun x => match x with
                                           | VUndef | VNull => Ok EmptyString
                                           | _ => toStr x
                                           end) l = Throw e' -> e' = TypeError).
    { induction IH as [| x l Hx _ IHl]; intros e'; [discriminate |].
      cbn [mapM].
      destruct (match x with
                | VUndef | VNull => Ok EmptyString
                | _ => toStr x
                end) as [t |] eqn:Hxt; cbn [bind].
      - destruct (mapM _ l) as [ts |] eqn:Hts; cbn [bind]; [discriminate |].
        intros [= <-]. apply IHl. reflexivity.
      - intros [= <-]. destruct x; try discriminate; apply Hx, Hxt. }
    destruct (mapM _ l) as [ts |] eqn:Hts; cbn [bind]; [discriminate |].
    intros [= <-]. apply Hl. reflexivity.
  - cbn [toStr]. destruct (hasKey "toString" fs); [| discriminate].
    intros [= <-]. reflexivity.
Qed.

Lemma hidesToString_array (l : list value) :
  hidesToString (VArr l) = existsb hidesToString l.
Proof.
  cbn [hidesToString]. induction l as [| e l IH]; [reflexivity |].
  cbn [existsb]. rewrite <- IH. reflexivity.
Qed.

(** [String] throws exactly on the values that hide [toString]. *)
Lemma toStr_cases (v : value) :
  if hidesToString v then toStr v = Throw TypeError
  else exists text, toStr v = Ok text.
Proof.
  induction v as [| | b | n | s | l IH | fs _] using value_nested_ind;
    try (cbn; eauto; fail).
  - destruct b; cbn; eauto.
  - rewrite hidesToString_array, toStr_array.
    assert (Hl : if existsb hidesToString l
                 then mapM (fun x => match x with
                                     | VUndef | VNull => Ok EmptyString
                                     | _ => toStr x
                                     end) l = Throw TypeError
                 else exists ts, mapM (fun x => match x with
                                                | VUndef | VNull => Ok EmptyString
                                                | _ => toStr x
                                                end) l = Ok ts).
    { induction IH as [| x l Hx _ IHl]; [cbn; eauto |].
      cbn [existsb mapM].
      destruct (hidesToString x) eqn:Hh; cbn [orb].
      - destruct x; try discriminate Hh; rewrite Hx; reflexivity.
      - assert (Hok : exists t, match x with
                                | VUndef | VNull => Ok EmptyString
                                | _ => toStr x
                                end = Ok t)
          by (destruct x; eauto).
        destruct Hok as (t & ->). cbn [bind].
        destruct (existsb hidesToString l).
        + rewrite IHl. reflexivity.
        + destruct IHl as (ts & ->). cbn [bind]. eauto. }
    destruct (existsb hidesToString l).
    + rewrite Hl. reflexivity.
    + destruct Hl as (ts & ->). cbn [bind]. eauto.
  - cbn [hidesToString toStr]. destruct (hasKey "toString" fs); eauto.
Qed.

Section TextFacts.
Context {R : Runtime}.

Lemma coerceString_TypeError (v : value) (d : string) (e : exn) :
  coerceString v d = Throw e -> e = TypeError.
Proof.
  destruct v; try discriminate; apply toStr_TypeError.
Qed.

Lemma coerceString_cases (v : value) (d : string) :
  if hidesToString v then coerceString v d = Throw TypeError
  else exists text, coerceString v d = Ok text.
Proof.
  pose proof (toStr_cases v) as H.
  destruct v; try exact H; cbn; eauto.
Qed.

Lemma truthyText_TypeError (v : value) (e : exn) :
  truthyText v = Throw e -> e = TypeError.
Proof.
  unfold truthyText. destruct (truthy v); [| discriminate].
  destruct (coerceString v "") eqn:E; cbn [bind]; [discriminate |].
  intros [= <-]. apply (coerceString_TypeError _ _ _ E).
Qed.

Lemma truthyText_cases (v : value) :
  if hidesToString v then truthyText v = Throw TypeError
  else exists text, truthyText v = Ok text.
Proof.
  pose proof (coerceString_cases v "") as H. unfold truthyText.
  destruct (truthy v) eqn:Ht.
  - destruct (hidesToString v).
    + rewrite H. reflexivity.
    + destruct H as (text & ->). cbn [bind]. eauto.
  - assert (Hh : hidesToString v = false)
      by (destruct v; try reflexivity; discriminate Ht).
    rewrite Hh. eauto.
Qed.

End TextFacts.

(** Inversion of a chain of binds that throws: one of the bound
    computations threw; [tac] closes the goal that remains for it. *)
Ltac bind_throw H tac :=
  repeat match type of H with
         | bind ?r _ = Throw _ =>
             let E := fresh "E" in
             destruct r eqn:E; cbn [bind] in H;
             [| injection H as <-; tac]
         end.

(** ** Armor class *)

Lemma lastArmor_seen (gear : list Gear) :
  forall seen, lastArmor seen gear
               = match lastArmor None gear with
                 | Some a => Some a
                 | None => seen
                 end.
Proof.
  induction gear as [| g gear IH]; intros seen; simpl.
  - reflexivity.
  - destruct g; try apply IH.
    rewrite (IH (Some (declaredAc, kind))).
    destruct (lastArmor None gear); reflexivity.
Qed.

Lemma fold_stepGear_base (dexMod : jsnum) (gear : list Gear) :
  forall st, baseAc (fold_left (stepGear dexMod) gear st)
             = match lastArmor None gear with
               | Some a => specBase dexMod (Some a)
               | None => baseAc st
               end.
Proof.
  induction gear as [| g gear IH]; intros st.
  - reflexivity.
  - cbn [fold_left]. rewrite IH.
    destruct g; cbn [stepGear lastArmor baseAc]; try reflexivity.
    rewrite (lastArmor_seen gear (Some _)).
    destruct (lastArmor None gear); reflexivity.
Qed.

Lemma fold_stepGear_shield (dexMod : jsnum) (gear : list Gear) :
  forall st, shieldBonus (fold_left (stepGear dexMod) gear st)
             = shieldSum (shieldBonus st) gear.
Proof.
  induction gear as [| g gear IH]; intros st; simpl.
  - reflexivity.
  - rewrite IH. destruct g; reflexivity.
Qed.

Lemma nadd_swap (a b c : jsnum) : nadd (nadd a b) c = nadd (nadd a c) b.
Proof. destruct a, b, c; simpl; f_equal; lia. Qed.

Lemma nadd_assoc (a b c : jsnum) : nadd a (nadd b c) = nadd (nadd a b) c.
Proof. destruct a, b, c; simpl; f_equal; lia. Qed.

Lemma shieldSum_acc (gear : list Gear) :
  forall acc b, shieldSum (nadd acc b) gear = nadd (shieldSum acc gear) b.
Proof.
  induction gear as [| g gear IH]; intros acc b; simpl; [reflexivity |].
  destruct g; try apply IH.
  rewrite (nadd_swap acc b bonus). apply IH.
Qed.

(** An equipped shield adds its bonus to whatever the rest of the
    inventory gives, in every armor branch. *)
Lemma specArmorClass_shield (dex bonus : jsnum) (pre post : list Gear) :
  specArmorClass dex (pre ++ ShieldGear bonus :: post)
  = nadd (specArmorClass dex (pre ++ post)) bonus.
Proof.
  unfold specArmorClass.
  assert (Hl : forall l seen, lastArmor seen (l ++ ShieldGear bonus :: post)
                              = lastArmor seen (l ++ post)).
  { induction l as [| g l IH]; intros seen; simpl; [reflexivity |].
    destruct g; apply IH. }
  assert (Hs : forall l acc, shieldSum acc (l ++ ShieldGear bonus :: post)
                             = nadd (shieldSum acc (l ++ post)) bonus).
  { induction l as [| g l IH]; intros acc; simpl.
    - apply shieldSum_acc.
    - destruct g; apply IH. }
  rewrite Hl, Hs. apply nadd_assoc.
Qed.

Lemma foldM_app {A B : Type} (f : A -> B -> result A) (l1 l2 : list B) :
  forall a, foldM f a (l1 ++ l2) = (let! a' := foldM f a l1 in foldM f a' l2).
Proof.
  induction l1 as [| b l1 IH]; intros a; simpl; [reflexivity |].
  destruct (f a b); simpl; [apply IH | reflexivity].
Qed.

Section ArmorClassFacts.
Context {R : Runtime}.

(** The number the code reads off a declared value, [parseInt] of its
    text, is the number the value stands for. *)
Lemma declaredNumber_text (v : value) :
  match toStr v with
  | Ok text => declaredNumber v = Some (parseInt text)
  | Throw e => e = TypeError /\ declaredNumber v = None
  end.
Proof.
  destruct v as [| | b | n | s | l | fs]; try reflexivity.
  - destruct b; reflexivity.
  - cbn [toStr declaredNumber]. destruct n as [z |]; [| reflexivity].
    rewrite parseInt_numToString. reflexivity.
  - cbn [declaredNumber]. destruct (toStr (VArr l)) eqn:H; [reflexivity |].
    split; [apply (toStr_TypeError _ _ H) | reflexivity].
  - cbn [declaredNumber toStr]. destruct (hasKey "toString" fs);
      [split; reflexivity | reflexivity].
Qed.

(** The bonus the code gives a shield is the bonus its annotation
    declares. *)
Lemma shieldBonusOf_declared (stats : value) :
  shieldBonusOf stats = match declaredBonus stats with
                        | Some bonus => Ok bonus
                        | None => Throw TypeError
                        end.
Proof.
  assert (Hread : forall v,
            (let! text := toStr v in Ok (nor (parseInt text) (NInt 2)))
            = match declaredNumber v with
              | Some (NInt z) => Ok (NInt (if z =? 0 then 2 else z))
              | Some NaN => Ok (NInt 2)
              | None => Throw TypeError
              end).
  { intros v. pose proof (declaredNumber_text v) as H.
    destruct (toStr v) as [text | e]; cbn [bind].
    - rewrite H. destruct (parseInt text) as [[| p | p] |]; reflexivity.
    - destruct H as [-> ->]. reflexivity. }
  unfold shieldBonusOf, declaredBonus, vor.
  destruct (truthy (prop stats "ac")) eqn:Hac.
  - rewrite Hac, Hread.
    destruct (declaredNumber (prop stats "ac")) as [[z |] |]; reflexivity.
  - destruct (truthy (prop stats "bonus")) eqn:Hb.
    + rewrite Hread.
      destruct (declaredNumber (prop stats "bonus")) as [[z |] |]; reflexivity.
    + reflexivity.
Qed.

Lemma armorType_kind (stats : value) :
  match armorType stats with
  | Ok type => declaredKind stats = Some (armorKindOf type)
  | Throw e => e = TypeError /\ declaredKind stats = None
  end.
Proof.
  unfold armorType, declaredKind, vor.
  destruct (prop stats "type") as [| | b | n | s | l | fs]; try reflexivity;
    try (split; reflexivity).
  - destruct b; [split; reflexivity | reflexivity].
  - destruct n as [[| p | p] |]; try reflexivity; split; reflexivity.
  - cbn [truthy]. destruct (String.eqb s "") eqn:Hs; [| reflexivity].
    apply String.eqb_eq in Hs. subst s. reflexivity.
Qed.

(** One iteration of the loop does what the gear of the entry says, and
    throws exactly when a declaration of the entry cannot be read. *)
Lemma acStep_gear (dexMod : jsnum) (st : AcState) (item : InventoryItem) :
  acStep dexMod st item = match gearOf item with
                          | Some g => Ok (stepGear dexMod st g)
                          | None => Throw TypeError
                          end.
Proof.
  unfold acStep, gearOf, isArmor.
  destruct (isEquipped item); cbn [negb andb]; [| reflexivity].
  destruct (i_type item); try reflexivity.
  destruct (isShield item).
  - rewrite shieldBonusOf_declared.
    destruct (declaredBonus (itemStats item)); reflexivity.
  - destruct (truthy (prop (itemStats item) "ac")); [| reflexivity].
    pose proof (declaredNumber_text (prop (itemStats item) "ac")) as Hn.
    destruct (toStr (prop (itemStats item) "ac")) as [text | e]; cbn [bind].
    + rewrite Hn.
      pose proof (armorType_kind (itemStats item)) as Hk.
      destruct (armorType (itemStats item)) as [type | e]; cbn [bind].
      * rewrite Hk. unfold armorKindOf.
        destruct (includes type "heavy" || includes type "тяжел");
          [reflexivity |].
        destruct (includes type "medium" || includes type "средн");
          reflexivity.
      * destruct Hk as [-> ->]. reflexivity.
    + destruct Hn as [-> ->]. reflexivity.
Qed.

Lemma foldM_gear (dexMod : jsnum) (inv : list InventoryItem) :
  forall st, foldM (acStep dexMod) st inv
             = match allGear inv with
               | Some gear => Ok (fold_left (stepGear dexMod) gear st)
               | None => Throw TypeError
               end.
Proof.
  induction inv as [| item inv IH]; intros st; [reflexivity |].
  cbn [foldM allGear]. rewrite acStep_gear.
  destruct (gearOf item) as [g |]; cbn [bind]; [| reflexivity].
  rewrite IH. destruct (allGear inv); reflexivity.
Qed.

(** The armor class of every character: the one the specification words
    on the gear the inventory declares (10 plus the DEX modifier without
    armor; the declared AC alone for heavy armor, plus at most 2 of the
    DEX modifier for medium, plus the whole DEX modifier for light or
    unspecified armor; the bonus of every equipped shield on top), and a
    TypeError as soon as one declaration of an equipped armor entry cannot
    be read. *)
Lemma calculateArmorClass_total (char : Character) :
  calculateArmorClass char
  = match allGear (c_inventory char) with
    | Some gear => Ok (specArmorClass (a_dex (c_attributes char)) gear)
    | None => Throw TypeError
    end.
Proof.
  unfold calculateArmorClass, specArmorClass.
  rewrite foldM_gear.
  destruct (allGear (c_inventory char)) as [gear |]; cbn [bind];
    [| reflexivity].
  rewrite fold_stepGear_base, fold_stepGear_shield. cbn [baseAc shieldBonus].
  destruct (lastArmor None gear); reflexivity.
Qed.

Lemma calculateArmorClass_gear (char : Character) (gear : list Gear) :
  allGear (c_inventory char) = Some gear ->
  calculateArmorClass char
  = Ok (specArmorClass (a_dex (c_attributes char)) gear).
Proof. intros H. rewrite calculateArmorClass_total, H. reflexivity. Qed.

(** An entry whose declarations cannot be read makes the whole
    computation throw, wherever it stands in the inventory. *)
Lemma calculateArmorClass_unreadable (char : Character) (item : InventoryItem) :
  In item (c_inventory char) -> gearOf item = None ->
  calculateArmorClass char = Throw TypeError.
Proof.
  intros Hin Hg. rewrite calculateArmorClass_total.
  assert (H : allGear (c_inventory char) = None); [| rewrite H; reflexivity].
  induction (c_inventory char) as [| i inv IH]; [contradiction |].
  cbn [allGear]. destruct Hin as [-> | Hin].
  - rewrite Hg. reflexivity.
  - rewrite (IH Hin). destruct (gearOf i); reflexivity.
Qed.

(** Without equipped armor entries the armor class is 10 plus the DEX
    modifier. *)
Lemma calculateArmorClass_unarmored (char : Character) :
  forallb (fun i => negb (isEquipped i && isArmor i)) (c_inventory char) = true ->
  calculateArmorClass char
  = Ok (nadd (NInt 10) (getModifier (a_dex (c_attributes char)))).
Proof.
  intros H.
  assert (Hg : forall inv,
             forallb (fun i => negb (isEquipped i && isArmor i)) inv = true ->
             exists gear, allGear inv = Some gear
                          /\ lastArmor None gear = None
                          /\ shieldSum (NInt 0) gear = NInt 0).
  { induction inv as [| i inv IH]; cbn [forallb allGear];
      [exists []; auto |].
    intros Hi. apply andb_true_iff in Hi as [Hi Hr].
    destruct (IH Hr) as (gear & -> & H2 & H3).
    unfold gearOf. apply negb_true_iff in Hi. rewrite Hi.
    exists (NoGear :: gear). auto. }
  destruct (Hg _ H) as (gear & H1 & H2 & H3).
  rewrite (calculateArmorClass_gear _ _ H1).
  unfold specArmorClass. rewrite H2, H3. simpl.
  destruct (getModifier (a_dex (c_attributes char))); simpl; f_equal.
  f_equal. lia.
Qed.

Lemma itemStats_unparseable (item : InventoryItem) :
  unparseable item = true -> itemStats item = VObj [].
Proof.
  unfold unparseable, itemStats, lenientParse.
  destruct (JSON_parse (mechStr item)); [discriminate |].
  destruct (JSON_parse (doubleQuotes (mechStr item))); [discriminate |].
  reflexivity.
Qed.

(** An entry with an unreadable annotation is a shield with the default
    bonus 2 when it is an equipped armor named as a shield, and nothing
    otherwise. *)
Lemma gearOf_unparseable (item : InventoryItem) :
  unparseable item = true ->
  gearOf item = Some (if isEquipped item && isArmor item
                         && isShieldName (i_name item)
                      then ShieldGear (NInt 2) else NoGear).
Proof.
  intros H. unfold gearOf, isShield. rewrite (itemStats_unparseable _ H).
  destruct (isEquipped item && isArmor item); [| reflexivity].
  cbn [andb]. change (prop (VObj []) "type") with VUndef.
  rewrite orb_false_r.
  destruct (isShieldName (i_name item)); reflexivity.
Qed.

Lemma acStep_bump (dexMod b : jsnum) (st : AcState) (item : InventoryItem) :
  acStep dexMod (bump st b) item
  = rmap (fun s => bump s b) (acStep dexMod st item).
Proof.
  rewrite !acStep_gear.
  destruct (gearOf item) as [[| bonus | ac kind] |]; try reflexivity.
  unfold rmap, stepGear, bump. cbn [baseAc shieldBonus hasArmor].
  rewrite nadd_swap. reflexivity.
Qed.

Lemma foldM_bump (dexMod b : jsnum) (inv : list InventoryItem) :
  forall st, foldM (acStep dexMod) (bump st b) inv
             = rmap (fun s => bump s b) (foldM (acStep dexMod) st inv).
Proof.
  induction inv as [| i inv IH]; intros st; simpl; [reflexivity |].
  rewrite acStep_bump. destruct (acStep dexMod st i); simpl;
    [apply IH | reflexivity].
Qed.

(** C6 (as amended). An equipped entry whose mechanics annotation cannot
    be parsed never makes the computation fail and adds nothing as armor;
    it adds the default shield bonus 2 when it is an armor entry named as
    a shield, and nothing at all otherwise. *)
Theorem calculateArmorClass_unparseable
  (char : Character) (pre post : list InventoryItem) (item : InventoryItem) :
  c_inventory char = pre ++ item :: post ->
  unparseable item = true ->
  calculateArmorClass char
  = rmap (fun ac => if isEquipped item && isArmor item
                       && isShieldName (i_name item)
                    then nadd ac (NInt 2) else ac)
         (calculateArmorClass (setInventoryAc char (pre ++ post) (c_ac char))).
Proof.
  intros Hinv Hun. unfold calculateArmorClass.
  cbn [setInventoryAc c_inventory c_attributes]. rewrite Hinv.
  set (dm := getModifier (a_dex (c_attributes char))).
  set (st0 := {| baseAc := nadd (NInt 10) dm; shieldBonus := NInt 0;
                 hasArmor := false |}).
  rewrite !foldM_app.
  destruct (foldM (acStep dm) st0 pre) as [st1 | e]; simpl; [| reflexivity].
  rewrite (acStep_gear dm st1 item), (gearOf_unparseable _ Hun).
  destruct (isEquipped item && isArmor item && isShieldName (i_name item)).
  - simpl. change {| baseAc := baseAc st1;
                     shieldBonus := nadd (shieldBonus st1) (NInt 2);
                     hasArmor := hasArmor st1 |} with (bump st1 (NInt 2)).
    rewrite foldM_bump.
    destruct (foldM (acStep dm) st1 post) as [st2 | e]; simpl; [| reflexivity].
    rewrite nadd_assoc. reflexivity.
  - simpl. destruct (foldM (acStep dm) st1 post); reflexivity.
Qed.

End ArmorClassFacts.

(** The particular cases of the specification, on the sample data. *)

Example ac_unarmored_dex14 :
  @calculateArmorClass std_runtime (sampleChar (NInt 14) []) = Ok (NInt 12).
Proof. reflexivity. Qed.

Example ac_heavy_any_dex (dex : jsnum) :
  @calculateArmorClass std_runtime (sampleChar dex [plate]) = Ok (NInt 16).
Proof.
  rewrite (@calculateArmorClass_gear std_runtime _ [ArmorGear (NInt 16) Heavy])
    by (vm_compute; reflexivity).
  reflexivity.
Qed.

Example ac_medium_dex16 :
  @calculateArmorClass std_runtime (sampleChar (NInt 16) [breastplate])
  = Ok (NInt 16).
Proof. vm_compute. reflexivity. Qed.

Example ac_light_dex16 :
  @calculateArmorClass std_runtime (sampleChar (NInt 16) [leather])
  = Ok (NInt 14).
Proof. vm_compute. reflexivity. Qed.

Example ac_shield_on_top (dex : Z) (armorPiece : InventoryItem) :
  In armorPiece [plate; breastplate; leather] ->
  @calculateArmorClass std_runtime
     (sampleChar (NInt dex) [armorPiece; roundShield])
  = rmap (fun ac => nadd ac (NInt 2))
         (@calculateArmorClass std_runtime (sampleChar (NInt dex) [armorPiece])).
Proof.
  intros [<- | [<- | [<- | []]]];
    rewrite !calculateArmorClass_total;
    cbn [c_inventory sampleChar];
    match goal with
    | |- context [@allGear ?R [?a; ?b]] =>
        let g := eval vm_compute in (@allGear R [a; b]) in
        change (@allGear R [a; b]) with g;
        let g1 := eval vm_compute in (@allGear R [a]) in
        change (@allGear R [a]) with g1
    end;
    unfold rmap; f_equal;
    apply (specArmorClass_shield (NInt dex) (NInt 2) [_] []).
Qed.

(** The mutual agreement of code and specification on a medium armor
    under a shield. *)
Example ac_medium_with_shield :
  @allGear std_runtime [breastplate; roundShield]
  = Some [ArmorGear (NInt 14) Medium; ShieldGear (NInt 2)]
  /\ @calculateArmorClass std_runtime
       (sampleChar (NInt 16) [breastplate; roundShield]) = Ok (NInt 18).
Proof.
  split; [vm_compute; reflexivity |].
  rewrite (@calculateArmorClass_gear std_runtime
             (sampleChar (NInt 16) [breastplate; roundShield])
             [ArmorGear (NInt 14) Medium; ShieldGear (NInt 2)]);
    vm_compute; reflexivity.
Qed.

(** C2 fails on the code.  An equipped armor whose annotation declares
    [{ac: 14, type: 5}], as the normalizer stores it from a response,
    makes the computation throw a TypeError, where an armor that is
    neither heavy nor medium is to give the declared AC plus the DEX
    modifier, 16; with the type as text the same armor is computed as the
    specification words it (14 plus 2 of DEX 14 for a medium armor). *)
Theorem calculateArmorClass_throws_on_numeric_type :
  @normalizeItem std_runtime (oddArmorEntry true) = Ok oddArmor
  /\ i_mechanics oddArmor
     = Some (VObj [("ac", VNum (NInt 14)); ("type", VNum (NInt 5))])
  /\ isEquipped oddArmor = true
  /\ @calculateArmorClass std_runtime (sampleChar (NInt 14) [oddArmor])
     = Throw TypeError
  /\ @calculateArmorClass std_runtime (sampleChar (NInt 14) [breastplate])
     = Ok (NInt 16).
Proof.
  split; [vm_compute; reflexivity |].
  split; [reflexivity |]. split; [reflexivity |].
  split; vm_compute; reflexivity.
Qed.

(** C6 (as stated) fails: an equipped shield with a free-text annotation
    still adds 2 to the armor class. *)
Lemma unparseable_shield_counts :
  @unparseable std_runtime woodenShield = true
  /\ @calculateArmorClass std_runtime (sampleChar (NInt 10) [woodenShield])
     = Ok (NInt 12)
  /\ @calculateArmorClass std_runtime (sampleChar (NInt 10) []) = Ok (NInt 10).
Proof. repeat split; vm_compute; reflexivity. Qed.

Lemma calculateArmorClass_unparseable_witness :
  @unparseable std_runtime woodenShield = true
  /\ @calculateArmorClass std_runtime (sampleChar (NInt 14) [plate; woodenShield])
     = Ok (NInt 18).
Proof.
  split; [vm_compute; reflexivity |].
  rewrite (@calculateArmorClass_unparseable std_runtime
             (sampleChar (NInt 14) [plate; woodenShield])
             [plate] [] woodenShield eq_refl);
    vm_compute; reflexivity.
Defined.

(** ** Lists as arrays *)

Lemma lookup_map {A B : Type} (f : A -> B) (l : list A) (i : nat) :
  List.map f l !! i = option_map f (l !! i).
Proof.
  revert i. induction l as [| a l IH]; intros [| i]; simpl; auto.
Qed.

Lemma findIndex_Some {A : Type} (p : A -> bool) (l : list A) (i : nat) :
  findIndex p l = Some i ->
  exists x, l !! i = Some x /\ p x = true
            /\ forall k y, (k < i)%nat -> l !! k = Some y -> p y = false.
Proof.
  revert i. induction l as [| a l IH]; intros i; simpl; [discriminate |].
  destruct (p a) eqn:Hp.
  - intros [= <-]. exists a. repeat split; auto. intros k y Hk. lia.
  - destruct (findIndex p l) as [i' |]; simpl; [| discriminate].
    intros [= <-]. destruct (IH i' eq_refl) as (x & Hx & Hpx & Hfirst).
    exists x. repeat split; auto.
    intros [| k] y Hk; simpl.
    + intros [= <-]. exact Hp.
    + apply Hfirst. lia.
Qed.

Lemma findIndex_found {A : Type} (p : A -> bool) (l : list A) (j : nat) (x : A) :
  l !! j = Some x -> p x = true -> exists i, findIndex p l = Some i.
Proof.
  revert j. induction l as [| a l IH]; intros [| j]; simpl; try discriminate.
  - intros [= ->] ->. eauto.
  - intros Hj Hp. destruct (p a); [eauto |].
    destruct (IH j Hj Hp) as (i & ->). simpl. eauto.
Qed.

(** ** Equipping armor *)

Section EquipFacts.
Context {R : Runtime}.

(** Equipping an armor entry that is not a shield by name unequips every
    other such entry, so the entry is the only armor of that kind that is
    equipped afterwards, whether or not the armor class can then be
    computed; when it can, the saved character carries the new inventory
    and, as its armor class, the value [calculateArmorClass] gives on it;
    when it cannot, nothing is saved and the session keeps the new flags
    beside the armor class it had. *)
Lemma handleToggleEquip_equips
  (state : GameState) (char : Character) (itemIndex : nat)
  (targetItem : InventoryItem) :
  character state = Some char ->
  c_inventory char !! itemIndex = Some targetItem ->
  isArmor targetItem = true ->
  isEquipped targetItem = false ->
  isShieldName (i_name targetItem) = false ->
  let newInventory :=
    <[itemIndex := setEquipped targetItem (Some true)]>
      (List.map unequipArmor (c_inventory char)) in
  newInventory !! itemIndex = Some (setEquipped targetItem (Some true))
  /\ (forall j item, newInventory !! j = Some item ->
        isArmor item = true -> isShieldName (i_name item) = false ->
        isEquipped item = true -> j = itemIndex)
  /\ (forall j, j <> itemIndex ->
        newInventory !! j = option_map unequipArmor (c_inventory char !! j))
  /\ match handleToggleEquip state itemIndex with
     | Toggled state' =>
         exists char' newAc,
           character state' = Some char'
           /\ state' = setCharacter state (Some char')
           /\ c_inventory char' = newInventory
           /\ c_ac char' = Some newAc
           /\ calculateArmorClass char' = Ok newAc
           /\ char' = setInventoryAc char newInventory (Some newAc)
     | ToggleThrew e session =>
         calculateArmorClass (setInventoryAc char newInventory (c_ac char))
         = Throw e
         /\ session = setCharacter state
                        (Some (setInventoryAc char newInventory (c_ac char)))
     end.
Proof.
  intros Hchar Hlook Harmor Hequipped Hshield newInventory.
  assert (Hlen : (itemIndex < length (List.map unequipArmor (c_inventory char)))%nat).
  { rewrite length_map. eapply lookup_lt_Some, Hlook. }
  assert (Hother : forall j, j <> itemIndex ->
            newInventory !! j = option_map unequipArmor (c_inventory char !! j)).
  { intros j Hj. unfold newInventory.
    rewrite list_lookup_insert_ne by congruence. apply lookup_map. }
  split; [| split; [| split]].
  - unfold newInventory. apply list_lookup_insert_eq, Hlen.
  - intros j item Hj Ha Hs He.
    destruct (Nat.eq_dec j itemIndex) as [-> | Hne]; [reflexivity | exfalso].
    rewrite (Hother j Hne) in Hj.
    destruct (c_inventory char !! j) as [x |]; [| discriminate].
    simpl in Hj. injection Hj as <-. unfold unequipArmor in *.
    destruct (isArmor x && negb (isShieldName (i_name x))) eqn:Hx.
    + discriminate He.
    + rewrite Ha, Hs in Hx. discriminate Hx.
  - exact Hother.
  - unfold handleToggleEquip. rewrite Hchar, Hlook.
    rewrite Harmor, Hequipped, Hshield. cbn [andb negb].
    assert (Hu : unequipArmor targetItem = setEquipped targetItem (Some false))
      by (unfold unequipArmor; rewrite Harmor, Hshield; reflexivity).
    rewrite Hu.
    change (setEquipped (setEquipped targetItem (Some false))
              (Some (negb (isEquipped (setEquipped targetItem (Some false))))))
      with (setEquipped targetItem (Some true)).
    fold newInventory.
    destruct (calculateArmorClass (setInventoryAc char newInventory (c_ac char)))
      as [newAc | e] eqn:Hac.
    + exists (setInventoryAc char newInventory (Some newAc)), newAc.
      repeat split; try reflexivity. exact Hac.
    + split; reflexivity.
Qed.

End EquipFacts.

Lemma handleToggleEquip_equips_witness :
  @handleToggleEquip std_runtime
     (sampleState gameplay
        (Some (sampleChar (NInt 14) [plate; leatherInPack; roundShield])))
     1%nat
  = Toggled (sampleState gameplay
               (Some (setInventoryAc
                        (sampleChar (NInt 14) [plate; leatherInPack; roundShield])
                        [setEquipped plate (Some false); leather; roundShield]
                        (Some (NInt 15))))).
Proof.
  pose proof (@handleToggleEquip_equips std_runtime
                (sampleState gameplay
                   (Some (sampleChar (NInt 14) [plate; leatherInPack; roundShield])))
                (sampleChar (NInt 14) [plate; leatherInPack; roundShield])
                1%nat leatherInPack eq_refl eq_refl eq_refl eq_refl eq_refl)
    as (_ & _ & _ & H).
  destruct (@handleToggleEquip std_runtime _ 1%nat) as [state' | e session].
  - destruct H as (char' & newAc & _ & -> & _ & _ & Hac & ->).
    vm_compute in Hac. injection Hac as <-. reflexivity.
  - destruct H as [H _]. vm_compute in H. discriminate H.
Defined.

(** C10 fails on the code.  The session wears plate armor and a shield,
    armor class 18, and holds in the pack the armor that an update
    declared as [{ac: 14, type: 5}].  Equipping that armor unequips the
    plate and equips the armor, and then the computation of the armor
    class throws: nothing is saved, and the session is left with the new
    flags beside the armor class 18 of the plate, which is not the value
    of any computation on the inventory it now holds.  With a leather
    armor in the pack the same toggle stores the recomputed armor class,
    15. *)
Theorem handleToggleEquip_leaves_stale_ac :
  @normalizeItem std_runtime (oddArmorEntry false) = Ok oddArmorInPack
  /\ option_map c_inventory (character packedSession)
     = Some [plate; oddArmorInPack; roundShield]
  /\ option_map c_ac (character packedSession) = Some (Some (NInt 18))
  /\ @calculateArmorClass std_runtime packedChar = Ok (NInt 18)
  /\ (exists session char',
        @handleToggleEquip std_runtime packedSession 1%nat
        = ToggleThrew TypeError session
        /\ character session = Some char'
        /\ c_inventory char'
           = [setEquipped plate (Some false); oddArmor; roundShield]
        /\ List.map isEquipped (c_inventory char') = [false; true; true]
        /\ c_ac char' = Some (NInt 18)
        /\ @calculateArmorClass std_runtime char' = Throw TypeError)
  /\ (exists state' char',
        @handleToggleEquip std_runtime
          (sampleState gameplay
             (Some (sampleChar (NInt 14) [plate; leatherInPack; roundShield])))
          1%nat
        = Toggled state'
        /\ character state' = Some char'
        /\ c_inventory char'
           = [setEquipped plate (Some false); leather; roundShield]
        /\ c_ac char' = Some (NInt 15)
        /\ @calculateArmorClass std_runtime char' = Ok (NInt 15)).
Proof.
  split; [vm_compute; reflexivity |].
  split; [reflexivity |]. split; [reflexivity |].
  split; [vm_compute; reflexivity |].
  split.
  - do 2 eexists. split; [vm_compute; reflexivity |].
    split; [reflexivity |]. split; [reflexivity |].
    split; [reflexivity |]. split; [reflexivity |].
    vm_compute. reflexivity.
  - do 2 eexists. split; [vm_compute; reflexivity |].
    split; [reflexivity |]. split; [reflexivity |].
    split; [reflexivity |]. vm_compute. reflexivity.
Qed.

(** ** Merging the inventory of an update *)

Section MergeFacts.
Context {R : Runtime}.

(** One step of the loop: an incoming entry that matches a stored one by
    trimmed, case-insensitive name overwrites the first such entry in
    place with the fields it carries; the [equipped] flag is the incoming
    one when the entry carries it and the stored one otherwise; no other
    entry changes. *)
Lemma mergeItem_overwrites_match
  (mergedInventory : list InventoryItem) (newItem existing : InventoryItem)
  (j : nat) :
  i_name newItem <> EmptyString ->
  mergedInventory !! j = Some existing ->
  sameName (i_name existing) (i_name newItem) = true ->
  exists (i : nat) (old updated : InventoryItem),
    mergedInventory !! i = Some old
    /\ sameName (i_name old) (i_name newItem) = true
    /\ (forall k y, (k < i)%nat -> mergedInventory !! k = Some y ->
                    sameName (i_name y) (i_name newItem) = false)
    /\ mergeItem mergedInventory newItem !! i = Some updated
    /\ i_name updated = i_name newItem
    /\ i_type updated = i_type newItem
    /\ i_description updated = i_description newItem
    /\ i_quantity updated = i_quantity newItem
    /\ i_mechanics updated = match i_mechanics newItem with
                             | Some m => Some m
                             | None => i_mechanics old
                             end
    /\ i_equipped updated = match i_equipped newItem with
                            | Some e => Some e
                            | None => i_equipped old
                            end
    /\ (forall k, k <> i ->
          mergeItem mergedInventory newItem !! k = mergedInventory !! k)
    /\ length (mergeItem mergedInventory newItem) = length mergedInventory.
Proof.
  intros Hname Hj Hsame.
  destruct (findIndex_found
              (fun old => sameName (i_name old) (i_name newItem))
              mergedInventory j existing Hj Hsame) as (i & Hfind).
  destruct (findIndex_Some _ _ _ Hfind) as (old & Hi & Hold & Hfirst).
  exists i, old, (overlay old newItem).
  assert (Hmerge : mergeItem mergedInventory newItem
                   = <[i := overlay old newItem]> mergedInventory).
  { unfold mergeItem.
    destruct (String.eqb (i_name newItem) "") eqn:He.
    - apply String.eqb_eq in He. contradiction.
    - rewrite Hfind, Hi. reflexivity. }
  rewrite Hmerge.
  repeat split; auto.
  - apply list_lookup_insert_eq. eapply lookup_lt_Some, Hi.
  - intros k Hk. apply list_lookup_insert_ne. congruence.
  - apply length_insert.
Qed.

End MergeFacts.

(** ** Retries of the narrative service *)

Section RetryFacts.
Context {R : Runtime}.

(** The loop never needs more than three iterations. *)
Lemma retryLoop_fuel (svc : service) (fuel : nat) :
  (3 <= fuel)%nat -> retryLoop fuel 0 svc = callService svc.
Proof.
  intros Hf. unfold callService.
  destruct fuel as [| [| [| fuel]]]; try lia.
  change (Z.to_nat maxRetries) with 3%nat. unfold maxRetries. cbn.
  destruct (svc 0%nat); [reflexivity |].
  destruct (isQuotaError e); [| reflexivity]. cbn.
  destruct (svc 1%nat); [reflexivity |].
  destruct (isQuotaError e0); [| reflexivity]. cbn.
  destruct (svc 2%nat); [reflexivity |].
  rewrite andb_false_r. reflexivity.
Qed.

(** The six ways a call can go. *)
Lemma callService_cases (svc : service) :
  (exists t0, svc 0%nat = Reply t0
              /\ callService svc = (Ok (Some t0), [Request]))
  \/ (exists e0, svc 0%nat = Failure e0 /\ isQuotaError e0 = false
                 /\ callService svc = (Throw e0, [Request]))
  \/ (exists e0 t1, svc 0%nat = Failure e0 /\ isQuotaError e0 = true
                    /\ svc 1%nat = Reply t1
                    /\ callService svc
                       = (Ok (Some t1), [Request; Sleep 4000; Request]))
  \/ (exists e0 e1, svc 0%nat = Failure e0 /\ isQuotaError e0 = true
                    /\ svc 1%nat = Failure e1 /\ isQuotaError e1 = false
                    /\ callService svc
                       = (Throw e1, [Request; Sleep 4000; Request]))
  \/ (exists e0 e1 t2, svc 0%nat = Failure e0 /\ isQuotaError e0 = true
                       /\ svc 1%nat = Failure e1 /\ isQuotaError e1 = true
                       /\ svc 2%nat = Reply t2
                       /\ callService svc
                          = (Ok (Some t2),
                             [Request; Sleep 4000; Request; Sleep 8000; Request]))
  \/ (exists e0 e1 e2, svc 0%nat = Failure e0 /\ isQuotaError e0 = true
                       /\ svc 1%nat = Failure e1 /\ isQuotaError e1 = true
                       /\ svc 2%nat = Failure e2
                       /\ callService svc
                          = (Throw e2,
                             [Request; Sleep 4000; Request; Sleep 8000; Request])).
Proof.
  unfold callService. change (Z.to_nat maxRetries) with 3%nat.
  unfold maxRetries. cbn.
  destruct (svc 0%nat) as [t0 | e0] eqn:H0; [left; eauto |].
  destruct (isQuotaError e0) eqn:Q0; cbn; [| right; left; eauto].
  destruct (svc 1%nat) as [t1 | e1] eqn:H1;
    [right; right; left; eauto 10 |].
  destruct (isQuotaError e1) eqn:Q1; cbn;
    [| right; right; right; left; eauto 10].
  destruct (svc 2%nat) as [t2 | e2] eqn:H2;
    [right; right; right; right; left; eauto 12 |].
  rewrite andb_false_r. right; right; right; right; right. eauto 12.
Qed.

(** Settles a clause of the policy about the request of index [i] once
    the replies are known: [i] is 0, 1 or 2. *)
Ltac by_request_index :=
  let i := fresh "i" in
  intros i; intros;
  destruct i as [| [| [| ?]]]; cbn in *;
  try lia; try congruence; eauto;
  try (split; [congruence | reflexivity]).

(** C9 (as amended). A call makes at most three requests; a further
    request is made only after a rate-limit failure; the wait before the
    first retry is 4 seconds and the one before the second is 8 seconds;
    a failure that is not a rate limit, and the third failure whatever it
    is, is thrown at once; and three iterations are all the loop can make. *)
Theorem callService_retry_policy (svc : service) :
  (snd (callService svc) = [Request]
   \/ snd (callService svc) = [Request; Sleep 4000; Request]
   \/ snd (callService svc)
      = [Request; Sleep 4000; Request; Sleep 8000; Request])
  /\ (1 <= requests (snd (callService svc)) <= 3)%nat
  /\ (forall i, (S i < requests (snd (callService svc)))%nat ->
        exists e, svc i = Failure e /\ isQuotaError e = true)
  /\ (forall i e, (i < requests (snd (callService svc)))%nat ->
        svc i = Failure e -> isQuotaError e = false ->
        fst (callService svc) = Throw e
        /\ requests (snd (callService svc)) = S i)
  /\ (forall i text, (i < requests (snd (callService svc)))%nat ->
        svc i = Reply text ->
        fst (callService svc) = Ok (Some text)
        /\ requests (snd (callService svc)) = S i)
  /\ (forall fuel, (3 <= fuel)%nat -> retryLoop fuel 0 svc = callService svc).
Proof.
  refine (conj _ (conj _ (conj _ (conj _ (conj _ (retryLoop_fuel svc)))))).
  all: destruct (callService_cases svc)
      as [(t0 & H0 & ->)
         | [(e0 & H0 & Q0 & ->)
           | [(e0 & t1 & H0 & Q0 & H1 & ->)
             | [(e0 & e1 & H0 & Q0 & H1 & Q1 & ->)
               | [(e0 & e1 & t2 & H0 & Q0 & H1 & Q1 & H2 & ->)
                 | (e0 & e1 & e2 & H0 & Q0 & H1 & Q1 & H2 & ->)]]]]];
    cbn [fst snd]; auto; try (cbn; lia); by_request_index.
Qed.

End RetryFacts.

(** C9 (as stated) fails: the wait before the first retry is 4 seconds,
    not 2. *)
Lemma first_retry_waits_4s :
  sleeps (snd (@callService std_runtime limitedOnce)) = [4000]
  /\ sleeps (snd (@callService std_runtime limitedOnce)) <> [2000].
Proof. split; [reflexivity | discriminate]. Qed.

(** ** The response normalizer *)

Section NormalizerFacts.
Context {R : Runtime}.

(** A payload that is not an object gets the fixed fallback response,
    which carries no [validationError]. *)
Lemma normalizeAIResponse_not_object (raw : value) :
  isObject raw = false ->
  normalizeAIResponse raw = Ok invalidStructure
  /\ r_validationError invalidStructure = None.
Proof.
  intros H. unfold normalizeAIResponse. rewrite H.
  rewrite orb_true_r. split; reflexivity.
Qed.

(** The fallback response is merged like any other: its narrative is
    appended to the history, the phase moves on and the state is saved. *)
Lemma applyResponse_invalidStructure
  (currentState latest : GameState) (now : Z)
  (injectedHistory : option (list LogEntry)) :
  applyResponse currentState latest now false injectedHistory invalidStructure
  = Ok (Committed
          {| phase := nextPhase (phase currentState) (phase latest)
                                invalidStructure (character latest);
             world := world latest;
             character := character latest;
             history := pick injectedHistory (history latest)
                        ++ [ {| e_id := numToString (NInt now);
                                e_role := model;
                                e_text := "Error: AI returned invalid data structure.";
                                e_timestamp := now; e_meta := None |} ];
             currentOptions := ["Retry"];
             pendingCheck := None;
             levelUpChoices := levelUpChoices latest |}
          match phase currentState with
          | character_creation => true
          | _ => false
          end).
Proof. reflexivity. Qed.

(** An array element that is [null] makes the normalizer throw. *)
Lemma normalizeAIResponse_null_item :
  normalizeAIResponse nullItemPayload = Throw TypeError.
Proof. reflexivity. Qed.

(** C7. When the normalized inventory of a character update holds a
    ranged weapon by name and no ammunition by category or name, the
    normalizer returns it with the synthesized stack of 20 appended; this
    is the inventory of the update and of the whole response. *)
Theorem normalizer_appends_ammo (c : value) (items : list InventoryItem) :
  truthy (prop c "inventory") = true ->
  normalizeInventory (prop c "inventory") = Ok items ->
  hasRanged items = true ->
  hasAmmo items = false ->
  normalizeUpdateInventory c = Ok (Some (items ++ [ammoStack]))
  /\ i_type ammoStack = ammo
  /\ i_quantity ammoStack = NInt 20
  /\ (forall u, normalizeCharacterUpdate c = Ok u ->
                u_inventory u = Some (items ++ [ammoStack]))
  /\ (forall raw resp,
        isObject raw = true -> prop raw "characterUpdate" = c ->
        isObject c = true ->
        normalizeAIResponse raw = Ok resp ->
        exists u, r_characterUpdate resp = Some u
                  /\ u_inventory u = Some (items ++ [ammoStack])).
Proof.
  intros Htruthy Hinv Hranged Hammo.
  assert (Hblock : normalizeUpdateInventory c = Ok (Some (items ++ [ammoStack]))).
  { unfold normalizeUpdateInventory, ensureAmmo.
    rewrite Htruthy, Hinv. cbn [bind]. rewrite Hranged, Hammo. reflexivity. }
  assert (Hupd : forall u, normalizeCharacterUpdate c = Ok u ->
                           u_inventory u = Some (items ++ [ammoStack])).
  { intros u Hu. unfold normalizeCharacterUpdate in Hu.
    rewrite Hblock in Hu. bind_inv Hu.
    injection Hu as <-. cbn [u_inventory]. congruence. }
  repeat split; auto.
  intros raw resp Hobj Hc Hcobj Hresp. unfold normalizeAIResponse in Hresp.
  assert (Htr : truthy raw = true) by (destruct raw; try discriminate; reflexivity).
  assert (Htc : truthy c = true) by (destruct c; try discriminate; reflexivity).
  rewrite Hobj, Htr, Hc, Htc, Hcobj in Hresp. cbn [negb orb andb] in Hresp.
  destruct (normalizeCharacterUpdate c) as [u |] eqn:Hu.
  - cbn [bind] in Hresp. bind_inv Hresp. injection Hresp as <-.
    exists u. split; [reflexivity | apply Hupd, eq_refl].
  - bind_inv Hresp. discriminate Hresp.
Qed.

End NormalizerFacts.

Lemma normalizer_appends_ammo_witness :
  exists resp u,
    @normalizeAIResponse std_runtime longbowPayload = Ok resp
    /\ r_characterUpdate resp = Some u
    /\ u_inventory u = Some [longbow; ammoStack].
Proof.
  destruct (@normalizer_appends_ammo std_runtime
              (prop longbowPayload "characterUpdate") [longbow]
              eq_refl eq_refl eq_refl eq_refl)
    as (_ & _ & _ & _ & Hresp).
  destruct (@normalizeAIResponse std_runtime longbowPayload) as [resp |] eqn:Hn;
    [| vm_compute in Hn; discriminate Hn].
  destruct (Hresp longbowPayload resp eq_refl eq_refl eq_refl Hn) as (u & Hu & Hi).
  exists resp, u. auto.
Defined.

(** C1 fails on the code.  The service answers the text [null]: the
    normalizer returns its fallback response without a [validationError],
    and the caller merges it: in the first phase of a fresh session the
    error text enters the history, the options are replaced and the phase
    moves on to character creation.  And a [null] inside the inventory
    array makes the normalizer throw. *)
Theorem null_payload_is_committed :
  @normalizeAIResponse std_runtime VNull = Ok invalidStructure
  /\ r_validationError invalidStructure = None
  /\ @callAI std_runtime true INITIAL_GAME_STATE INITIAL_GAME_STATE 1000 false
       None (answering "null")
     = (Committed
          {| phase := character_creation;
             world := None;
             character := None;
             history := [ {| e_id := "1000"; e_role := model;
                             e_text := "Error: AI returned invalid data structure.";
                             e_timestamp := 1000; e_meta := None |} ];
             currentOptions := ["Retry"];
             pendingCheck := None;
             levelUpChoices := None |}
          false,
        [Request])
  /\ @normalizeAIResponse std_runtime nullItemPayload = Throw TypeError.
Proof. repeat split; vm_compute; reflexivity. Qed.

(** ** Dice expressions *)

(** C8 fails on the code.  A flat bonus that is not a number is not a
    malformed input for [parseAndRoll]: the dice are rolled and the sum
    is NaN, whatever the draws. *)
Theorem parseAndRoll_text_bonus_is_NaN (R : Runtime) (rnd : rng) :
  fst (parseAndRoll "1d20+dex" rnd) = NaN.
Proof. reflexivity. Qed.

(** A negative count rolls no die at all and gives 0, and negative faces
    give a negative total. *)
Lemma parseAndRoll_negative (R : Runtime) (rnd : rng) :
  fst (parseAndRoll "2d6+" rnd) = NaN
  /\ fst (@parseAndRoll std_runtime "-2d6" rnd) = NInt 0
  /\ fst (@parseAndRoll std_runtime "2d-6" (fun _ => 1 # 2)) = NInt (-4).
Proof. repeat split; vm_compute; reflexivity. Qed.

(** ** Death saving throws *)

Lemma nge_nadd_0 (a b : jsnum) : nge (nadd a (NInt 0)) b = nge a b.
Proof. destruct a, b; simpl; try reflexivity. f_equal. lia. Qed.

Lemma numEq_eq (a : jsnum) (z : Z) : numEq a (NInt z) = true <-> a = NInt z.
Proof.
  destruct a; simpl; split; try discriminate.
  - intros H. apply Z.eqb_eq in H. congruence.
  - intros [= ->]. apply Z.eqb_refl.
Qed.

Lemma inRange_spec (n : jsnum) :
  inRange n = true <-> exists z, n = NInt z /\ 0 <= z <= 3.
Proof.
  destruct n; simpl; split.
  - intros H. apply andb_true_iff in H as [H1 H2].
    apply Z.leb_le in H1, H2. eauto.
  - intros (z' & [= <-] & H1 & H2). apply andb_true_iff.
    split; apply Z.leb_le; assumption.
  - discriminate.
  - intros (z & H & _). discriminate.
Qed.

Lemma inRange_capped (n : jsnum) (k : Z) :
  inRange n = true -> 0 <= k ->
  inRange (nmin (NInt 3) (nadd n (NInt k))) = true.
Proof.
  intros H Hk. apply inRange_spec in H as (z & -> & Hz).
  apply inRange_spec. simpl. eexists. split; [reflexivity | lia].
Qed.

Section DeathSaveFacts.
Context {R : Runtime}.

Lemma rollModifier_death_save (check : CheckRequest) (char : option Character) :
  isDeathSaveCheck check = true -> rollModifier check char = NInt 0.
Proof. intros H. unfold rollModifier. rewrite H. reflexivity. Qed.

(** The result of a death saving throw: the state after it, up to its
    history and the text of the follow-up. *)
Lemma handleRoll_death_save_result
  (rollType : RollType) (captured current : GameState) (now : Z) (rnd : rng)
  (check pending : CheckRequest) (char : Character) (ds : DeathSaves) :
  pendingCheck captured = Some check ->
  pendingCheck current = Some pending ->
  character captured = Some char ->
  c_deathSaves char = Some ds ->
  isDeathSaveCheck check = true ->
  let finalRoll := fst (rollBoth rollType (diceOf check) rnd) in
  let success := nge finalRoll (nor (k_difficulty check) (NInt 10)) in
  let after := applyDeathSave char ds success finalRoll in
  exists hist text,
    handleRoll rollType captured current now rnd
    = Rolled {| phase := if snd (fst after) then gameover else phase current;
                world := world current;
                character := Some (fst (fst after));
                history := hist;
                currentOptions := currentOptions current;
                pendingCheck := None;
                levelUpChoices := levelUpChoices current |}
             (if negb (snd (fst after)) && (negb (k_isAttack check) || negb success)
              then Some text else None).
Proof.
  intros Hcheck Hpending Hchar Hds Hdeath finalRoll success after.
  unfold handleRoll. rewrite Hcheck, Hpending, Hchar, Hds, Hdeath.
  rewrite (rollModifier_death_save _ _ Hdeath).
  subst after success finalRoll.
  destruct (rollBoth rollType (diceOf check) rnd) as [fr rolls].
  cbn [fst snd]. rewrite nge_nadd_0.
  destruct (applyDeathSave char ds
              (nge fr (nor (k_difficulty check) (NInt 10))) fr)
    as [[char' isDead] crit].
  cbn [fst snd]. eexists. eexists. reflexivity.
Qed.

(** Closes a clause about a death saving throw: by computation, by a
    contradiction between what the roll was and how it was judged, or by
    the test on the failures. *)
Ltac death_close :=
  try reflexivity;
  try (apply rollModifier_death_save; assumption);
  cbn [phase character c_deathSaves c_hp setVitals failures successes] in *;
  try reflexivity;
  try (exfalso;
       repeat match goal with
              | H : numEq _ _ = true |- _ => apply numEq_eq in H
              end;
       repeat match goal with
              | H : ?x = NInt _ |- _ => rewrite H in *
              end;
       first [ congruence
             | match goal with
               | H : nge (NInt _) (NInt _) = _ |- _ => cbv in H; discriminate H
               | H : numEq (NInt _) (NInt _) = _ |- _ => cbv in H; discriminate H
               end ]);
  try (match goal with
       | H : nge _ _ = _ |- _ => rewrite H; reflexivity
       end).

(** C3 (as amended). A death saving throw adds neither an ability
    modifier nor a proficiency bonus.  A natural 20 that meets the
    difficulty brings the character back to 1 hit point and clears both
    counters; a natural 1 that misses the difficulty counts as two
    failures.  Whenever the failures then stand at 3, the phase is
    [gameover] in the state the roll itself stores and no follow-up
    request is made; otherwise the phase is kept. *)
Theorem handleRoll_death_save
  (rollType : RollType) (captured current : GameState) (now : Z) (rnd : rng)
  (check pending : CheckRequest) (char : Character) (ds : DeathSaves) :
  pendingCheck captured = Some check ->
  pendingCheck current = Some pending ->
  character captured = Some char ->
  c_deathSaves char = Some ds ->
  isDeathSaveCheck check = true ->
  let finalRoll := fst (rollBoth rollType (diceOf check) rnd) in
  let dc := nor (k_difficulty check) (NInt 10) in
  exists st' followUp char' ds',
    handleRoll rollType captured current now rnd = Rolled st' followUp
    /\ character st' = Some char'
    /\ c_deathSaves char' = Some ds'
    /\ rollModifier check (Some char) = NInt 0
    /\ (finalRoll = NInt 20 -> nge (NInt 20) dc = true ->
        c_hp char' = NInt 1 /\ ds' = mkDeathSaves (NInt 0) (NInt 0)
        /\ phase st' = phase current)
    /\ (finalRoll = NInt 1 -> nge (NInt 1) dc = false ->
        failures ds' = nmin (NInt 3) (nadd (failures ds) (NInt 2))
        /\ successes ds' = successes ds)
    /\ (nge (failures ds') (NInt 3) = true ->
        phase st' = gameover /\ followUp = None)
    /\ (nge (failures ds') (NInt 3) = false -> phase st' = phase current).
Proof.
  intros Hcheck Hpending Hchar Hds Hdeath finalRoll dc.
  destruct (handleRoll_death_save_result rollType captured current now rnd
              check pending char ds Hcheck Hpending Hchar Hds Hdeath)
    as (hist & text & Hroll).
  fold finalRoll dc in Hroll. rewrite Hroll. clear Hroll.
  unfold applyDeathSave.
  destruct (nge finalRoll dc) eqn:Hsucc;
    [destruct (numEq finalRoll (NInt 20)) eqn:Hnat
    | destruct (numEq finalRoll (NInt 1)) eqn:Hnat];
    do 4 eexists; repeat split; intros; death_close.
Qed.

End DeathSaveFacts.

Lemma handleRoll_death_save_witness :
  exists st',
    @handleRoll std_runtime normal
       (dyingState (NInt 10) (NInt 0) (NInt 1))
       (dyingState (NInt 10) (NInt 0) (NInt 1)) 0 (always 0)
    = Rolled st' None
    /\ phase st' = gameover.
Proof.
  destruct (@handleRoll_death_save std_runtime normal
              (dyingState (NInt 10) (NInt 0) (NInt 1))
              (dyingState (NInt 10) (NInt 0) (NInt 1)) 0 (always 0)
              (deathCheck (NInt 10)) (deathCheck (NInt 10))
              (dyingChar (NInt 0) (NInt 1)) (mkDeathSaves (NInt 0) (NInt 1))
              eq_refl eq_refl eq_refl eq_refl eq_refl)
    as (st' & followUp & char' & ds' & Hroll & _ & _ & _ & _ & Hone & Hdead & _).
  destruct (Hone eq_refl eq_refl) as [Hfail _].
  destruct (Hdead ltac:(rewrite Hfail; reflexivity)) as [Hphase ->].
  exists st'. split; assumption.
Defined.

(** C3 (as stated) fails: against difficulty 25 a natural 20 is a failed
    save, so the character stays at 0 hit points with one more failure;
    and against difficulty 1 a natural 1 is a success, not two failures. *)
Lemma natural_rolls_are_judged_against_dc :
  fst (@rollBoth std_runtime normal "1d20" (always (19 # 20))) = NInt 20
  /\ (exists st' text,
        @handleRoll std_runtime normal
           (dyingState (NInt 25) (NInt 0) (NInt 0))
           (dyingState (NInt 25) (NInt 0) (NInt 0)) 0 (always (19 # 20))
        = Rolled st' (Some text)
        /\ character st' = Some (dyingChar (NInt 0) (NInt 1)))
  /\ fst (@rollBoth std_runtime normal "1d20" (always 0)) = NInt 1
  /\ (exists st' text,
        @handleRoll std_runtime normal
           (dyingState (NInt 1) (NInt 0) (NInt 0))
           (dyingState (NInt 1) (NInt 0) (NInt 0)) 0 (always 0)
        = Rolled st' (Some text)
        /\ character st' = Some (dyingChar (NInt 1) (NInt 0))).
Proof.
  split; [vm_compute; reflexivity |].
  split; [do 2 eexists; split; vm_compute; reflexivity |].
  split; [vm_compute; reflexivity |].
  do 2 eexists; split; vm_compute; reflexivity.
Qed.

(** ** The range of the death-save counters *)

Section DeathSaveRange.
Context {R : Runtime}.

Lemma applyDeathSave_in_range (char : Character) (ds : DeathSaves)
  (success : bool) (finalRoll : jsnum) :
  inRange (successes ds) = true -> inRange (failures ds) = true ->
  deathSavesInRange (fst (fst (applyDeathSave char ds success finalRoll))) = true.
Proof.
  intros Hs Hf. unfold applyDeathSave, deathSavesInRange.
  destruct success.
  - destruct (numEq finalRoll (NInt 20)); cbn [fst c_deathSaves setVitals
                                                successes failures].
    + reflexivity.
    + rewrite Hf, (inRange_capped _ 1 Hs) by lia. reflexivity.
  - cbn [fst c_deathSaves setVitals successes failures].
    rewrite Hs. destruct (numEq finalRoll (NInt 1));
      [rewrite (inRange_capped _ 2 Hf) by lia
      | rewrite (inRange_capped _ 1 Hf) by lia]; reflexivity.
Qed.

(** C5 (as amended). A roll keeps the death-save counters within [0, 3]
    when they were within it before.  The normalizer and the merge do not
    clamp: numeric counters of a payload are kept as they are, and the
    merge stores the counters of the update when it carries some and keeps
    the stored ones (zeros without any) otherwise. *)
Theorem deathSaves_range :
  (forall rollType captured current now rnd st' followUp char char',
      handleRoll rollType captured current now rnd = Rolled st' followUp ->
      character captured = Some char ->
      deathSavesInRange char = true ->
      character st' = Some char' ->
      deathSavesInRange char' = true)
  /\ (forall c s f u,
        truthy (prop c "deathSaves") = true ->
        prop (prop c "deathSaves") "successes" = VNum (NInt s) ->
        prop (prop c "deathSaves") "failures" = VNum (NInt f) ->
        normalizeCharacterUpdate c = Ok u ->
        u_deathSaves u = Some (mkDeathSaves (NInt s) (NInt f)))
  /\ (forall oldChar update,
        c_deathSaves (mergeCharacter oldChar update)
        = Some match u_deathSaves update with
               | Some d => d
               | None => pick (c_deathSaves oldChar)
                              (mkDeathSaves (NInt 0) (NInt 0))
               end).
Proof.
  split; [| split].
  - intros rollType captured current now rnd st' followUp char char'
           Hroll Hchar Hrange Hchar'.
    unfold handleRoll in Hroll.
    destruct (pendingCheck captured) as [check |]; [| discriminate].
    destruct (rollBoth rollType (diceOf check) rnd) as [fr rolls].
    destruct (pendingCheck current); [| discriminate].
    rewrite Hchar in Hroll.
    destruct (c_deathSaves char) as [ds |] eqn:Hds.
    + destruct (isDeathSaveCheck check).
      * pose proof (applyDeathSave_in_range char ds
                      (nge (nadd fr (rollModifier check (Some char)))
                           (nor (k_difficulty check) (NInt 10))) fr) as Hin.
        unfold deathSavesInRange in Hrange. rewrite Hds in Hrange.
        apply andb_true_iff in Hrange as [Hs Hf]. specialize (Hin Hs Hf).
        destruct (applyDeathSave char ds
                    (nge (nadd fr (rollModifier check (Some char)))
                         (nor (k_difficulty check) (NInt 10))) fr)
          as [[c' d] k].
        injection Hroll as <- _. cbn [character] in Hchar'.
        injection Hchar' as <-. exact Hin.
      * injection Hroll as <- _. cbn [character] in Hchar'.
        injection Hchar' as <-. exact Hrange.
    + injection Hroll as <- _. cbn [character] in Hchar'.
      injection Hchar' as <-. exact Hrange.
  - intros c s f u Htruthy Hs Hf Hu. unfold normalizeCharacterUpdate in Hu.
    bind_inv Hu. injection Hu as <-. cbn [u_deathSaves].
    rewrite Htruthy, Hs, Hf. reflexivity.
  - intros oldChar update. unfold mergeCharacter, mergeDeathSaves.
    cbn [c_deathSaves]. destruct (u_deathSaves update); reflexivity.
Qed.

End DeathSaveRange.

Lemma deathSaves_range_witness :
  exists st' followUp char',
    @handleRoll std_runtime normal
       (dyingState (NInt 10) (NInt 2) (NInt 2))
       (dyingState (NInt 10) (NInt 2) (NInt 2)) 0 (always 0)
    = Rolled st' followUp
    /\ character st' = Some char'
    /\ deathSavesInRange char' = true.
Proof.
  destruct (@handleRoll std_runtime normal
              (dyingState (NInt 10) (NInt 2) (NInt 2))
              (dyingState (NInt 10) (NInt 2) (NInt 2)) 0 (always 0))
    as [| | st' followUp | st' followUp] eqn:Hroll;
    try (vm_compute in Hroll; discriminate Hroll).
  destruct (character st') as [char' |] eqn:Hchar';
    [| vm_compute in Hroll; injection Hroll as <- _; discriminate Hchar'].
  exists st', followUp, char'. split; [reflexivity | split; [exact Hchar' |]].
  exact (proj1 (@deathSaves_range std_runtime) _ _ _ _ _ _ _ _ _
               Hroll eq_refl eq_refl Hchar').
Defined.

(** C5 (as stated) fails: a payload with 7 failures is normalized and
    merged as it is, and a failed save on counters that a merge has put
    below 0 leaves them below 0. *)
Lemma deathSaves_not_clamped :
  (exists st',
      fst (@callAI std_runtime true
             (sampleState gameplay (Some (sampleChar (NInt 14) [])))
             (sampleState gameplay (Some (sampleChar (NInt 14) [])))
             0 false None (answering sevenFailures))
      = Committed st' false
      /\ option_map c_deathSaves (character st')
         = Some (Some (mkDeathSaves (NInt 0) (NInt 7)))
      /\ option_map deathSavesInRange (character st') = Some false)
  /\ (exists st' text,
        @handleRoll std_runtime normal
           (dyingState (NInt 10) (NInt 0) (NInt (-5)))
           (dyingState (NInt 10) (NInt 0) (NInt (-5))) 0 (always 0)
        = Rolled st' (Some text)
        /\ character st' = Some (dyingChar (NInt 0) (NInt (-3)))).
Proof.
  split.
  - eexists. split; [vm_compute; reflexivity |].
    split; vm_compute; reflexivity.
  - do 2 eexists; split; vm_compute; reflexivity.
Qed.

(** ** Well-formed dice expressions *)

Lemma append_assoc_string (a b c : string) :
  String.append a (String.append b c) = String.append (String.append a b) c.
Proof.
  induction a as [| x a IH]; [reflexivity |].
  change (String x (String.append a (String.append b c))
          = String x (String.append (String.append a b) c)).
  f_equal. exact IH.
Qed.

Lemma allChars_app (p : ascii -> bool) (a b : string) :
  allChars p (String.append a b) = allChars p a && allChars p b.
Proof.
  induction a as [| c a IH]; simpl; [reflexivity |].
  rewrite IH. apply andb_assoc.
Qed.

Lemma allChars_impl (p q : ascii -> bool) (s : string) :
  (forall c, p c = true -> q c = true) ->
  allChars p s = true -> allChars q s = true.
Proof.
  intros Hpq. induction s as [| c s IH]; simpl; [reflexivity |].
  intros H. apply andb_true_iff in H as [Hc Hs].
  rewrite (Hpq _ Hc), (IH Hs). reflexivity.
Qed.

Lemma diceChar_plain (c : ascii) :
  diceChar c = true ->
  isAsciiChar c = true /\ lowerAscii c = c
  /\ forall r, wsLen (String c r) = 0%nat.
Proof.
  destruct c as [[] [] [] [] [] [] [] []]; try discriminate; intros _;
    repeat split; intros r; destruct r as [| c2 [| c3 r3]]; reflexivity.
Qed.

Lemma digit_is_diceChar (c : ascii) : isDigit c = true -> diceChar c = true.
Proof. unfold diceChar. intros ->. reflexivity. Qed.

Lemma digit_not_sep (c : ascii) :
  isDigit c = true ->
  negb (Ascii.eqb c "+") = true /\ negb (Ascii.eqb c "d") = true.
Proof.
  destruct c as [[] [] [] [] [] [] [] []]; try discriminate; intros _;
    split; reflexivity.
Qed.

Lemma mapChars_dice (s : string) :
  allChars diceChar s = true ->
  allChars isAsciiChar s = true /\ mapChars lowerAscii s = s.
Proof.
  induction s as [| c s IH]; simpl; [auto |].
  intros H. apply andb_true_iff in H as [Hc Hs].
  destruct (diceChar_plain c Hc) as (Ha & Hl & _).
  destruct (IH Hs) as [IH1 IH2]. rewrite Ha, Hl, IH1, IH2. auto.
Qed.

Lemma stripWsFuel_dice (s : string) :
  forall fuel, allChars diceChar s = true -> stripWsFuel fuel s = s.
Proof.
  induction s as [| c s IH]; intros fuel H.
  - destruct fuel; reflexivity.
  - simpl in H. apply andb_true_iff in H as [Hc Hs].
    destruct (diceChar_plain c Hc) as (_ & _ & Hws).
    destruct fuel as [| fuel]; [reflexivity |].
    cbn [stripWsFuel]. rewrite Hws, (IH fuel Hs). reflexivity.
Qed.

Section DiceText.
Context {R : Runtime}.

Lemma clean_dice (s : string) :
  allChars diceChar s = true -> stripWs (toLowerCase s) = s.
Proof.
  intros H. destruct (mapChars_dice s H) as [Ha Hl].
  unfold toLowerCase. rewrite Ha, Hl. apply stripWsFuel_dice, H.
Qed.

Lemma toNumber_digitsOf (n : Z) : 0 <= n -> toNumber (digitsOf n) = NInt n.
Proof.
  intros Hn. destruct (digitsOf_cons n Hn) as (c & r & Heq & Hall).
  pose proof (readDec_digitsOf n Hn) as Hread. rewrite Heq in *.
  unfold toNumber. rewrite Hall, Hread. reflexivity.
Qed.

End DiceText.

Lemma parseInt_digitsOf (n : Z) : 0 <= n -> parseInt (digitsOf n) = NInt n.
Proof.
  intros Hn. destruct (digitsOf_cons n Hn) as (c & r & Heq & Hall).
  pose proof (readDec_digitsOf n Hn) as Hread. rewrite Heq in *.
  rewrite (parseInt_digits _ _ Hall), Hread. reflexivity.
Qed.

Lemma split_none (sep : ascii) (s : string) :
  allChars (fun c => negb (Ascii.eqb c sep)) s = true -> split sep s = [s].
Proof.
  induction s as [| c s IH]; simpl; [reflexivity |].
  intros H. apply andb_true_iff in H as [Hc Hs].
  apply negb_true_iff in Hc. rewrite Hc, (IH Hs). reflexivity.
Qed.

Lemma split_at (sep : ascii) (a b : string) :
  allChars (fun c => negb (Ascii.eqb c sep)) a = true ->
  split sep (String.append a (String sep b)) = a :: split sep b.
Proof.
  induction a as [| c a IH]; simpl.
  - intros _. rewrite Ascii.eqb_refl. reflexivity.
  - intros H. apply andb_true_iff in H as [Hc Hs].
    apply negb_true_iff in Hc. rewrite Hc, (IH Hs). reflexivity.
Qed.

Lemma digitsOf_digits (n : Z) : 0 <= n -> allChars isDigit (digitsOf n) = true.
Proof.
  intros Hn. destruct (digitsOf_cons n Hn) as (c & r & -> & H). exact H.
Qed.

(** One die shows between 1 and its number of faces. *)
Lemma rollDie_range (faces : Z) (u : Q) :
  0 < faces -> (0 <= u)%Q -> (u < 1)%Q -> 1 <= rollDie faces u <= faces.
Proof.
  intros Hf H0 H1. unfold rollDie.
  assert (Hlo : 0 <= Qfloor (u * inject_Z faces)).
  { rewrite <- (Qfloor_Z 0). apply Qfloor_resp_le.
    apply Qmult_le_0_compat; [assumption |].
    change (inject_Z 0 <= inject_Z faces)%Q. rewrite <- Zle_Qle. lia. }
  assert (Hhi : Qfloor (u * inject_Z faces) < faces).
  { rewrite Zlt_Qlt.
    apply Qle_lt_trans with (u * inject_Z faces)%Q; [apply Qfloor_le |].
    rewrite <- (Qmult_1_l (inject_Z faces)) at 2.
    apply Qmult_lt_compat_r; [| assumption].
    change (inject_Z 0 < inject_Z faces)%Q. rewrite <- Zlt_Qlt. exact Hf. }
  lia.
Qed.

(** The dice of the loop add between 1 and [faces] each. *)
Lemma rollLoop_range (faces : Z) (m : nat) :
  forall total rnd,
    0 < faces ->
    (forall i, (0 <= rnd i)%Q /\ (rnd i < 1)%Q) ->
    total + Z.of_nat m <= fst (rollLoop m faces total rnd)
                       <= total + Z.of_nat m * faces.
Proof.
  induction m as [| m IH]; intros total rnd Hf Hr.
  - simpl. lia.
  - cbn [rollLoop].
    destruct (Hr 0%nat) as [H0 H1].
    pose proof (rollDie_range faces (rnd 0%nat) Hf H0 H1) as Hd.
    specialize (IH (total + rollDie faces (rnd 0%nat)) (advance rnd) Hf
                   (fun i => Hr (S i))).
    rewrite Nat2Z.inj_succ. nia.
Qed.

Lemma d20_range (rnd : rng) :
  (0 <= rnd 0%nat)%Q -> (rnd 0%nat < 1)%Q ->
  exists z, fst (d20 rnd) = NInt z /\ 1 <= z <= 20.
Proof.
  intros H0 H1. eexists. split; [reflexivity |].
  apply rollDie_range; [lia | assumption | assumption].
Qed.

Section DiceBounds.
Context {R : Runtime}.

(** For positive [N] and [F] and a bonus [K] the text [NdF+K] rolls [N]
    dice of [F] faces and adds [K]: the result lies in
    [N + K, N * F + K], whatever the draws. *)
Lemma parseAndRoll_wellformed (n f k : Z) (rnd : rng) :
  0 < n -> 0 < f -> 0 <= k ->
  (forall i, (0 <= rnd i)%Q /\ (rnd i < 1)%Q) ->
  exists total, fst (parseAndRoll (diceText n f k) rnd) = NInt total
                /\ n + k <= total <= n * f + k.
Proof.
  intros Hn Hf Hk Hr.
  pose proof (digitsOf_digits n ltac:(lia)) as Dn.
  pose proof (digitsOf_digits f ltac:(lia)) as Df.
  pose proof (digitsOf_digits k Hk) as Dk.
  assert (Hall : allChars diceChar (diceText n f k) = true).
  { unfold diceText. rewrite allChars_app. cbn [allChars].
    rewrite allChars_app. cbn [allChars].
    rewrite !(allChars_impl _ _ _ digit_is_diceChar) by assumption.
    reflexivity. }
  assert (Hne : String.eqb (diceText n f k) "" = false).
  { unfold diceText. destruct (digitsOf_cons n ltac:(lia)) as (c & r & -> & _).
    reflexivity. }
  assert (Hplus : forall s, allChars isDigit s = true ->
                    allChars (fun c => negb (Ascii.eqb c "+")) s = true).
  { intros s. apply allChars_impl. intros c Hc. apply (digit_not_sep c Hc). }
  assert (Hd : forall s, allChars isDigit s = true ->
                 allChars (fun c => negb (Ascii.eqb c "d")) s = true).
  { intros s. apply allChars_impl. intros c Hc. apply (digit_not_sep c Hc). }
  unfold parseAndRoll. rewrite Hne, (clean_dice _ Hall).
  assert (Hparts : split "+" (diceText n f k)
                   = [diceTextPlain n f; digitsOf k]).
  { replace (diceText n f k)
      with (String.append (diceTextPlain n f) (String "+" (digitsOf k))).
    - rewrite split_at, (split_none _ _ (Hplus _ Dk)); [reflexivity |].
      unfold diceTextPlain. rewrite allChars_app. cbn [allChars].
      rewrite (Hplus _ Dn), (Hplus _ Df). reflexivity.
    - unfold diceText, diceTextPlain. rewrite <- append_assoc_string.
      reflexivity. }
  assert (Hdice : split "d" (diceTextPlain n f) = [digitsOf n; digitsOf f]).
  { unfold diceTextPlain.
    rewrite (split_at _ _ _ (Hd _ Dn)), (split_none _ _ (Hd _ Df)).
    reflexivity. }
  rewrite Hparts. cbn [List.hd]. rewrite Hdice. cbn [List.map].
  rewrite (toNumber_digitsOf n), (toNumber_digitsOf f) by lia.
  rewrite (parseInt_digitsOf k Hk).
  replace (n =? 0) with false by (symmetry; apply Z.eqb_neq; lia).
  replace (f =? 0) with false by (symmetry; apply Z.eqb_neq; lia).
  cbn [orb].
  pose proof (rollLoop_range f (Z.to_nat n) 0 rnd Hf Hr) as Hrange.
  destruct (rollLoop (Z.to_nat n) f 0 rnd) as [total rnd'].
  cbn [fst nadd] in *. rewrite Z2Nat.id in Hrange by lia.
  eexists. split; [reflexivity | lia].
Qed.

End DiceBounds.

Example parseAndRoll_fallbacks :
  @parseAndRoll std_runtime "" (always (1 # 2)) = d20 (always (1 # 2))
  /\ @parseAndRoll std_runtime "fireball" (always (1 # 2)) = d20 (always (1 # 2))
  /\ @parseAndRoll std_runtime "d20" (always (1 # 2)) = d20 (always (1 # 2))
  /\ @parseAndRoll std_runtime "2d6-1" (always (1 # 2)) = d20 (always (1 # 2)).
Proof.
  split; [reflexivity |]. split; [vm_compute; reflexivity |].
  split; vm_compute; reflexivity.
Qed.

Lemma parseAndRoll_wellformed_example :
  exists total,
    fst (@parseAndRoll std_runtime "2d6+1" (always (1 # 2))) = NInt total
    /\ 3 <= total <= 13.
Proof.
  change "2d6+1"%string with (diceText 2 6 1).
  apply (@parseAndRoll_wellformed std_runtime 2 6 1 (always (1 # 2)));
    try lia.
  intros i. split; [discriminate | reflexivity].
Qed.

(** ** Remarks on the edges of the merge *)

Section Remarks.
Context {R : Runtime}.

Lemma get_Ok (v x : value) (k : string) : get v k = Ok x -> x = prop v k.
Proof. destruct v; cbn; congruence. Qed.

(** Every entry that went through [normalizeInventory] carries an
    [equipped] flag: [false] when the payload had none. *)
Lemma normalizeItem_carries_equipped (raw : value) (item : InventoryItem) :
  normalizeItem raw = Ok item ->
  i_equipped item = Some (truthy (prop raw "equipped"))
  /\ i_mechanics item = Some (prop raw "mechanics").
Proof.
  intros H. unfold normalizeItem in H. bind_inv H. injection H as <-.
  cbn [i_equipped i_mechanics].
  repeat match goal with
         | E : get _ _ = Ok _ |- _ => apply get_Ok in E; subst
         end.
  split; reflexivity.
Qed.

End Remarks.

(** The equipped plate armor of the session is restated by an update
    without an [equipped] key: after normalization and merge it is no
    longer equipped and the armor class is back to 10 plus DEX. *)
Example restated_item_is_unequipped :
  exists st',
    @applyResponse std_runtime
       (sampleState gameplay (Some (sampleChar (NInt 14) [plate])))
       (sampleState gameplay (Some (sampleChar (NInt 14) [plate])))
       0 false None
       match @normalizeAIResponse std_runtime plateRestated with
       | Ok resp => resp
       | Throw _ => invalidStructure
       end
    = Ok (Committed st' false)
    /\ option_map (fun c => List.map i_equipped (c_inventory c)) (character st')
       = Some [Some false]
    /\ option_map c_ac (character st') = Some (Some (NInt 12)).
Proof.
  eexists. split; [vm_compute; reflexivity |].
  split; vm_compute; reflexivity.
Qed.

(** * Further properties of the rules and of the session engine *)

(** ** Ability modifier and proficiency bonus *)

(** X1. The ability modifier is the floor of half the distance of the
    score from 10, also below 10: a score of [10 + 2m] or [11 + 2m] gives
    [m], so 9 gives -1 and 1 gives -5; it never decreases as the score
    grows. *)
Theorem getModifier_floor (score : Z) :
  exists m, getModifier (NInt score) = NInt m
            /\ 10 + 2 * m <= score <= 11 + 2 * m
            /\ forall score' m', score <= score' ->
                 getModifier (NInt score') = NInt m' -> m <= m'.
Proof.
  exists ((score - 10) / 2). split; [reflexivity |].
  pose proof (Z.div_mod (score - 10) 2 ltac:(lia)) as Hd.
  pose proof (Z.mod_pos_bound (score - 10) 2 ltac:(lia)) as Hm.
  split; [lia |].
  intros score' m' Hle [= <-].
  apply Z.div_le_mono; lia.
Qed.

(** X2. For the levels 1 to 20 the proficiency bonus is 2 for levels 1-4
    and grows by one every four levels, up to 6 for levels 17-20. *)
Theorem getProficiencyBonus_tiers (level : Z) :
  1 <= level <= 20 ->
  exists p, getProficiencyBonus (NInt level) = NInt p
            /\ 2 <= p <= 6
            /\ 4 * (p - 2) < level <= 4 * (p - 1).
Proof.
  intros Hl. exists ((level - 1) / 4 + 2). split; [reflexivity |].
  pose proof (Z.div_mod (level - 1) 4 ltac:(lia)) as Hd.
  pose proof (Z.mod_pos_bound (level - 1) 4 ltac:(lia)) as Hm.
  lia.
Qed.

Lemma getProficiencyBonus_tiers_witness :
  exists p, getProficiencyBonus (NInt 9) = NInt p
            /\ 2 <= p <= 6 /\ 4 * (p - 2) < 9 <= 4 * (p - 1).
Proof. apply (getProficiencyBonus_tiers 9). lia. Defined.

(** ** What the normalizer guarantees *)

Lemma nor_one_normal (n : jsnum) :
  numeric (nor n (NInt 1)) && negb (numEq (nor n (NInt 1)) (NInt 0)) = true.
Proof. destruct n as [[| p | p] |]; reflexivity. Qed.

Section NormalizerGuarantees.
Context {R : Runtime}.

Lemma coerceNumber_numeric (v : value) (d : jsnum) :
  numeric d = true ->
  exists n, coerceNumber v (Some d) = Some n /\ numeric n = true.
Proof.
  intros Hd. unfold coerceNumber, numeric.
  destruct v as [| | b | n | s | l | fs]; eauto.
  - destruct (isNaN n) eqn:Hn; [eauto |]. exists n. rewrite Hn. auto.
  - destruct (isNaN (parseFloat s)) eqn:Hn; [eauto |].
    exists (parseFloat s). rewrite Hn. auto.
Qed.

Lemma normalizeItem_bad (v : value) :
  badItem v = true -> normalizeItem v = Throw TypeError.
Proof.
  unfold badItem, normalizeItem. intros H.
  destruct (isNullish v) eqn:Hv.
  { destruct v; try discriminate Hv; reflexivity. }
  assert (Hget : forall k, get v k = Ok (prop v k))
    by (intros k; destruct v; try discriminate Hv; reflexivity).
  rewrite !Hget. cbn [bind orb] in *.
  pose proof (coerceString_cases (prop v "name") "Unknown Item") as Hn.
  destruct (hidesToString (prop v "name")).
  - rewrite Hn. reflexivity.
  - destruct Hn as (name & ->). cbn [bind orb] in *.
    pose proof (truthyText_cases (prop v "description")) as Hd.
    rewrite H in Hd. rewrite Hd. reflexivity.
Qed.

Lemma normalizeItem_ok (v : value) :
  badItem v = false ->
  exists item, normalizeItem v = Ok item /\ normalItem item = true.
Proof.
  unfold badItem, normalizeItem. intros H.
  apply orb_false_iff in H as [H Hd]. apply orb_false_iff in H as [Hv Hn].
  assert (Hget : forall k, get v k = Ok (prop v k))
    by (intros k; destruct v; try discriminate Hv; reflexivity).
  rewrite !Hget. cbn [bind].
  pose proof (coerceString_cases (prop v "name") "Unknown Item") as Hname.
  rewrite Hn in Hname. destruct Hname as (name & ->). cbn [bind].
  pose proof (truthyText_cases (prop v "description")) as Hdesc.
  rewrite Hd in Hdesc. destruct Hdesc as (description & ->). cbn [bind].
  eexists. split; [reflexivity |].
  unfold normalItem. cbn [i_quantity i_mechanics i_equipped].
  rewrite andb_true_r.
  destruct (coerceNumber (prop v "quantity") (Some (NInt 1))) as [q |];
    [apply nor_one_normal | reflexivity].
Qed.

(** X3. [normalizeInventory] on an array throws exactly when one of the
    elements is [null] or [undefined], or has a name or a description of
    which [String] cannot take the text (an object with an own [toString]
    key, or an array that holds one), and what it throws is a TypeError.
    Otherwise it returns one entry for each element, each with a quantity
    that is a number other than 0 (a reported 0 becomes 1) and with the
    [mechanics] and [equipped] keys present.  Anything that is not an
    array gives the empty inventory. *)
Theorem normalizeInventory_array (l : list value) :
  match normalizeInventory (VArr l) with
  | Ok items => existsb badItem l = false
                /\ length items = length l
                /\ forallb normalItem items = true
  | Throw e => e = TypeError /\ existsb badItem l = true
  end
  /\ forall v, isArray v = false -> normalizeInventory v = Ok [].
Proof.
  split.
  - cbn [normalizeInventory].
    induction l as [| v l IH]; [cbn; auto |].
    cbn [mapM existsb].
    destruct (badItem v) eqn:Hv.
    + rewrite (normalizeItem_bad v Hv). cbn. auto.
    + destruct (normalizeItem_ok v Hv) as (item & -> & Hitem).
      cbn [bind orb].
      destruct (mapM normalizeItem l) as [items | e]; cbn [bind].
      * destruct IH as (H1 & H2 & H3). cbn [length forallb].
        rewrite Hitem, H2, H3. auto.
      * exact IH.
  - intros v Hv. destruct v; try discriminate; reflexivity.
Qed.

Lemma hpLike_floor (v : value) :
  atLeast 1 (match coerceNumber v (Some (NInt 1)) with
             | Some val => nmax (NInt 1) val
             | None => NInt 1
             end) = true.
Proof.
  destruct (coerceNumber_numeric v (NInt 1) eq_refl) as (n & -> & Hn).
  destruct n as [z |]; [| discriminate].
  unfold atLeast, nmax, nge. apply Z.leb_le. lia.
Qed.

Lemma normalizeCharacterUpdate_hp (c : value) (u : CharacterUpdate) :
  normalizeCharacterUpdate c = Ok u ->
  (forall n, u_hp u = Some n -> atLeast 1 n = true)
  /\ (forall n, u_maxHp u = Some n -> atLeast 1 n = true).
Proof.
  intros Hu. unfold normalizeCharacterUpdate in Hu. bind_inv Hu.
  injection Hu as <-. cbn [u_hp u_maxHp].
  split; intros n;
    match goal with
    | |- context [isUndefined ?p] => destruct (isUndefined p)
    end; try discriminate; intros [= <-]; apply hpLike_floor.
Qed.

(** X4. The hit points and the maximum of a normalized character update
    are numbers of at least 1, whatever the payload held (text, 0, a
    negative number, [null]).  So a character whose hit points and maximum
    are at least 1 keeps both at least 1 through the merge of any
    normalized update. *)
Theorem merged_hp_at_least_1 (c : value) (u : CharacterUpdate)
  (oldChar : Character) :
  normalizeCharacterUpdate c = Ok u ->
  atLeast 1 (c_hp oldChar) = true ->
  atLeast 1 (c_maxHp oldChar) = true ->
  atLeast 1 (c_hp (mergeCharacter oldChar u)) = true
  /\ atLeast 1 (c_maxHp (mergeCharacter oldChar u)) = true
  /\ (forall n, u_hp u = Some n -> atLeast 1 n = true)
  /\ (forall n, u_maxHp u = Some n -> atLeast 1 n = true).
Proof.
  intros Hu Hhp Hmax.
  destruct (normalizeCharacterUpdate_hp c u Hu) as [H1 H2].
  cbn [mergeCharacter c_hp c_maxHp].
  repeat split; try assumption.
  - destruct (u_hp u) as [n |]; cbn [pick]; auto.
  - destruct (u_maxHp u) as [n |]; cbn [pick]; auto.
Qed.

(** X5. A check that went through the normalizer has a difficulty that
    is a number other than 0 (10 when the payload had none, or 0, or text
    that is no number), so the roll is made against that very number; a
    payload that is no object yields no check; and the normalizer throws
    nothing but a TypeError, and only on an object. *)
Theorem normalizeCheck_difficulty (rawCheck : value) :
  match normalizeCheck rawCheck with
  | Ok (Some check) =>
      isObject rawCheck = true
      /\ numeric (k_difficulty check) = true
      /\ numEq (k_difficulty check) (NInt 0) = false
      /\ nor (k_difficulty check) (NInt 10) = k_difficulty check
  | Ok None => truthy rawCheck && isObject rawCheck = false
  | Throw e => e = TypeError /\ isObject rawCheck = true
  end.
Proof.
  destruct (normalizeCheck rawCheck) as [[check |] | e] eqn:H;
    unfold normalizeCheck in H;
    destruct (truthy rawCheck) eqn:Ht; cbn [negb orb andb] in H;
    try discriminate H; try reflexivity;
    destruct (isObject rawCheck) eqn:Ho; cbn [negb] in H;
    try discriminate H; try reflexivity.
  - bind_inv H. injection H as <-. cbn [k_difficulty].
    split; [reflexivity |].
    destruct (coerceNumber_numeric (prop rawCheck "difficulty") (NInt 10)
                                   eq_refl) as (n & -> & Hn).
    destruct n as [[| p | p] |]; try discriminate; repeat split; reflexivity.
  - bind_inv H. discriminate H.
  - split; [| reflexivity].
    bind_throw H ltac:(eauto using coerceString_TypeError, truthyText_TypeError).
    discriminate H.
Qed.

Lemma normalizeAttributes_numeric (rawAttrs : value) (pa : PartialAttributes) :
  normalizeAttributes rawAttrs = Some pa ->
  forall get_ : PartialAttributes -> option jsnum,
    In get_ [pa_str; pa_dex; pa_con; pa_int; pa_wis; pa_cha] ->
    forall n, get_ pa = Some n -> numeric n = true.
Proof.
  unfold normalizeAttributes.
  destruct (negb (truthy rawAttrs) || negb (isObject rawAttrs)); [discriminate |].
  intros [= <-] get_ Hin n.
  assert (Hkey : forall k,
            (if isUndefined (prop rawAttrs k) then None
             else coerceNumber (prop rawAttrs k) (Some (NInt 10))) = Some n ->
            numeric n = true).
  { intros k. destruct (isUndefined (prop rawAttrs k)); [discriminate |].
    destruct (coerceNumber_numeric (prop rawAttrs k) (NInt 10) eq_refl)
      as (m & -> & Hm).
    intros [= <-]. exact Hm. }
  cbn [In] in Hin.
  destruct Hin as [<- | [<- | [<- | [<- | [<- | [<- | []]]]]]]; apply Hkey.
Qed.

(** X6. The attributes of a normalized update are numbers (10 where the
    payload held something that is no number), so the merge of a
    normalized update keeps all six attributes of a character numbers:
    no NaN enters the ability scores. *)
Theorem merged_attributes_numeric (rawAttrs : value) (pa : PartialAttributes)
  (old : Attributes) :
  normalizeAttributes rawAttrs = Some pa ->
  numericAttributes old = true ->
  numericAttributes (mergeAttributes old (Some pa)) = true.
Proof.
  intros Hpa Hold.
  pose proof (normalizeAttributes_numeric rawAttrs pa Hpa) as Hnum.
  unfold numericAttributes in *.
  repeat (apply andb_true_iff in Hold as [Hold ?]).
  cbn [mergeAttributes a_str a_dex a_con a_int a_wis a_cha].
  assert (Hp : forall get_ d,
            In get_ [pa_str; pa_dex; pa_con; pa_int; pa_wis; pa_cha] ->
            numeric d = true -> numeric (pick (get_ pa) d) = true).
  { intros get_ d Hin Hd. destruct (get_ pa) as [n |] eqn:Hg; cbn [pick];
      [apply (Hnum get_ Hin n Hg) | exact Hd]. }
  rewrite !Hp; cbn [In]; auto 10.
Qed.

Lemma hasAmmo_app (a b : list InventoryItem) :
  hasAmmo (a ++ b) = hasAmmo a || hasAmmo b.
Proof. apply existsb_app. Qed.

(** X7. The ammunition check of the normalizer only ever appends: an
    inventory without a ranged weapon, or with ammunition, is returned as
    it is; whenever there is a ranged weapon the result holds ammunition;
    and checking twice adds nothing more. *)
Theorem ensureAmmo_once (inv : list InventoryItem) :
  (ensureAmmo inv = inv \/ ensureAmmo inv = inv ++ [ammoStack])
  /\ (if hasRanged inv then hasAmmo (ensureAmmo inv) = true
      else ensureAmmo inv = inv)
  /\ (if hasAmmo inv then ensureAmmo inv = inv else True)
  /\ ensureAmmo (ensureAmmo inv) = ensureAmmo inv.
Proof.
  assert (Hstack : hasAmmo (inv ++ [ammoStack]) = true).
  { rewrite hasAmmo_app. apply orb_true_r. }
  destruct (hasRanged inv) eqn:Hr, (hasAmmo inv) eqn:Ha.
  2: { assert (He : ensureAmmo inv = inv ++ [ammoStack])
         by (unfold ensureAmmo; rewrite Hr, Ha; reflexivity).
       rewrite He. split; [right; reflexivity |].
       split; [exact Hstack |]. split; [exact I |].
       unfold ensureAmmo. rewrite Hstack, andb_false_r. reflexivity. }
  all: assert (He : ensureAmmo inv = inv)
         by (unfold ensureAmmo; rewrite Hr, Ha; reflexivity).
  all: rewrite !He; repeat split; auto.
Qed.

End NormalizerGuarantees.

Lemma merged_hp_at_least_1_witness :
  exists u,
    @normalizeCharacterUpdate std_runtime
       (VObj [("hp", VStr "-3"); ("maxHp", VNum (NInt 0))]) = Ok u
    /\ u_hp u = Some (NInt 1) /\ u_maxHp u = Some (NInt 1)
    /\ atLeast 1 (c_hp (@mergeCharacter std_runtime DUMMY_CHAR u)) = true.
Proof.
  destruct (@normalizeCharacterUpdate std_runtime
              (VObj [("hp", VStr "-3"); ("maxHp", VNum (NInt 0))]))
    as [u |] eqn:Hu; [| vm_compute in Hu; discriminate Hu].
  destruct (@merged_hp_at_least_1 std_runtime _ u DUMMY_CHAR Hu
              eq_refl eq_refl) as (H1 & _ & _ & _).
  exists u. split; [reflexivity |].
  vm_compute in Hu. injection Hu as <-.
  split; [reflexivity |]. split; [reflexivity | exact H1].
Defined.

Lemma merged_attributes_numeric_witness :
  numericAttributes
    (mergeAttributes (c_attributes DUMMY_CHAR)
       (@normalizeAttributes std_runtime
          (VObj [("str", VStr "strong"); ("dex", VStr "16")])))
  = true.
Proof.
  destruct (@normalizeAttributes std_runtime
              (VObj [("str", VStr "strong"); ("dex", VStr "16")]))
    as [pa |] eqn:Hpa; [| vm_compute in Hpa; discriminate Hpa].
  exact (@merged_attributes_numeric std_runtime _ pa
           (c_attributes DUMMY_CHAR) Hpa eq_refl).
Defined.

(** ** Dice: expressions without a [d], and the draws a roll uses *)

Lemma split_hd_allChars (p : ascii -> bool) (sep : ascii) (s : string) :
  allChars p s = true -> allChars p (List.hd EmptyString (split sep s)) = true.
Proof.
  induction s as [| c s IH]; [reflexivity |].
  cbn [allChars split]. intros H. apply andb_true_iff in H as [Hc Hs].
  destruct (Ascii.eqb c sep); [reflexivity |].
  specialize (IH Hs).
  destruct (split sep s) as [| h t]; cbn [List.hd allChars] in *.
  - rewrite Hc. reflexivity.
  - rewrite Hc, IH. reflexivity.
Qed.

Lemma rollLoop_draws (m : nat) (faces : Z) :
  forall total rnd i, snd (rollLoop m faces total rnd) i = rnd (m + i)%nat.
Proof.
  induction m as [| m IH]; intros total rnd i; [reflexivity |].
  cbn [rollLoop]. rewrite IH. unfold advance.
  f_equal; lia.
Qed.

Section DiceDraws.
Context {R : Runtime}.

(** X8. A dice text that, once lowered and stripped of white space,
    holds no [d] at all (a bare number, a word, the empty text) is rolled
    as one d20: the result lies between 1 and 20 and exactly one draw is
    used. *)
Theorem parseAndRoll_without_d (diceString : string) (rnd : rng) :
  allChars (fun c => negb (Ascii.eqb c "d"))
           (stripWs (toLowerCase diceString)) = true ->
  (0 <= rnd 0%nat)%Q -> (rnd 0%nat < 1)%Q ->
  parseAndRoll diceString rnd = d20 rnd
  /\ snd (parseAndRoll diceString rnd) = advance rnd
  /\ exists z, fst (parseAndRoll diceString rnd) = NInt z /\ 1 <= z <= 20.
Proof.
  intros Hd H0 H1.
  assert (Heq : parseAndRoll diceString rnd = d20 rnd).
  { unfold parseAndRoll.
    destruct (String.eqb diceString ""); [reflexivity |].
    cbv zeta.
    rewrite (split_none "d" _ (split_hd_allChars _ "+" _ Hd)).
    cbn [List.map].
    destruct (toNumber _); reflexivity. }
  rewrite Heq. split; [reflexivity |]. split; [reflexivity |].
  apply d20_range; assumption.
Qed.

Lemma parseAndRoll_diceText (n f k : Z) (rnd : rng) :
  0 < n -> 0 < f -> 0 <= k ->
  parseAndRoll (diceText n f k) rnd
  = (NInt (fst (rollLoop (Z.to_nat n) f 0 rnd) + k),
     snd (rollLoop (Z.to_nat n) f 0 rnd)).
Proof.
  intros Hn Hf Hk.
  pose proof (digitsOf_digits n ltac:(lia)) as Dn.
  pose proof (digitsOf_digits f ltac:(lia)) as Df.
  pose proof (digitsOf_digits k Hk) as Dk.
  assert (Hall : allChars diceChar (diceText n f k) = true).
  { unfold diceText. rewrite allChars_app. cbn [allChars].
    rewrite allChars_app. cbn [allChars].
    rewrite !(allChars_impl _ _ _ digit_is_diceChar) by assumption.
    reflexivity. }
  assert (Hne : String.eqb (diceText n f k) "" = false).
  { unfold diceText. destruct (digitsOf_cons n ltac:(lia)) as (c & r & -> & _).
    reflexivity. }
  assert (Hsep : forall sep, sep = "+"%char \/ sep = "d"%char ->
                 forall s, allChars isDigit s = true ->
                   allChars (fun c => negb (Ascii.eqb c sep)) s = true).
  { intros sep Hs s. apply allChars_impl. intros c Hc.
    destruct Hs as [-> | ->]; apply (digit_not_sep c Hc). }
  unfold parseAndRoll. rewrite Hne, (clean_dice _ Hall).
  replace (diceText n f k)
    with (String.append (diceTextPlain n f) (String "+" (digitsOf k)))
    by (unfold diceText, diceTextPlain; rewrite <- append_assoc_string;
        reflexivity).
  rewrite split_at, (split_none _ _ (Hsep "+"%char (or_introl eq_refl) _ Dk)).
  2: { unfold diceTextPlain. rewrite allChars_app. cbn [allChars].
       rewrite !(Hsep "+"%char (or_introl eq_refl)) by assumption.
       reflexivity. }
  cbn [List.hd]. unfold diceTextPlain.
  rewrite (split_at _ _ _ (Hsep "d"%char (or_intror eq_refl) _ Dn)),
          (split_none _ _ (Hsep "d"%char (or_intror eq_refl) _ Df)).
  cbn [List.map].
  rewrite (toNumber_digitsOf n), (toNumber_digitsOf f) by lia.
  rewrite (parseInt_digitsOf k Hk).
  replace (n =? 0) with false by (symmetry; apply Z.eqb_neq; lia).
  replace (f =? 0) with false by (symmetry; apply Z.eqb_neq; lia).
  cbn [orb].
  destruct (rollLoop (Z.to_nat n) f 0 rnd) as [total rnd'].
  reflexivity.
Qed.

(** X9. Rolling the text [NdF+K] uses exactly [N] draws of the random
    stream, one for each die in order, and leaves the stream at the draw
    after them: the second roll of a roll with advantage or disadvantage
    is made on draws of its own. *)
Theorem parseAndRoll_draws (n f k : Z) (rnd : rng) :
  0 < n -> 0 < f -> 0 <= k ->
  (forall i, snd (parseAndRoll (diceText n f k) rnd) i
             = rnd (Z.to_nat n + i)%nat)
  /\ fst (parseAndRoll (diceText n f k) rnd)
     = NInt (fst (rollLoop (Z.to_nat n) f 0 rnd) + k)
  /\ fst (parseAndRoll (diceText n f k)
                       (snd (parseAndRoll (diceText n f k) rnd)))
     = NInt (fst (rollLoop (Z.to_nat n) f 0
                           (fun i => rnd (Z.to_nat n + i)%nat)) + k).
Proof.
  intros Hn Hf Hk.
  rewrite !(parseAndRoll_diceText n f k) by assumption.
  cbn [fst snd].
  split; [intros i; apply rollLoop_draws |].
  split; [reflexivity |].
  f_equal. f_equal.
  assert (Hext : forall m total r1 r2,
            (forall i, r1 i = r2 i) ->
            fst (rollLoop m f total r1) = fst (rollLoop m f total r2)).
  { induction m as [| m IH]; intros total r1 r2 Hr; [reflexivity |].
    cbn [rollLoop]. rewrite (Hr 0%nat).
    apply IH. intros i. apply Hr. }
  apply Hext. intros i. apply rollLoop_draws.
Qed.

End DiceDraws.

Lemma parseAndRoll_without_d_witness :
  exists z, fst (@parseAndRoll std_runtime "Fireball" (always (1 # 2))) = NInt z
            /\ 1 <= z <= 20.
Proof.
  apply (@parseAndRoll_without_d std_runtime "Fireball" (always (1 # 2)));
    [vm_compute; reflexivity | discriminate | reflexivity].
Defined.

Lemma parseAndRoll_draws_witness :
  fst (@parseAndRoll std_runtime (diceText 2 6 1) (always (1 # 2)))
  = NInt (fst (rollLoop 2 6 0 (always (1 # 2))) + 1).
Proof.
  apply (@parseAndRoll_draws std_runtime 2 6 1 (always (1 # 2))); lia.
Defined.

(** ** Armor class: what is read of the inventory *)

Section ArmorClassFrame.
Context {R : Runtime}.

Lemma acStep_not_worn (dexMod : jsnum) (st : AcState) (item : InventoryItem) :
  wornArmor item = false -> acStep dexMod st item = Ok st.
Proof.
  unfold wornArmor, acStep, isArmor.
  destruct (isEquipped item); cbn [negb andb]; [| reflexivity].
  destruct (i_type item); try reflexivity. discriminate.
Qed.

Lemma foldM_worn (dexMod : jsnum) (inv : list InventoryItem) :
  forall st, foldM (acStep dexMod) st (List.filter wornArmor inv)
             = foldM (acStep dexMod) st inv.
Proof.
  induction inv as [| i inv IH]; intros st; [reflexivity |].
  cbn [List.filter]. destruct (wornArmor i) eqn:Hw; cbn [foldM].
  - destruct (acStep dexMod st i); cbn [bind]; [apply IH | reflexivity].
  - rewrite (acStep_not_worn _ _ _ Hw). cbn [bind]. apply IH.
Qed.

(** The stored armor class is not read. *)
Lemma calculateArmorClass_stored_ac (char : Character) (ac : option jsnum) :
  calculateArmorClass (setInventoryAc char (c_inventory char) ac)
  = calculateArmorClass char.
Proof. reflexivity. Qed.

(** X10. The armor class reads nothing of a character but the dexterity
    score and the entries that are both equipped and of type armor:
    weapons, consumables, anything lying in the pack, and every other
    field of the character (the stored [ac] included) never change the
    result, nor whether the computation throws. *)
Theorem calculateArmorClass_worn_only (char char' : Character) :
  a_dex (c_attributes char') = a_dex (c_attributes char) ->
  List.filter wornArmor (c_inventory char')
  = List.filter wornArmor (c_inventory char) ->
  calculateArmorClass char' = calculateArmorClass char.
Proof.
  intros Hdex Hinv. unfold calculateArmorClass.
  rewrite Hdex.
  rewrite <- (foldM_worn _ (c_inventory char')),
          <- (foldM_worn _ (c_inventory char)), Hinv.
  reflexivity.
Qed.

End ArmorClassFrame.

Lemma calculateArmorClass_worn_only_witness :
  @calculateArmorClass std_runtime
     (sampleChar (NInt 14) [longbow; plate; leatherInPack])
  = @calculateArmorClass std_runtime (sampleChar (NInt 14) [plate]).
Proof.
  apply (@calculateArmorClass_worn_only std_runtime
           (sampleChar (NInt 14) [plate])
           (sampleChar (NInt 14) [longbow; plate; leatherInPack]));
    reflexivity.
Defined.

(** ** Rests *)

Lemma nor_number (a : jsnum) (d : Z) : exists f, nor a (NInt d) = NInt f.
Proof. destruct a as [[| p | p] |]; eexists; reflexivity. Qed.

Lemma restored_slots (slots : list (string * SpellSlot)) :
  List.map fst (List.map (fun '(lvl, slot) => (lvl, restoreSlot slot)) slots)
  = List.map fst slots
  /\ List.map (fun ls => ss_current (snd ls))
              (List.map (fun '(lvl, slot) => (lvl, restoreSlot slot)) slots)
     = List.map (fun ls => ss_max (snd ls)) slots
  /\ List.map (fun ls => ss_max (snd ls))
              (List.map (fun '(lvl, slot) => (lvl, restoreSlot slot)) slots)
     = List.map (fun ls => ss_max (snd ls)) slots.
Proof.
  induction slots as [| [lvl slot] slots (IH1 & IH2 & IH3)];
    [repeat split |].
  cbn [List.map fst snd restoreSlot ss_current ss_max].
  rewrite IH1, IH2, IH3. repeat split.
Qed.

(** X11. A long rest always succeeds.  It sets the hit points to the
    maximum, clears the death saves and the conditions, and refills
    every spell slot to its maximum, keeping the slot levels and their
    maxima; the healed amount it reports is the distance to the maximum.
    Identity, level, experience, attributes, inventory and gold are
    untouched. *)
Theorem performLongRest_restores (char : Character) :
  success (performLongRest char) = true
  /\ c_hp (rest_character (performLongRest char)) = c_maxHp char
  /\ c_maxHp (rest_character (performLongRest char)) = c_maxHp char
  /\ c_deathSaves (rest_character (performLongRest char))
     = Some (mkDeathSaves (NInt 0) (NInt 0))
  /\ c_conditions (rest_character (performLongRest char)) = []
  /\ List.map fst (c_spellSlots (rest_character (performLongRest char)))
     = List.map fst (c_spellSlots char)
  /\ List.map (fun ls => ss_current (snd ls))
              (c_spellSlots (rest_character (performLongRest char)))
     = List.map (fun ls => ss_max (snd ls)) (c_spellSlots char)
  /\ List.map (fun ls => ss_max (snd ls))
              (c_spellSlots (rest_character (performLongRest char)))
     = List.map (fun ls => ss_max (snd ls)) (c_spellSlots char)
  /\ healedAmount (performLongRest char) = nsub (c_maxHp char) (c_hp char)
  /\ hitDiceSpent (performLongRest char) = NInt 0
  /\ setRested (rest_character (performLongRest char)) (c_hp char)
       (hd_current (c_hitDice char)) (c_spellSlots char)
       (c_deathSaves char) (c_conditions char)
     = setRested char (c_hp char) (hd_current (c_hitDice char))
         (c_spellSlots char) (c_deathSaves char) (c_conditions char).
Proof.
  cbn [performLongRest success rest_character healedAmount hitDiceSpent
       setRested c_hp c_maxHp c_deathSaves c_conditions c_spellSlots].
  do 5 (split; [reflexivity |]).
  do 3 (split; [apply restored_slots |]).
  do 2 (split; [reflexivity |]).
  reflexivity.
Qed.

(** X12. A long rest gives back half of the hit dice, rounded down and
    at least one, never beyond the maximum: with [cur] of [max] dice
    left the character has [min max (cur + max 1 (max / 2))] afterwards,
    which is never fewer than before and is more whenever dice were
    missing. *)
Theorem performLongRest_hit_dice (char : Character) (cur max : Z) :
  hd_current (c_hitDice char) = NInt cur ->
  hd_max (c_hitDice char) = NInt max ->
  0 <= cur <= max ->
  exists new,
    hd_current (c_hitDice (rest_character (performLongRest char))) = NInt new
    /\ new = Z.min max (cur + Z.max 1 (max / 2))
    /\ cur <= new <= max
    /\ (cur < max -> cur < new)
    /\ hd_max (c_hitDice (rest_character (performLongRest char))) = NInt max
    /\ hd_face (c_hitDice (rest_character (performLongRest char)))
       = hd_face (c_hitDice char).
Proof.
  intros Hcur Hmax Hr.
  cbn [performLongRest rest_character setRested c_hitDice hd_current hd_max
       hd_face].
  rewrite Hcur, Hmax. cbn [floorDiv nmax nadd nmin].
  eexists. split; [reflexivity |]. split; [reflexivity |].
  pose proof (Z.div_pos max 2 ltac:(lia) ltac:(lia)) as Hd.
  repeat split; try reflexivity; lia.
Qed.

(** X13. A short rest of a character whose hit points, maximum, hit
    dice and constitution are numbers.  Below the maximum and with a hit
    die left it succeeds: it spends exactly one hit die and one draw,
    heals an amount that is never negative, and the hit points neither
    drop nor pass the maximum.  At full health or without hit dice it is
    refused: the character is returned as it was and nothing is drawn. *)
Theorem performShortRest_bounds (char : Character) (rnd : rng)
  (hp maxHp cur con : Z) :
  c_hp char = NInt hp -> c_maxHp char = NInt maxHp ->
  hd_current (c_hitDice char) = NInt cur ->
  a_con (c_attributes char) = NInt con ->
  if (hp <? maxHp) && (0 <? cur)
  then success (fst (performShortRest char rnd)) = true
       /\ hitDiceSpent (fst (performShortRest char rnd)) = NInt 1
       /\ snd (performShortRest char rnd) = advance rnd
       /\ hd_current (c_hitDice (rest_character (fst (performShortRest char rnd))))
          = NInt (cur - 1)
       /\ exists heal,
            healedAmount (fst (performShortRest char rnd)) = NInt heal
            /\ 0 <= heal
            /\ c_hp (rest_character (fst (performShortRest char rnd)))
               = NInt (Z.min maxHp (hp + heal))
            /\ hp <= Z.min maxHp (hp + heal) <= maxHp
  else success (fst (performShortRest char rnd)) = false
       /\ rest_character (fst (performShortRest char rnd)) = char
       /\ healedAmount (fst (performShortRest char rnd)) = NInt 0
       /\ hitDiceSpent (fst (performShortRest char rnd)) = NInt 0
       /\ snd (performShortRest char rnd) = rnd.
Proof.
  intros Hhp Hmax Hcur Hcon. unfold performShortRest.
  rewrite Hhp, Hmax, Hcur, Hcon. cbn [nge].
  rewrite (Z.leb_antisym hp maxHp), (Z.leb_antisym 0 cur).
  destruct (hp <? maxHp) eqn:E1; cbn [negb andb];
    [| repeat split; reflexivity].
  destruct (0 <? cur) eqn:E2; cbn [negb]; [| repeat split; reflexivity].
  destruct (nor_number (parseInt (removeFirst "1d" (hd_face (c_hitDice char)))) 8)
    as [f ->].
  cbn [fst snd success hitDiceSpent healedAmount rest_character setRested
       c_hitDice hd_current c_hp rollFace getModifier nsub floorDiv nadd
       nmax nmin].
  do 4 (split; [reflexivity |]).
  eexists. split; [reflexivity |].
  apply Z.ltb_lt in E1. repeat split; try reflexivity; lia.
Qed.

Lemma dieFace_wellformed (f : Z) :
  0 < f ->
  nor (parseInt (removeFirst "1d" (String.append "1d" (digitsOf f)))) (NInt 8)
  = NInt f.
Proof.
  intros Hf.
  change (removeFirst "1d" (String.append "1d" (digitsOf f))) with (digitsOf f).
  rewrite (parseInt_digitsOf f ltac:(lia)).
  destruct f; try lia. reflexivity.
Qed.

(** X14. With a hit die written [1dF] for a positive [F], a short rest
    that is taken rolls one die of [F] faces and heals the roll plus the
    constitution modifier, or nothing when that sum is negative; the hit
    points rise by that amount up to the maximum. *)
Theorem performShortRest_die (char : Character) (rnd : rng)
  (hp maxHp cur con f : Z) :
  c_hp char = NInt hp -> c_maxHp char = NInt maxHp ->
  hd_current (c_hitDice char) = NInt cur ->
  a_con (c_attributes char) = NInt con ->
  hd_face (c_hitDice char) = String.append "1d" (digitsOf f) ->
  0 < f -> hp < maxHp -> 0 < cur ->
  (0 <= rnd 0%nat)%Q -> (rnd 0%nat < 1)%Q ->
  exists roll,
    1 <= roll <= f
    /\ healedAmount (fst (performShortRest char rnd))
       = NInt (Z.max 0 (roll + (con - 10) / 2))
    /\ c_hp (rest_character (fst (performShortRest char rnd)))
       = NInt (Z.min maxHp (hp + Z.max 0 (roll + (con - 10) / 2))).
Proof.
  intros Hhp Hmax Hcur Hcon Hface Hf Hlt Hpos H0 H1.
  unfold performShortRest.
  rewrite Hhp, Hmax, Hcur, Hcon, Hface, (dieFace_wellformed f Hf).
  cbn [nge].
  replace (maxHp <=? hp) with false by (symmetry; apply Z.leb_gt; lia).
  replace (cur <=? 0) with false by (symmetry; apply Z.leb_gt; lia).
  cbn [fst healedAmount rest_character setRested c_hp rollFace getModifier
       nsub floorDiv nadd nmax nmin].
  exists (rollDie f (rnd 0%nat)).
  split; [apply rollDie_range; assumption |].
  split; reflexivity.
Qed.

(** A short rest right after a long rest is refused for full
    health, whatever the character was, provided its maximum is a
    number. *)
Theorem short_rest_after_long_rest (char : Character) (rnd : rng) (maxHp : Z) :
  c_maxHp char = NInt maxHp ->
  performShortRest (rest_character (performLongRest char)) rnd
  = (refusedRest (rest_character (performLongRest char))
                 "Здоровье уже полное.", rnd).
Proof.
  intros Hmax. unfold performShortRest.
  cbn [performLongRest rest_character setRested c_hp c_maxHp].
  rewrite Hmax. cbn [nge]. rewrite Z.leb_refl. reflexivity.
Qed.

(** X15. [handleRest] with a character in the session: the phase, the
    world, the options, the pending check and the level-up choices stay,
    and the log grows by exactly one system entry, the summary of the
    rest.  A long rest always sends the narrator a follow-up and uses no
    draw; a short rest at full health sends none and leaves the character
    as it was.  Without a character nothing happens. *)
Theorem handleRest_outcome (type : RestType) (state : GameState) (now : Z)
  (rnd : rng) (char : Character) :
  character state = Some char ->
  exists newState followUp rnd',
    handleRest type state now rnd = (Rested newState followUp, rnd')
    /\ phase newState = phase state /\ world newState = world state
    /\ currentOptions newState = currentOptions state
    /\ pendingCheck newState = pendingCheck state
    /\ levelUpChoices newState = levelUpChoices state
    /\ (exists text,
          history newState
          = history state ++ [systemEntry now (String.append "[SYSTEM]: " text)])
    /\ match type with
       | long => followUp <> None /\ rnd' = rnd
                 /\ character newState
                    = Some (rest_character (performLongRest char))
       | short =>
           character newState
           = Some (rest_character (fst (performShortRest char rnd)))
           /\ (followUp = None
               <-> success (fst (performShortRest char rnd)) = false)
           /\ (nge (c_hp char) (c_maxHp char) = true ->
               followUp = None /\ character newState = Some char
               /\ rnd' = rnd)
       end.
Proof.
  intros Hchar. unfold handleRest. rewrite Hchar.
  destruct type.
  - destruct (performShortRest char rnd) as [result rnd1] eqn:Hrest.
    do 3 eexists. split; [reflexivity |].
    cbn [phase world currentOptions pendingCheck levelUpChoices history
         character setHistoryCharacter fst].
    do 5 (split; [reflexivity |]).
    split; [eexists; reflexivity |].
    split; [reflexivity |].
    split.
    + destruct (success result); split; intros H; try discriminate;
        try reflexivity.
    + intros Hfull. unfold performShortRest in Hrest.
      rewrite Hfull in Hrest. injection Hrest as <- <-.
      repeat split.
  - do 3 eexists. split; [reflexivity |].
    cbn [phase world currentOptions pendingCheck levelUpChoices history
         character setHistoryCharacter performLongRest success].
    do 5 (split; [reflexivity |]).
    split; [eexists; reflexivity |].
    repeat split. discriminate.
Qed.

Lemma performLongRest_hit_dice_witness :
  exists new,
    hd_current (c_hitDice (rest_character
                  (performLongRest (woundedChar 4 1 8 "1d8")))) = NInt new
    /\ 1 < new.
Proof.
  destruct (performLongRest_hit_dice (woundedChar 4 1 8 "1d8") 1 3
              eq_refl eq_refl ltac:(lia))
    as (new & Hnew & _ & _ & Hgrow & _).
  exists new. split; [exact Hnew | apply Hgrow; lia].
Defined.

Lemma performShortRest_bounds_witness :
  success (fst (performShortRest (woundedChar 4 1 8 "1d8") (always (1 # 2))))
  = true
  /\ success (fst (performShortRest (woundedChar 10 1 8 "1d8") (always (1 # 2))))
     = false.
Proof.
  split.
  - apply (performShortRest_bounds (woundedChar 4 1 8 "1d8") (always (1 # 2))
             4 10 1 8 eq_refl eq_refl eq_refl eq_refl).
  - apply (performShortRest_bounds (woundedChar 10 1 8 "1d8") (always (1 # 2))
             10 10 1 8 eq_refl eq_refl eq_refl eq_refl).
Defined.

Lemma performShortRest_die_witness :
  exists roll,
    1 <= roll <= 8
    /\ healedAmount (fst (performShortRest (woundedChar 4 1 8 "1d8")
                                           (always (1 # 2))))
       = NInt (Z.max 0 (roll + (8 - 10) / 2)).
Proof.
  destruct (performShortRest_die (woundedChar 4 1 8 "1d8") (always (1 # 2))
              4 10 1 8 8 eq_refl eq_refl eq_refl eq_refl eq_refl
              ltac:(lia) ltac:(lia) ltac:(lia)
              ltac:(discriminate) ltac:(reflexivity))
    as (roll & Hr & Hh & _).
  exists roll. split; [exact Hr | exact Hh].
Defined.

Lemma short_rest_after_long_rest_witness :
  success (fst (performShortRest
                  (rest_character (performLongRest (woundedChar 4 1 8 "1d8")))
                  (always (1 # 2))))
  = false.
Proof.
  rewrite (short_rest_after_long_rest (woundedChar 4 1 8 "1d8")
             (always (1 # 2)) 10 eq_refl).
  reflexivity.
Defined.

Lemma handleRest_outcome_witness :
  exists newState followUp rnd',
    handleRest long (sampleState gameplay (Some (woundedChar 4 1 8 "1d8")))
               1000 (always (1 # 2))
    = (Rested newState followUp, rnd')
    /\ followUp <> None.
Proof.
  destruct (handleRest_outcome long
              (sampleState gameplay (Some (woundedChar 4 1 8 "1d8")))
              1000 (always (1 # 2)) (woundedChar 4 1 8 "1d8") eq_refl)
    as (newState & followUp & rnd' & H & _ & _ & _ & _ & _ & _ & Hf & _).
  exists newState, followUp, rnd'. split; [exact H | exact Hf].
Defined.

(** ** Committing a response *)

Section CommitFacts.
Context {R : Runtime}.

(** What a committed response has written, field by field. *)
Lemma applyResponse_committed
  (currentState latest : GameState) (now : Z) (isHelpRequest : bool)
  (injectedHistory : option (list LogEntry)) (jsonResponse : AIResponse)
  (newState : GameState) (autoIntro : bool) :
  applyResponse currentState latest now isHelpRequest injectedHistory
                jsonResponse = Ok (Committed newState autoIntro) ->
  isHelpRequest = false
  /\ someOr (r_validationError jsonResponse) "" = ""
  /\ phase newState = nextPhase (phase currentState) (phase latest)
                                jsonResponse (character newState)
  /\ pendingCheck newState = r_check jsonResponse
  /\ currentOptions newState
     = match r_check jsonResponse with
       | Some _ => []
       | None =>
           match r_options jsonResponse, phase newState with
           | [], gameplay => ["Продолжить..."; "Осмотреться"; "Задать вопрос"]
           | os, _ => os
           end
       end
  /\ (exists text,
        text <> ""
        /\ history newState
           = pick injectedHistory (history latest)
             ++ match r_characterUpdate jsonResponse with
                | Some update =>
                    damageEntry now (pick (character latest) DUMMY_CHAR) update
                | None => []
                end
             ++ [ {| e_id := numToString (NInt now); e_role := model;
                     e_text := text; e_timestamp := now; e_meta := None |} ])
  /\ match r_characterUpdate jsonResponse with
     | Some update =>
         exists ac,
           calculateArmorClass
             (mergeCharacter (pick (character latest) DUMMY_CHAR) update)
           = Ok ac
           /\ character newState
              = Some (setInventoryAc
                        (mergeCharacter (pick (character latest) DUMMY_CHAR)
                                        update)
                        (c_inventory
                           (mergeCharacter (pick (character latest) DUMMY_CHAR)
                                           update))
                        (Some ac))
     | None => character newState = character latest
     end.
Proof.
  unfold applyResponse.
  destruct (negb (String.eqb (someOr (r_validationError jsonResponse) "") ""))
    eqn:Hv; [discriminate |].
  apply negb_false_iff, String.eqb_eq in Hv.
  destruct isHelpRequest; [discriminate |].
  assert (Htext : forall d, d <> ""%string ->
             someOr (Some (r_narrative jsonResponse)) d <> ""%string).
  { intros d Hd. cbn [someOr].
    destruct (String.eqb (r_narrative jsonResponse) "") eqn:He; [exact Hd |].
    apply String.eqb_neq, He. }
  destruct (r_characterUpdate jsonResponse) as [update |].
  - destruct (calculateArmorClass _) as [ac |] eqn:Hac; cbn [bind];
      [| discriminate].
    intros [= <- <-].
    cbn [phase pendingCheck currentOptions history character].
    repeat split; try assumption; try reflexivity.
    + eexists. split; [| rewrite <- app_assoc; reflexivity].
      apply Htext. destruct (phase currentState); discriminate.
    + exists ac. split; reflexivity.
  - cbn [bind]. intros [= <- <-].
    cbn [phase pendingCheck currentOptions history character].
    repeat split; try assumption; try reflexivity.
    eexists. split; [| reflexivity].
    apply Htext. destruct (phase currentState); discriminate.
Qed.

(** X16. After every committed response that carries a character
    update, the stored armor class is the one computed from the merged
    inventory and dexterity: an [ac] proposed by the narrator never
    reaches the session. *)
Theorem committed_ac_is_computed
  (currentState latest : GameState) (now : Z)
  (injectedHistory : option (list LogEntry)) (jsonResponse : AIResponse)
  (update : CharacterUpdate) (newState : GameState) (autoIntro : bool) :
  r_characterUpdate jsonResponse = Some update ->
  applyResponse currentState latest now false injectedHistory jsonResponse
  = Ok (Committed newState autoIntro) ->
  exists char ac,
    character newState = Some char
    /\ c_ac char = Some ac
    /\ calculateArmorClass char = Ok ac
    /\ c_inventory char
       = mergeInventory (c_inventory (pick (character latest) DUMMY_CHAR))
                        (u_inventory update).
Proof.
  intros Hu H.
  apply applyResponse_committed in H as (_ & _ & _ & _ & _ & _ & Hc).
  rewrite Hu in Hc. destruct Hc as (ac & Hac & Hc).
  eexists. exists ac. split; [exact Hc |].
  split; [reflexivity |]. split; [| reflexivity].
  rewrite <- Hac. apply calculateArmorClass_stored_ac.
Qed.

(** X17. The safety net of the first level: whenever a response is
    committed and the character then is of level 1 with 300 experience
    points or more, the session is in the level-up phase, whatever the
    phase was and whatever the response flagged, a game over included. *)
Theorem level_one_safety_net
  (currentState latest : GameState) (now : Z) (isHelpRequest : bool)
  (injectedHistory : option (list LogEntry)) (jsonResponse : AIResponse)
  (newState : GameState) (autoIntro : bool) (char : Character) (xp : Z) :
  applyResponse currentState latest now isHelpRequest injectedHistory
                jsonResponse = Ok (Committed newState autoIntro) ->
  character newState = Some char ->
  c_level char = Some (NInt 1) ->
  c_xp char = Some (NInt xp) ->
  300 <= xp ->
  phase newState = levelup.
Proof.
  intros H Hchar Hlevel Hxp Hge.
  apply applyResponse_committed in H as (_ & _ & Hp & _).
  rewrite Hp, Hchar. unfold nextPhase. rewrite Hlevel, Hxp.
  destruct xp as [| p | p]; try lia.
  cbn [numEq onor nor nge].
  replace (300 <=? Z.pos p) with true by (symmetry; apply Z.leb_le; lia).
  reflexivity.
Qed.

(** X18. After every committed response the pending check is the one of
    the response.  With a check pending there are no options to click;
    in the gameplay phase without a check the options are never empty
    (the three standard ones are offered when the response had none). *)
Theorem committed_options
  (currentState latest : GameState) (now : Z) (isHelpRequest : bool)
  (injectedHistory : option (list LogEntry)) (jsonResponse : AIResponse)
  (newState : GameState) (autoIntro : bool) :
  applyResponse currentState latest now isHelpRequest injectedHistory
                jsonResponse = Ok (Committed newState autoIntro) ->
  pendingCheck newState = r_check jsonResponse
  /\ match pendingCheck newState with
     | Some _ => currentOptions newState = []
     | None =>
         match phase newState with
         | gameplay =>
             currentOptions newState <> []
             /\ (r_options jsonResponse <> [] ->
                 currentOptions newState = r_options jsonResponse)
         | _ => currentOptions newState = r_options jsonResponse
         end
     end.
Proof.
  intros H.
  apply applyResponse_committed in H as (_ & _ & _ & Hk & Ho & _).
  split; [exact Hk |]. rewrite Hk, Ho.
  destruct (r_check jsonResponse); [reflexivity |].
  destruct (r_options jsonResponse) as [| o os], (phase newState);
    try reflexivity; split; try discriminate; try reflexivity.
  intros Hne. contradiction.
Qed.

(** X19. The log is append-only through a commit: the history written
    is the history the call started from (the injected one, else the
    latest), then a damage notice exactly when the update lowers the hit
    points, then the narrator's entry, whose text is never empty. *)
Theorem committed_history
  (currentState latest : GameState) (now : Z) (isHelpRequest : bool)
  (injectedHistory : option (list LogEntry)) (jsonResponse : AIResponse)
  (newState : GameState) (autoIntro : bool) :
  applyResponse currentState latest now isHelpRequest injectedHistory
                jsonResponse = Ok (Committed newState autoIntro) ->
  exists notice entry,
    history newState
    = pick injectedHistory (history latest) ++ notice ++ [entry]
    /\ e_role entry = model /\ e_text entry <> "" /\ e_timestamp entry = now
    /\ (notice = [] \/ exists d, notice = [d] /\ e_role d = system)
    /\ (notice <> [] <->
        exists update hp,
          r_characterUpdate jsonResponse = Some update
          /\ u_hp update = Some hp
          /\ nlt hp (c_hp (pick (character latest) DUMMY_CHAR)) = true).
Proof.
  intros H.
  apply applyResponse_committed in H
    as (_ & _ & _ & _ & _ & (text & Htext & Hh) & _).
  do 2 eexists. split; [exact Hh |].
  cbn [e_role e_text e_timestamp].
  do 3 (split; [first [reflexivity | assumption] |]).
  destruct (r_characterUpdate jsonResponse) as [update |].
  - unfold damageEntry.
    destruct (u_hp update) as [hp |] eqn:Hhp.
    + destruct (nlt hp (c_hp (pick (character latest) DUMMY_CHAR))) eqn:Hlt.
      * split; [right; eexists; split; reflexivity |].
        split; [intros _; exists update, hp; auto | discriminate].
      * split; [left; reflexivity |].
        split; [contradiction |].
        intros (u' & hp' & [= <-] & Hhp' & Hlt').
        rewrite Hhp in Hhp'. injection Hhp' as <-. congruence.
    + split; [left; reflexivity |].
      split; [contradiction |].
      intros (u' & hp' & [= <-] & Hhp' & _). congruence.
  - split; [left; reflexivity |].
    split; [contradiction |].
    intros (u' & hp' & Hu' & _). discriminate.
Qed.

(** X20. A help request never changes the session: whatever the service
    answers, the outcome of the call is the help text, a validation
    error with its text, or a failure, and never a commit. *)
Theorem help_request_never_commits
  (hasApiKey : bool) (currentState latest : GameState) (now : Z)
  (injectedHistory : option (list LogEntry)) (svc : service) :
  match fst (callAI hasApiKey currentState latest now true injectedHistory svc)
  with
  | Committed _ _ => False
  | ValidationAbort error => error <> ""
  | HelpShown _ | Failed _ => True
  end.
Proof.
  unfold callAI.
  destruct hasApiKey; cbn [negb]; [| exact I].
  destruct (callService svc) as [[[text |] | e] trace]; cbn [fst];
    try exact I.
  destruct (JSON_parse (extractJson text)) as [rawJson |]; [| exact I].
  destruct (normalizeAIResponse rawJson) as [jsonResponse |]; cbn [bind];
    [| exact I].
  unfold applyResponse.
  destruct (String.eqb (someOr (r_validationError jsonResponse) "") "") eqn:Hv;
    cbn [negb fst]; [exact I |].
  apply String.eqb_neq, Hv.
Qed.

End CommitFacts.

Ltac committed_run H :=
  match goal with
  | |- context [@applyResponse ?R ?c ?l ?n ?h ?i ?r] =>
      destruct (@applyResponse R c l n h i r)
        as [[newState autoIntro | error | helpText | error] | e] eqn:H;
      try (vm_compute in H; discriminate H)
  end.

Ltac computed_from H :=
  let H' := fresh in
  pose proof H as H'; vm_compute in H'; injection H' as <- <-;
  vm_compute; reflexivity.

Lemma committed_ac_is_computed_witness :
  exists newState autoIntro char,
    @applyResponse std_runtime plateSession plateSession 1000 false None
                   woundResponse = Ok (Committed newState autoIntro)
    /\ character newState = Some char
    /\ c_ac char = Some (NInt 16)
    /\ @calculateArmorClass std_runtime char = Ok (NInt 16).
Proof.
  committed_run H.
  destruct (@committed_ac_is_computed std_runtime plateSession plateSession
              1000 None woundResponse _ newState autoIntro eq_refl H)
    as (char & ac & Hc & Hac & Hcalc & _).
  assert (Hval : ac = NInt 16).
  { assert (Hs : option_map c_ac (character newState) = Some (Some (NInt 16)))
      by computed_from H.
    rewrite Hc in Hs. cbn [option_map] in Hs. congruence. }
  exists newState, autoIntro, char. subst ac. auto.
Defined.

Lemma level_one_safety_net_witness :
  exists newState autoIntro,
    @applyResponse std_runtime plateSession plateSession 1000 false None
                   woundResponse = Ok (Committed newState autoIntro)
    /\ r_isGameOver woundResponse = true
    /\ phase newState = levelup.
Proof.
  committed_run H.
  exists newState, autoIntro. split; [reflexivity |]. split; [reflexivity |].
  eapply (@level_one_safety_net std_runtime _ _ _ _ _ _ _ _ _ 320 H);
    [computed_from H | reflexivity | reflexivity | lia].
Defined.

Lemma committed_options_witness :
  exists newState autoIntro,
    @applyResponse std_runtime plateSession plateSession 1000 false None
                   invalidStructure = Ok (Committed newState autoIntro)
    /\ pendingCheck newState = None.
Proof.
  committed_run H.
  exists newState, autoIntro. split; [reflexivity |].
  apply (@committed_options std_runtime _ _ _ _ _ _ _ _ H).
Defined.

Lemma committed_history_witness :
  exists newState autoIntro notice entry,
    @applyResponse std_runtime plateSession plateSession 1000 false None
                   woundResponse = Ok (Committed newState autoIntro)
    /\ history newState = history plateSession ++ notice ++ [entry]
    /\ notice <> [].
Proof.
  committed_run H.
  destruct (@committed_history std_runtime _ _ _ _ _ _ _ _ H)
    as (notice & entry & Hh & _ & _ & _ & _ & Hn).
  exists newState, autoIntro, notice, entry.
  split; [reflexivity |]. split; [exact Hh |].
  apply Hn. do 2 eexists. split; [reflexivity |]. split; reflexivity.
Defined.

(** ** The inventory merge: what an update leaves alone *)

Lemma findIndex_insert_same {A : Type} (p : A -> bool) (l : list A) (y : A) :
  forall i, findIndex p l = Some i -> p y = true ->
            findIndex p (<[i:=y]> l) = Some i.
Proof.
  induction l as [| a l IH]; intros i; cbn [findIndex]; [discriminate |].
  destruct (p a) eqn:Hp.
  - intros [= <-] Hy. change (<[0%nat:=y]> (a :: l)) with (y :: l).
    cbn [findIndex]. rewrite Hy. reflexivity.
  - destruct (findIndex p l) as [i' |]; cbn [option_map]; [| discriminate].
    intros [= <-] Hy.
    change (<[S i':=y]> (a :: l)) with (a :: <[i':=y]> l).
    cbn [findIndex]. rewrite Hp, (IH i' eq_refl Hy). reflexivity.
Qed.

Lemma findIndex_app_last {A : Type} (p : A -> bool) (l : list A) (y : A) :
  findIndex p l = None -> p y = true ->
  findIndex p (l ++ [y]) = Some (length l).
Proof.
  induction l as [| a l IH]; cbn [findIndex app length].
  - intros _ ->. reflexivity.
  - destruct (p a); [discriminate |].
    destruct (findIndex p l); [discriminate |].
    intros _ Hy. rewrite (IH eq_refl Hy). reflexivity.
Qed.

Lemma findIndex_None {A : Type} (p : A -> bool) (l : list A) :
  findIndex p l = None -> forall j x, l !! j = Some x -> p x = false.
Proof.
  induction l as [| a l IH]; cbn [findIndex]; intros H j x Hj;
    [destruct j; discriminate |].
  destruct (p a) eqn:Hp; [discriminate |].
  destruct (findIndex p l); [discriminate |].
  destruct j as [| j]; cbn in Hj.
  - injection Hj as <-. exact Hp.
  - apply (IH eq_refl j x Hj).
Qed.

Lemma overlay_itself (item : InventoryItem) : overlay item item = item.
Proof.
  destruct item as [n t d m q e]. unfold overlay. cbn.
  destruct m, e; reflexivity.
Qed.

Lemma overlay_again (old newItem : InventoryItem) :
  overlay (overlay old newItem) newItem = overlay old newItem.
Proof.
  unfold overlay. cbn.
  destruct (i_mechanics newItem), (i_equipped newItem); reflexivity.
Qed.

Section MergeFrame.
Context {R : Runtime}.

Lemma sameName_refl (a : string) : sameName a a = true.
Proof. apply String.eqb_refl. Qed.

(** X21. Merging the same update entry a second time changes nothing:
    the entry has found its place (the match it overwrote, or the end of
    the inventory) and overwrites itself there. *)
Theorem mergeItem_idempotent (inv : list InventoryItem)
  (newItem : InventoryItem) :
  mergeItem (mergeItem inv newItem) newItem = mergeItem inv newItem.
Proof.
  destruct (String.eqb (i_name newItem) "") eqn:Hname.
  { unfold mergeItem. rewrite Hname. reflexivity. }
  destruct (findIndex (fun old => sameName (i_name old) (i_name newItem)) inv)
    as [i |] eqn:Hfind.
  - destruct (findIndex_Some _ _ _ Hfind) as (old & Hold & _ & _).
    assert (E : mergeItem inv newItem = <[i:=overlay old newItem]> inv)
      by (unfold mergeItem; rewrite Hname, Hfind, Hold; reflexivity).
    rewrite E. unfold mergeItem. rewrite Hname.
    rewrite (findIndex_insert_same _ inv (overlay old newItem) i Hfind)
      by apply sameName_refl.
    rewrite list_lookup_insert_eq by (apply lookup_lt_Some in Hold; exact Hold).
    rewrite list_insert_insert_eq, overlay_again. reflexivity.
  - assert (E : mergeItem inv newItem = inv ++ [newItem])
      by (unfold mergeItem; rewrite Hname, Hfind; reflexivity).
    rewrite E. unfold mergeItem. rewrite Hname.
    rewrite (findIndex_app_last _ inv newItem Hfind) by apply sameName_refl.
    assert (Hlast : (inv ++ [newItem]) !! length inv = Some newItem).
    { rewrite lookup_app_r by reflexivity. rewrite Nat.sub_diag. reflexivity. }
    rewrite Hlast, overlay_itself.
    apply list_insert_id, Hlast.
Qed.

Lemma mergeItem_keeps (inv : list InventoryItem) (newItem old : InventoryItem)
  (j : nat) :
  inv !! j = Some old ->
  sameName (i_name old) (i_name newItem) = false ->
  mergeItem inv newItem !! j = Some old.
Proof.
  intros Hj Hdiff. unfold mergeItem.
  destruct (String.eqb (i_name newItem) ""); [exact Hj |].
  destruct (findIndex _ inv) as [i |] eqn:Hfind.
  - destruct (findIndex_Some _ _ _ Hfind) as (x & Hx & Hpx & _).
    rewrite Hx.
    rewrite list_lookup_insert_ne; [exact Hj |].
    intros ->. rewrite Hj in Hx. injection Hx as <-. congruence.
  - apply lookup_app_l_Some, Hj.
Qed.

Lemma fold_mergeItem_keeps (old : InventoryItem) (items : list InventoryItem) :
  forallb (fun n => negb (sameName (i_name old) (i_name n))) items = true ->
  forall inv j, inv !! j = Some old ->
                fold_left mergeItem items inv !! j = Some old.
Proof.
  induction items as [| n items IH]; cbn [forallb fold_left];
    intros H inv j Hj; [exact Hj |].
  apply andb_true_iff in H as [Hn Hrest].
  apply negb_true_iff in Hn.
  apply (IH Hrest), mergeItem_keeps; assumption.
Qed.

(** X22. An update leaves alone what it does not name: an entry of the
    inventory with a positive quantity whose name matches none of the
    update's entries (up to case and surrounding blanks) is in the merged
    inventory as it was.  And every entry of a merged inventory has a
    positive quantity. *)
Theorem mergeInventory_keeps_unnamed (inv items : list InventoryItem)
  (old : InventoryItem) :
  In old inv ->
  ngt (i_quantity old) (NInt 0) = true ->
  forallb (fun n => negb (sameName (i_name old) (i_name n))) items = true ->
  In old (mergeInventory inv (Some items))
  /\ forall item, In item (mergeInventory inv (Some items)) ->
                  ngt (i_quantity item) (NInt 0) = true.
Proof.
  intros Hin Hq Hnames. cbn [mergeInventory]. split.
  - apply filter_In. split; [| exact Hq].
    apply list_elem_of_In, list_elem_of_lookup in Hin as [j Hj].
    apply list_elem_of_In, list_elem_of_lookup.
    exists j. apply fold_mergeItem_keeps; assumption.
  - intros item Hitem. apply filter_In in Hitem. tauto.
Qed.

End MergeFrame.

Lemma mergeInventory_keeps_unnamed_witness :
  In quiver (@mergeInventory std_runtime [plate; quiver]
               (Some [leatherInPack; longbow])).
Proof.
  apply (@mergeInventory_keeps_unnamed std_runtime [plate; quiver]
           [leatherInPack; longbow] quiver);
    [right; left; reflexivity | reflexivity | vm_compute; reflexivity].
Defined.

(** ** The merge of a matching entry, through the whole update *)

Section MergeMatch.
Context {R : Runtime}.


(** Every entry of a normalized inventory carries the [equipped] flag the
    payload gave it, [false] when it gave none: only the ammunition stack
    the normalizer adds carries no flag. *)
Lemma normalized_entries_carry_equipped (raw : value) (item : InventoryItem) :
  normalizeItem raw = Ok item ->
  i_equipped item = Some (truthy (prop raw "equipped")).
Proof. intros H. apply (normalizeItem_carries_equipped raw item H). Qed.

End MergeMatch.


(** An entry of the update that states its flag overwrites the stored
    one: the leather armor of the session is equipped, the update names
    it unequipped. *)
Example stated_flag_overwrites :
  @mergeInventory std_runtime [leather; roundShield] (Some [leatherInPack])
  = [leatherInPack; roundShield].
Proof. vm_compute. reflexivity. Qed.

(** ** Equipping: what a toggle leaves alone *)

Lemma map_insert {A B : Type} (f : A -> B) (l : list A) (x : A) :
  forall i, List.map f (<[i:=x]> l) = <[i:=f x]> (List.map f l).
Proof.
  induction l as [| a l IH]; intros [| i]; cbn; try reflexivity.
  rewrite IH. reflexivity.
Qed.

Section ToggleFrame.
Context {R : Runtime}.

Lemma unflagged_unequipArmor (i : InventoryItem) :
  unflagged (unequipArmor i) = unflagged i.
Proof.
  unfold unequipArmor. destruct (isArmor i && negb (isShieldName (i_name i)));
    reflexivity.
Qed.

(** X23. A toggle that goes through changes nothing but [equipped] flags
    and the stored armor class: the inventory keeps its length and order
    and every entry its name, type, description, mechanics and quantity;
    the rest of the character and of the session is as before.  An index
    outside the inventory makes the toggle throw. *)
Theorem handleToggleEquip_frame (state state' : GameState) (itemIndex : nat)
  (char : Character) :
  character state = Some char ->
  handleToggleEquip state itemIndex = Toggled state' ->
  exists char',
    character state' = Some char'
    /\ List.map unflagged (c_inventory char')
       = List.map unflagged (c_inventory char)
    /\ bare char' = bare char
    /\ setCharacter state' None = setCharacter state None
    /\ (itemIndex < length (c_inventory char))%nat.
Proof.
  intros Hchar. unfold handleToggleEquip. rewrite Hchar.
  destruct (c_inventory char !! itemIndex) as [targetItem |] eqn:Hidx;
    [| discriminate].
  destruct (calculateArmorClass _) as [newAc |]; [| discriminate].
  intros [= <-]. eexists. split; [reflexivity |].
  cbn [c_inventory setInventoryAc].
  split; [| split; [reflexivity | split; [reflexivity |]]].
  - rewrite map_insert.
    assert (Hswept : forall b : bool,
              List.map unflagged (if b then List.map unequipArmor (c_inventory char)
                                  else c_inventory char)
              = List.map unflagged (c_inventory char)).
    { intros [|]; [| reflexivity]. rewrite List.map_map.
      apply List.map_ext. intros i. apply unflagged_unequipArmor. }
    assert (Htarget : forall b : bool,
              unflagged (if b then unequipArmor targetItem else targetItem)
              = unflagged targetItem).
    { intros [|]; [apply unflagged_unequipArmor | reflexivity]. }
    rewrite Hswept.
    match goal with
    | |- <[_:=unflagged (setEquipped ?t _)]> _ = _ =>
        change (unflagged (setEquipped t _)) with (unflagged t)
    end.
    rewrite Htarget.
    apply list_insert_id. rewrite lookup_map, Hidx. reflexivity.
  - apply lookup_lt_Some in Hidx. exact Hidx.
Qed.

(** X24. Toggling twice an entry that is not body armor (a weapon, a
    shield, anything that is not an armor without a shield name) and
    whose flag is set or cleared gives back the inventory as it was. *)
Theorem handleToggleEquip_twice (state state1 state2 : GameState)
  (itemIndex : nat) (char : Character) (item : InventoryItem) (flag : bool) :
  character state = Some char ->
  c_inventory char !! itemIndex = Some item ->
  i_equipped item = Some flag ->
  isArmor item && negb (isShieldName (i_name item)) = false ->
  handleToggleEquip state itemIndex = Toggled state1 ->
  handleToggleEquip state1 itemIndex = Toggled state2 ->
  option_map c_inventory (character state2) = Some (c_inventory char)
  /\ option_map (fun c => option_map i_equipped (c_inventory c !! itemIndex))
                (character state1)
     = Some (Some (Some (negb flag))).
Proof.
  intros Hchar Hidx Hflag Hbody.
  assert (Hswap : forall e : bool,
            isArmor item && e && negb (isShieldName (i_name item)) = false).
  { intros e. destruct (isArmor item), (isShieldName (i_name item)), e;
      try reflexivity; discriminate. }
  assert (Hitem : setEquipped item (Some flag) = item).
  { destruct item as [n t d m q e]. cbn in *. subst e. reflexivity. }
  assert (Hlt : (itemIndex < length (c_inventory char))%nat)
    by (apply lookup_lt_Some in Hidx; exact Hidx).
  unfold handleToggleEquip at 1. rewrite Hchar, Hidx, Hswap.
  destruct (calculateArmorClass _) as [ac1 |]; [| discriminate].
  intros [= <-].
  unfold handleToggleEquip.
  cbn [character setCharacter c_inventory setInventoryAc].
  rewrite list_lookup_insert_eq by exact Hlt.
  change (isArmor (setEquipped item (Some (negb (isEquipped item)))))
    with (isArmor item).
  change (i_name (setEquipped item (Some (negb (isEquipped item)))))
    with (i_name item).
  rewrite Hswap.
  destruct (calculateArmorClass _) as [ac2 |]; [| discriminate].
  intros [= <-].
  cbn [character setCharacter c_inventory setInventoryAc option_map].
  assert (Heq : isEquipped item = flag)
    by (unfold isEquipped; rewrite Hflag; destruct flag; reflexivity).
  split.
  - f_equal. rewrite list_insert_insert_eq.
    apply list_insert_id. rewrite Hidx. f_equal.
    rewrite Heq. rewrite <- Hitem at 1. destruct flag; reflexivity.
  - rewrite list_lookup_insert_eq by exact Hlt.
    cbn [option_map i_equipped setEquipped]. rewrite Heq. reflexivity.
Qed.

End ToggleFrame.

Lemma handleToggleEquip_frame_witness :
  exists state' char',
    @handleToggleEquip std_runtime
       (sampleState gameplay
          (Some (sampleChar (NInt 14) [plate; leatherInPack; quiver]))) 1
    = Toggled state'
    /\ character state' = Some char'
    /\ List.map unflagged (c_inventory char')
       = List.map unflagged [plate; leatherInPack; quiver].
Proof.
  destruct (@handleToggleEquip std_runtime
              (sampleState gameplay
                 (Some (sampleChar (NInt 14) [plate; leatherInPack; quiver]))) 1)
    as [state' | e session] eqn:H; [| vm_compute in H; discriminate H].
  destruct (@handleToggleEquip_frame std_runtime
              (sampleState gameplay
                 (Some (sampleChar (NInt 14) [plate; leatherInPack; quiver])))
              state' 1 (sampleChar (NInt 14) [plate; leatherInPack; quiver])
              eq_refl H)
    as (char' & Hc & Hinv & _).
  exists state', char'. auto.
Defined.

Lemma handleToggleEquip_twice_witness :
  exists state1 state2,
    @handleToggleEquip std_runtime
       (sampleState gameplay
          (Some (sampleChar (NInt 14) [plate; roundShield; quiver]))) 1
    = Toggled state1
    /\ @handleToggleEquip std_runtime state1 1 = Toggled state2
    /\ option_map c_inventory (character state2)
       = Some [plate; roundShield; quiver].
Proof.
  destruct (@handleToggleEquip std_runtime
              (sampleState gameplay
                 (Some (sampleChar (NInt 14) [plate; roundShield; quiver]))) 1)
    as [state1 | e session] eqn:H1; [| vm_compute in H1; discriminate H1].
  destruct (@handleToggleEquip std_runtime state1 1)
    as [state2 | e session] eqn:H2.
  2: { exfalso. revert H2. pose proof H1 as H1'. vm_compute in H1'.
       injection H1' as <-. vm_compute. discriminate. }
  exists state1, state2. split; [reflexivity |]. split; [exact H2 |].
  apply (@handleToggleEquip_twice std_runtime
           (sampleState gameplay
              (Some (sampleChar (NInt 14) [plate; roundShield; quiver])))
           state1 state2 1
           (sampleChar (NInt 14) [plate; roundShield; quiver]) roundShield true
           eq_refl eq_refl eq_refl ltac:(vm_compute; reflexivity) H1 H2).
Defined.

(** ** Rolls that are no death save *)

Section RollFacts.
Context {R : Runtime}.

Lemma rollBoth_rolls (rollType : RollType) (diceConfig : string) (rnd : rng) :
  length (snd (rollBoth rollType diceConfig rnd))
  = match rollType with normal => 1%nat | _ => 2%nat end.
Proof.
  unfold rollBoth.
  destruct (parseAndRoll diceConfig rnd) as [r1 rnd1].
  destruct (parseAndRoll diceConfig rnd1) as [r2 rnd2].
  destruct rollType; reflexivity.
Qed.

(** X25. On the same draws a roll with disadvantage is never above the
    normal roll and a roll with advantage never below it, one of the two
    being the normal roll itself; so whatever the modifier and the
    difficulty, a normal roll that succeeds also succeeds with advantage,
    and one that fails also fails with disadvantage.  A normal roll
    records one die, the two others record both. *)
Theorem rollBoth_order (diceConfig : string) (rnd : rng) (x y z : Z) :
  fst (rollBoth dis diceConfig rnd) = NInt x ->
  fst (rollBoth normal diceConfig rnd) = NInt y ->
  fst (rollBoth adv diceConfig rnd) = NInt z ->
  x <= y <= z
  /\ (x = y \/ y = z)
  /\ (forall mod_ dc, nge (nadd (NInt y) mod_) dc = true ->
                      nge (nadd (NInt z) mod_) dc = true)
  /\ (forall mod_ dc, nge (nadd (NInt y) mod_) dc = false ->
                      nge (nadd (NInt x) mod_) dc = false)
  /\ length (snd (rollBoth normal diceConfig rnd)) = 1%nat
  /\ length (snd (rollBoth adv diceConfig rnd)) = 2%nat
  /\ length (snd (rollBoth dis diceConfig rnd)) = 2%nat.
Proof.
  rewrite !rollBoth_rolls. unfold rollBoth.
  destruct (parseAndRoll diceConfig rnd) as [r1 rnd1].
  destruct (parseAndRoll diceConfig rnd1) as [r2 rnd2].
  cbn [fst]. intros Hx Hy Hz. subst r1.
  destruct r2 as [w |]; [| discriminate].
  cbn [nmin nmax] in Hx, Hz. injection Hx as <-. injection Hz as <-.
  split; [lia |]. split; [lia |].
  split; [| split; [| auto]].
  - intros [k |] [d |]; cbn [nadd nge]; try discriminate.
    intros H. apply Z.leb_le in H. apply Z.leb_le. lia.
  - intros [k |] [d |]; cbn [nadd nge]; try reflexivity.
    intros H. apply Z.leb_gt in H. apply Z.leb_gt. lia.
Qed.

(** X26. A roll for a check that is no death save never changes a
    character: when the session the roll was requested in has one, the
    state after the roll holds that very character; when it has none, the
    roll puts an empty object in its place (the outcome [RolledEmpty]).
    In both cases the phase and the rest are the current ones, the
    pending check is cleared and the log grows by exactly one entry, the
    roll result.  The total is the roll plus the modifier and succeeds
    when it reaches the difficulty.  The narrator is asked for the
    outcome of every such roll but an attack that hits, which names its
    damage dice and waits for the damage roll. *)
Theorem handleRoll_ordinary_check (rollType : RollType)
  (captured current : GameState) (now : Z) (rnd : rng)
  (check pending : CheckRequest) :
  pendingCheck captured = Some check ->
  pendingCheck current = Some pending ->
  isDeathSaveCheck check = false ->
  exists (stateAfterRoll : GameState) (followUp : option string),
    match character captured with
    | Some char =>
        handleRoll rollType captured current now rnd
        = Rolled stateAfterRoll followUp
        /\ character stateAfterRoll = Some char
    | None =>
        handleRoll rollType captured current now rnd
        = RolledEmpty stateAfterRoll followUp
    end
    /\ phase stateAfterRoll = phase current
    /\ world stateAfterRoll = world current
    /\ currentOptions stateAfterRoll = currentOptions current
    /\ levelUpChoices stateAfterRoll = levelUpChoices current
    /\ pendingCheck stateAfterRoll = None
    /\ exists entry meta,
         history stateAfterRoll = history current ++ [entry]
         /\ e_role entry = roll_result
         /\ e_meta entry = Some meta
         /\ m_mod meta = rollModifier check (character captured)
         /\ m_dc meta = nor (k_difficulty check) (NInt 10)
         /\ m_total meta = nadd (m_roll meta) (m_mod meta)
         /\ m_success meta = nge (m_total meta) (m_dc meta)
         /\ length (m_rolls meta)
            = match rollType with normal => 1%nat | _ => 2%nat end
         /\ (followUp = None <-> k_isAttack check && m_success meta = true)
         /\ (m_damageDice meta <> None
             <-> k_isAttack check && m_success meta = true).
Proof.
  intros Hcheck Hpending Hds. unfold handleRoll. rewrite Hcheck, Hpending, Hds.
  pose proof (rollBoth_rolls rollType (diceOf check) rnd) as Hrolls.
  destruct (rollBoth rollType (diceOf check) rnd) as [finalRoll recordedRolls].
  cbn [snd] in Hrolls.
  assert (Hchar :
    match character captured with
    | Some char =>
        match c_deathSaves char with
        | Some ds => (Some char, false, false)
        | None => (Some char, false, false)
        end
    | None => (None, false, false)
    end = (character captured, false, false)).
  { destruct (character captured) as [char |]; [| reflexivity].
    destruct (c_deathSaves char); reflexivity. }
  rewrite Hchar. cbv zeta. cbn [negb andb].
  clear Hchar.
  destruct (character captured) as [char |];
    do 2 eexists;
    (split; [first [split; reflexivity | reflexivity] |]);
    cbn [character phase world currentOptions levelUpChoices pendingCheck
         history];
    do 5 (split; [reflexivity |]);
    do 2 eexists; cbn [app];
    (split; [reflexivity |]);
    cbn [e_role e_meta m_mod m_dc m_total m_roll m_success m_rolls
         m_damageDice];
    do 6 (split; [reflexivity |]);
    (split; [exact Hrolls |]);
    match goal with
    | |- context [nge ?t ?d] => destruct (k_isAttack check), (nge t d)
    end;
    cbn [negb andb orb]; repeat split; try discriminate; try reflexivity;
    intros H; try discriminate; try reflexivity; contradiction.
Qed.

End RollFacts.

Lemma rollBoth_order_witness :
  fst (@rollBoth std_runtime dis "1d20" waning) = NInt 7
  /\ fst (@rollBoth std_runtime normal "1d20" waning) = NInt 11
  /\ fst (@rollBoth std_runtime adv "1d20" waning) = NInt 11
  /\ 7 <= 11 <= 11.
Proof.
  split; [vm_compute; reflexivity |].
  split; [vm_compute; reflexivity |].
  split; [vm_compute; reflexivity |].
  apply (@rollBoth_order std_runtime "1d20" waning 7 11 11);
    vm_compute; reflexivity.
Defined.

Lemma handleRoll_ordinary_check_witness :
  exists stateAfterRoll,
    @handleRoll std_runtime normal (attackState (NInt 10))
                (attackState (NInt 10)) 1000 (always (1 # 2))
    = Rolled stateAfterRoll None
    /\ character stateAfterRoll = character (attackState (NInt 10))
    /\ pendingCheck stateAfterRoll = None.
Proof.
  destruct (@handleRoll_ordinary_check std_runtime normal
              (attackState (NInt 10)) (attackState (NInt 10)) 1000
              (always (1 # 2)) (attackCheck (NInt 10)) (attackCheck (NInt 10))
              eq_refl eq_refl ltac:(vm_compute; reflexivity))
    as (stateAfterRoll & followUp & [H Hc] & _ & _ & _ & _ & Hp & _).
  exists stateAfterRoll.
  assert (Hf : followUp = None).
  { pose proof H as H'. vm_compute in H'. injection H' as _ <-. reflexivity. }
  subst followUp. auto.
Defined.

(** A roll requested without a character leaves an empty object where the
    character is read. *)
Example handleRoll_without_character :
  exists stateAfterRoll followUp,
    @handleRoll std_runtime normal
       (setCharacter (attackState (NInt 10)) None)
       (setCharacter (attackState (NInt 10)) None) 1000 (always (1 # 2))
    = RolledEmpty stateAfterRoll followUp.
Proof. do 2 eexists. vm_compute. reflexivity. Qed.

(** ** Validation errors, player actions and the request context *)

Section TurnFacts.
Context {R : Runtime}.

Lemma normalizeAIResponse_validationError (raw : value) (resp : AIResponse) :
  isObject raw = true ->
  normalizeAIResponse raw = Ok resp ->
  truthyString raw "validationError" = Ok (r_validationError resp).
Proof.
  intros Hobj H. unfold normalizeAIResponse in H.
  assert (Htr : truthy raw = true) by (destruct raw; try discriminate; reflexivity).
  rewrite Hobj, Htr in H. cbn [negb orb] in H.
  bind_inv H. injection H as <-. reflexivity.
Qed.

(** X27. A payload that is an object with a validation error (a truthy
    [validationError] whose text is not empty) is never merged: once it
    is normalized, the call stops with that text, whatever else the
    payload carries, in every phase, and for a help request too. *)
Theorem validation_error_aborts (raw : value) (resp : AIResponse)
  (currentState latest : GameState) (now : Z) (isHelpRequest : bool)
  (injectedHistory : option (list LogEntry)) (message : string) :
  isObject raw = true ->
  truthy (prop raw "validationError") = true ->
  coerceString (prop raw "validationError") "" = Ok message ->
  message <> "" ->
  normalizeAIResponse raw = Ok resp ->
  applyResponse currentState latest now isHelpRequest injectedHistory resp
  = Ok (ValidationAbort message).
Proof.
  intros Hobj Htruthy Hmessage Htext Hresp.
  pose proof (normalizeAIResponse_validationError raw resp Hobj Hresp) as Hv.
  unfold truthyString, truthyText in Hv.
  rewrite Htruthy, Hmessage in Hv. cbn [bind] in Hv. injection Hv as Hv.
  unfold applyResponse. rewrite <- Hv. cbn [someOr].
  apply String.eqb_neq in Htext. rewrite Htext. cbn [negb].
  rewrite Htext. reflexivity.
Qed.

Lemma callAI_committed (hasApiKey : bool) (currentState latest : GameState)
  (now : Z) (isHelpRequest : bool) (injectedHistory : option (list LogEntry))
  (svc : service) (newState : GameState) (autoIntro : bool) :
  fst (callAI hasApiKey currentState latest now isHelpRequest injectedHistory
              svc) = Committed newState autoIntro ->
  exists jsonResponse,
    applyResponse currentState latest now isHelpRequest injectedHistory
                  jsonResponse = Ok (Committed newState autoIntro).
Proof.
  unfold callAI.
  destruct hasApiKey; cbn [negb fst]; [| discriminate].
  destruct (callService svc) as [[[text |] | e] trace]; cbn [fst];
    try discriminate.
  destruct (JSON_parse (extractJson text)) as [rawJson |]; [| discriminate].
  destruct (normalizeAIResponse rawJson) as [jsonResponse |]; cbn [bind fst];
    [| discriminate].
  destruct (applyResponse _ _ _ _ _ jsonResponse) as [o |] eqn:Happly;
    cbn [fst]; [| discriminate].
  intros ->. exists jsonResponse. exact Happly.
Qed.

(** X28. A player action whose text is blank does nothing.  Any other
    text is logged at once as the player's entry, the rest of the saved
    state being as before; and when the narrator's answer is committed,
    the log of the new state is the old log, the player's entry, a
    damage notice if there is one, and the narrator's entry. *)
Theorem handleAction_turn (hasApiKey : bool) (text : string)
  (state current latest : GameState) (now later : Z) (svc : service) :
  match handleAction hasApiKey text state current latest now later svc with
  | None => trim text = ""
  | Some (tempState, (outcome, trace)) =>
      trim text <> ""
      /\ history tempState = history state ++ [userEntry now text]
      /\ setHistoryCharacter tempState [] None
         = setHistoryCharacter state [] None
      /\ character tempState = character state
      /\ match outcome with
         | Committed newState _ =>
             exists notice entry,
               history newState
               = history state ++ [userEntry now text] ++ notice ++ [entry]
               /\ e_role entry = model
               /\ (length notice <= 1)%nat
         | _ => True
         end
  end.
Proof.
  unfold handleAction.
  destruct (String.eqb (trim text) "") eqn:Hblank;
    [apply String.eqb_eq, Hblank |].
  destruct (callAI _ _ _ _ _ _ _) as [outcome trace] eqn:Hcall.
  split; [apply String.eqb_neq, Hblank |].
  do 3 (split; [reflexivity |]).
  destruct outcome as [newState autoIntro | | |]; try exact I.
  assert (Hfst : fst (callAI hasApiKey current latest later false
                        (Some (history state ++ [userEntry now text])) svc)
                 = Committed newState autoIntro) by (rewrite Hcall; reflexivity).
  apply callAI_committed in Hfst as [jsonResponse Hcommit].
  apply applyResponse_committed in Hcommit
    as (_ & _ & _ & _ & _ & (narrative & _ & Hh) & _).
  cbn [pick] in Hh. rewrite <- app_assoc in Hh.
  do 2 eexists. split; [exact Hh |]. split; [reflexivity |].
  destruct (r_characterUpdate jsonResponse) as [update |]; [| cbn; lia].
  unfold damageEntry. destruct (u_hp update) as [hp |]; [| cbn; lia].
  destruct (nlt hp _); cbn; lia.
Qed.

End TurnFacts.

Lemma skipn_In {A : Type} (n : nat) (l : list A) (x : A) :
  In x (List.skipn n l) -> In x l.
Proof.
  intros H. rewrite <- (List.firstn_skipn n l). apply in_or_app. right. exact H.
Qed.

(** X29. The conversation sent to the narrator is the last 15 entries
    of the log that are the player's or the narrator's (all of them when
    there are fewer), in the order of the log, each under its own role
    and with its own text: the chat entries of the log are some older
    ones followed by the ones that are sent, turn for turn.  No roll
    result and no system notice is part of it, and no turn has an empty
    text (an empty entry is sent as one blank). *)
Theorem historyContext_window (currentState : GameState)
  (injectedHistory : option (list LogEntry)) :
  (length (historyContext currentState injectedHistory) <= 15)%nat
  /\ length (historyContext currentState injectedHistory)
     = Nat.min 15 (length (List.filter isChatEntry
                             (pick injectedHistory (history currentState))))
  /\ (exists older kept,
        List.filter isChatEntry (pick injectedHistory (history currentState))
        = older ++ kept
        /\ length kept
           = Nat.min 15 (length (List.filter isChatEntry
                                   (pick injectedHistory
                                         (history currentState))))
        /\ Forall2 (fun h turn =>
                      t_role turn = e_role h
                      /\ (e_role h = user \/ e_role h = model)
                      /\ t_text turn = (if String.eqb (e_text h) "" then " "
                                        else e_text h))
                   kept (historyContext currentState injectedHistory))
  /\ forall turn,
       In turn (historyContext currentState injectedHistory) ->
       t_text turn <> ""
       /\ exists h,
            In h (pick injectedHistory (history currentState))
            /\ e_role h = t_role turn
            /\ (t_role turn = user \/ t_role turn = model)
            /\ t_text turn = (if String.eqb (e_text h) "" then " " else e_text h).
Proof.
  unfold historyContext, sliceLast.
  set (source := pick injectedHistory (history currentState)).
  set (chat := List.filter isChatEntry source).
  rewrite List.length_map, List.length_skipn.
  split; [lia |]. split; [lia |]. split.
  - exists (List.firstn (length chat - 15) chat),
           (List.skipn (length chat - 15) chat).
    split; [symmetry; apply List.firstn_skipn |].
    split; [rewrite List.length_skipn; lia |].
    assert (Hkept : forall h, In h (List.skipn (length chat - 15) chat) ->
                              isChatEntry h = true).
    { intros h Hh. apply skipn_In in Hh. apply filter_In in Hh. tauto. }
    induction (List.skipn (length chat - 15) chat) as [| h kept IH];
      cbn [List.map]; constructor.
    + cbn [t_role t_text someOr].
      specialize (Hkept h (or_introl eq_refl)). unfold isChatEntry in Hkept.
      destruct (e_role h); try discriminate Hkept; auto.
    + apply IH. intros h' Hh'. apply Hkept. right. exact Hh'.
  - intros turn Hin.
    apply in_map_iff in Hin as (h & <- & Hh).
    apply skipn_In, filter_In in Hh as [Hsrc Hchat].
    cbn [t_text t_role someOr]. split.
    + destruct (String.eqb (e_text h) "") eqn:He; [discriminate |].
      apply String.eqb_neq, He.
    + exists h. split; [exact Hsrc |].
      unfold isChatEntry in Hchat.
      destruct (e_role h); try discriminate; auto.
Qed.

(** The window on a log of 20 entries, two of them no chat: of the 18
    chat entries the last 15 are sent, the oldest of them first. *)
Example historyContext_order :
  List.map t_text
    (historyContext
       (setHistoryCharacter INITIAL_GAME_STATE
          (List.map (fun k => {| e_id := "id";
                                 e_role := if (k mod 8 =? 7)%nat then system
                                           else if Nat.even k then user
                                                else model;
                                 e_text := String (ascii_of_nat (65 + k)) "";
                                 e_timestamp := 0; e_meta := None |})
                    (List.seq 0 20))
          None)
       None)
  = ["D"; "E"; "F"; "G"; "I"; "J"; "K"; "L"; "M"; "N"; "O"; "Q"; "R"; "S"; "T"].
Proof. vm_compute. reflexivity. Qed.

Lemma validation_error_aborts_witness :
  exists resp,
    @normalizeAIResponse std_runtime rejectedPayload = Ok resp
    /\ @applyResponse std_runtime plateSession plateSession 1000 false None resp
       = Ok (ValidationAbort "No such item in the inventory.").
Proof.
  destruct (@normalizeAIResponse std_runtime rejectedPayload)
    as [resp |] eqn:H; [| vm_compute in H; discriminate H].
  exists resp. split; [reflexivity |].
  apply (@validation_error_aborts std_runtime rejectedPayload resp
           plateSession plateSession 1000 false None
           "No such item in the inventory."
           eq_refl eq_refl eq_refl ltac:(discriminate) H).
Defined.

(** ** Extracting the object from the answer of the service *)

Lemma length_app_string (a b : string) :
  String.length (String.append a b) = (String.length a + String.length b)%nat.
Proof.
  induction a as [| x a IH]; [reflexivity |].
  change (S (String.length (String.append a b))
          = S (String.length a + String.length b)).
  rewrite IH. reflexivity.
Qed.

Lemma length_dropChars (n : nat) :
  forall s, String.length (dropChars n s) = (String.length s - n)%nat.
Proof.
  induction n as [| n IH]; intros [| c s]; cbn [dropChars String.length];
    try reflexivity; try lia.
  apply IH.
Qed.

Lemma dropChars_app (n : nat) :
  forall a s, (n <= String.length a)%nat ->
              dropChars n (String.append a s) = String.append (dropChars n a) s.
Proof.
  induction n as [| n IH]; intros a s Hn; [reflexivity |].
  destruct a as [| x a]; cbn [String.length] in Hn; [lia |].
  change (dropChars n (String.append a s) = String.append (dropChars n a) s).
  apply IH. lia.
Qed.

Lemma allChars_dropChars (p : ascii -> bool) (n : nat) :
  forall s, allChars p s = true -> allChars p (dropChars n s) = true.
Proof.
  induction n as [| n IH]; intros [| c s] H; cbn [dropChars]; auto.
  cbn [allChars] in H. apply andb_true_iff in H as [_ H]. apply IH, H.
Qed.

Lemma isPrefix_length (pat : string) :
  forall s, isPrefix pat s = true -> (String.length pat <= String.length s)%nat.
Proof.
  induction pat as [| p pat IH]; intros [| c s]; cbn [isPrefix String.length];
    try lia; try discriminate.
  intros H. apply andb_true_iff in H as [_ H]. specialize (IH s H). lia.
Qed.

(** A pattern without [c] matches at the start of [a ++ c :: b] exactly
    when it matches at the start of [a]. *)
Lemma isPrefix_before (c : ascii) (pat : string) :
  without c pat = true ->
  forall a b, isPrefix pat (String.append a (String c b)) = isPrefix pat a.
Proof.
  unfold without. induction pat as [| p pat IH]; intros Hpat a b.
  - destruct a; reflexivity.
  - cbn [allChars] in Hpat. apply andb_true_iff in Hpat as [Hp Hpat].
    apply negb_true_iff in Hp.
    destruct a as [| x a].
    + change (Ascii.eqb p c && isPrefix pat b = false).
      rewrite Hp. reflexivity.
    + change (Ascii.eqb p x && isPrefix pat (String.append a (String c b))
              = Ascii.eqb p x && isPrefix pat a).
      rewrite (IH Hpat). reflexivity.
Qed.

Section RemoveAll.
Variable pat : string.
Hypothesis pat_not_empty : pat <> EmptyString.

Lemma dropPat_shorter (c : ascii) (s : string) :
  (String.length (dropChars (String.length pat) (String c s))
   <= String.length s)%nat.
Proof.
  rewrite length_dropChars. destruct pat as [| p q]; [congruence |].
  cbn [String.length]. lia.
Qed.

(** Enough fuel is as good as any. *)
Lemma removeAllFuel_enough :
  forall fuel1 fuel2 s,
    (String.length s <= fuel1)%nat -> (String.length s <= fuel2)%nat ->
    removeAllFuel fuel1 pat s = removeAllFuel fuel2 pat s.
Proof.
  induction fuel1 as [| f1 IH]; intros fuel2 s H1 H2.
  - destruct s; cbn [String.length] in H1; [| lia].
    destruct fuel2; reflexivity.
  - destruct s as [| c s]; [destruct fuel2; reflexivity |].
    cbn [String.length] in H1, H2.
    destruct fuel2 as [| f2]; [lia |].
    cbn [removeAllFuel].
    pose proof (dropPat_shorter c s) as Hd.
    destruct (isPrefix pat (String c s)).
    + apply IH; lia.
    + f_equal. apply IH; lia.
Qed.

Lemma removeAll_app_sep (c : ascii) :
  without c pat = true ->
  forall fuel a b,
    (String.length (String.append a (String c b)) <= fuel)%nat ->
    removeAllFuel fuel pat (String.append a (String c b))
    = String.append (removeAll pat a) (String c (removeAll pat b)).
Proof.
  intros Hpat. unfold removeAll.
  induction fuel as [| fuel IH]; intros a b Hfuel.
  - rewrite length_app_string in Hfuel. cbn [String.length] in Hfuel. lia.
  - destruct a as [| x a].
    + change (String.append EmptyString (String c b)) with (String c b) in *.
      cbn [String.length] in Hfuel.
      cbn [removeAllFuel String.length].
      assert (Hno : isPrefix pat (String c b) = false).
      { destruct pat as [| p q]; [congruence |].
        unfold without in Hpat. cbn [allChars] in Hpat.
        apply andb_true_iff in Hpat as [Hp _]. apply negb_true_iff in Hp.
        cbn [isPrefix]. rewrite Hp. reflexivity. }
      rewrite Hno.
      change (String c (removeAllFuel fuel pat b)
              = String c (removeAllFuel (String.length b) pat b)).
      f_equal. apply removeAllFuel_enough; lia.
    + change (String.append (String x a) (String c b))
        with (String x (String.append a (String c b))) in *.
      cbn [String.length] in Hfuel.
      cbn [removeAllFuel String.length].
      change (String x (String.append a (String c b)))
        with (String.append (String x a) (String c b)).
      rewrite (isPrefix_before c pat Hpat (String x a) b).
      destruct (isPrefix pat (String x a)) eqn:Hpre.
      * rewrite dropChars_app by (apply isPrefix_length, Hpre).
        pose proof (dropPat_shorter x a) as Hd.
        rewrite IH.
        2: { rewrite length_app_string in *. cbn [String.length] in *. lia. }
        f_equal. apply removeAllFuel_enough; lia.
      * change (String.append (String x a) (String c b))
          with (String x (String.append a (String c b))).
        rewrite IH by exact (le_S_n _ _ Hfuel).
        reflexivity.
Qed.

Lemma removeAll_sep (c : ascii) (a b : string) :
  without c pat = true ->
  removeAll pat (String.append a (String c b))
  = String.append (removeAll pat a) (String c (removeAll pat b)).
Proof.
  intros Hpat. unfold removeAll at 1.
  apply (removeAll_app_sep c Hpat). lia.
Qed.

Lemma removeAllFuel_keeps (p : ascii -> bool) :
  forall fuel s, allChars p s = true ->
                 allChars p (removeAllFuel fuel pat s) = true.
Proof.
  induction fuel as [| fuel IH]; intros s H; [exact H |].
  destruct s as [| c s]; [reflexivity |].
  cbn [removeAllFuel].
  destruct (isPrefix pat (String c s)).
  - apply IH, allChars_dropChars, H.
  - cbn [allChars] in *. apply andb_true_iff in H as [Hc Hs].
    rewrite Hc, (IH s Hs). reflexivity.
Qed.

End RemoveAll.

Lemma removeAll_untouched (pat : string) (p : ascii) (q s : string) :
  pat = String p q -> without p s = true -> removeAll pat s = s.
Proof.
  intros -> Hs. unfold removeAll.
  generalize (String.length s) as fuel. revert Hs. unfold without.
  induction s as [| c s IH]; intros Hs fuel; [destruct fuel; reflexivity |].
  cbn [allChars] in Hs. apply andb_true_iff in Hs as [Hc Hs].
  apply negb_true_iff in Hc.
  destruct fuel as [| fuel]; [reflexivity |].
  cbn [removeAllFuel isPrefix].
  rewrite Ascii.eqb_sym, Hc. cbn [andb].
  rewrite (IH Hs). reflexivity.
Qed.

Lemma indexOf_first (c : ascii) (a b : string) :
  without c a = true ->
  indexOf c (String.append a (String c b)) = Some (String.length a).
Proof.
  unfold without. induction a as [| x a IH]; intros Ha.
  - change (indexOf c (String c b) = Some 0%nat).
    cbn [indexOf]. rewrite Ascii.eqb_refl. reflexivity.
  - cbn [allChars] in Ha. apply andb_true_iff in Ha as [Hx Ha].
    apply negb_true_iff in Hx.
    change (indexOf c (String x (String.append a (String c b)))
            = Some (S (String.length a))).
    cbn [indexOf]. rewrite Hx, (IH Ha). reflexivity.
Qed.

Lemma lastIndexOf_none (c : ascii) (s : string) :
  without c s = true -> lastIndexOf c s = None.
Proof.
  unfold without. induction s as [| x s IH]; [reflexivity |].
  cbn [allChars lastIndexOf]. intros H.
  apply andb_true_iff in H as [Hx Hs]. apply negb_true_iff in Hx.
  rewrite (IH Hs), Hx. reflexivity.
Qed.

Lemma lastIndexOf_last (c : ascii) (a b : string) :
  without c b = true ->
  lastIndexOf c (String.append a (String c b)) = Some (String.length a).
Proof.
  intros Hb. induction a as [| x a IH].
  - change (lastIndexOf c (String c b) = Some 0%nat).
    cbn [lastIndexOf].
    rewrite (lastIndexOf_none c b Hb), Ascii.eqb_refl. reflexivity.
  - change (lastIndexOf c (String x (String.append a (String c b)))
            = Some (S (String.length a))).
    cbn [lastIndexOf]. rewrite IH. reflexivity.
Qed.

Lemma substring_skip (a s : string) (n : nat) :
  substring (String.length a) n (String.append a s) = substring 0 n s.
Proof.
  induction a as [| x a IH]; [reflexivity |].
  change (substring (String.length a) n (String.append a s) = substring 0 n s).
  exact IH.
Qed.

Lemma substring_take (a s : string) :
  substring 0 (String.length a) (String.append a s) = a.
Proof.
  induction a as [| x a IH]; [destruct s; reflexivity |].
  change (String x (substring 0 (String.length a) (String.append a s))
          = String x a).
  rewrite IH. reflexivity.
Qed.

(** X30. The object is cut out of an answer that wraps it in text and
    code fences: for an answer [pre { body } post] where [pre] holds no
    opening brace, [post] no closing brace and [body] no backtick, what
    is handed to the JSON parser is exactly [{ body }], whatever fences
    and words stand before and after. *)
Theorem extractJson_object (pre body post : string) :
  without "{" pre = true ->
  without "}" post = true ->
  without "`" body = true ->
  extractJson
    (Some (String.append pre
             (String "{" (String.append body (String "}" post)))))
  = String "{" (String.append body "}").
Proof.
  intros Hpre Hpost Hbody.
  assert (Hne1 : ("```json" <> EmptyString)%string) by discriminate.
  assert (Hne2 : ("```" <> EmptyString)%string) by discriminate.
  unfold extractJson.
  assert (Hsome : someOr (Some (String.append pre
                    (String "{" (String.append body (String "}" post))))) "{}"
                  = String.append pre
                      (String "{" (String.append body (String "}" post)))).
  { cbn [someOr]. destruct pre; reflexivity. }
  rewrite Hsome.
  change (removeAll "```" (removeAll "```json" ?s)) with (stripFences s).
  assert (Hstrip :
    stripFences (String.append pre
                   (String "{" (String.append body (String "}" post))))
    = String.append (stripFences pre)
        (String "{" (String.append body (String "}" (stripFences post))))).
  { unfold stripFences.
    rewrite (removeAll_sep "```json" Hne1 "{") by reflexivity.
    rewrite (removeAll_sep "```json" Hne1 "}") by reflexivity.
    rewrite (removeAll_sep "```" Hne2 "{") by reflexivity.
    rewrite (removeAll_sep "```" Hne2 "}") by reflexivity.
    rewrite (removeAll_untouched "```json" "`" "``json" body eq_refl Hbody).
    rewrite (removeAll_untouched "```" "`" "``" body eq_refl Hbody).
    reflexivity. }
  rewrite Hstrip.
  assert (Hpre' : without "{" (stripFences pre) = true).
  { unfold stripFences, removeAll, without.
    apply removeAllFuel_keeps, removeAllFuel_keeps, Hpre. }
  assert (Hpost' : without "}" (stripFences post) = true).
  { unfold stripFences, removeAll, without.
    apply removeAllFuel_keeps, removeAllFuel_keeps, Hpost. }
  set (pre' := stripFences pre) in *. set (post' := stripFences post) in *.
  rewrite (indexOf_first "{" pre' _ Hpre').
  replace (String.append pre'
             (String "{" (String.append body (String "}" post'))))
    with (String.append (String.append pre' (String "{" body))
                        (String "}" post'))
    by (rewrite <- append_assoc_string; reflexivity).
  rewrite (lastIndexOf_last "}" _ post' Hpost').
  rewrite length_app_string. cbn [String.length].
  unfold jsSubstring.
  replace (S (String.length pre' + S (String.length body))
           <? String.length pre')%nat with false
    by (symmetry; apply Nat.ltb_ge; lia).
  replace (S (String.length pre' + S (String.length body))
           - String.length pre')%nat
    with (String.length (String "{" (String.append body "}")))
    by (cbn [String.length]; rewrite length_app_string; cbn [String.length];
        lia).
  rewrite <- append_assoc_string, substring_skip.
  replace (String.append (String "{" body) (String "}" post'))
    with (String.append (String "{" (String.append body "}")) post').
  - apply substring_take.
  - change (String "{" (String.append (String.append body "}") post')
            = String "{" (String.append body (String "}" post'))).
    rewrite <- append_assoc_string. reflexivity.
Qed.

Lemma extractJson_object_witness :
  extractJson (Some "Here it is: ```json {'narrative': 'Hi'} ``` Enjoy.")
  = "{'narrative': 'Hi'}".
Proof.
  apply (extractJson_object "Here it is: ```json " "'narrative': 'Hi'"
           " ``` Enjoy." eq_refl eq_refl eq_refl).
Defined.

